(** * Review-service WebSocket connection manager

    A shallow embedding of
    [backend/review-service/app/websocket_manager.py] (classes
    [ConnectionManager] and [NotificationService]) together with
    [websocket_endpoint] of [backend/review-service/app/main.py] and
    [get_current_user] of [backend/review-service/app/auth_client.py].

    Modelling conventions.
    - A [Dict] is a [gmap], a [Set] is a [gset].  Iterating a Python set
      visits its members in an order the language leaves unspecified; the
      model iterates in the order of [elements].  Statements below that
      concern a loop over a set or a dict are phrased by membership, not
      by position.
    - A [datetime] is an integer number of seconds ([Z]).  Every call of
      [datetime.now()] is a read of an external clock: the [n]-th read
      returns [clock env n].
    - The [WebSocket] object is an external collaborator.  Its methods
      [accept], [send_text] and [close] either return or raise; which of
      the two happens is decided by the environment [Env], as a function of
      everything that happened on the transport so far.  Each call is
      recorded in a trace.  starlette's rule that a connection is
      accepted at most once is the predicate [accept_once] on
      environments; the statements that rest on it assume it.
    - A coroutine is a function [World -> Outcome A * World]: it returns a
      value or raises an exception, and leaves a new world behind.  Calls
      run one after the other; the interleaving of coroutines at their
      [await]s is not modelled.  Logging and metrics calls are side-effect
      sinks and are not modelled either. *)

From Stdlib Require Import ZArith QArith.
From stdpp Require Import gmap strings pretty list fin_maps fin_sets.

Set Warnings "-clear-no-such-hyp".

Local Open Scope string_scope.
Local Open Scope list_scope.
Local Open Scope Z_scope.

(** ** Data model *)

(** [uuid.UUID] values and [WebSocket] handles are opaque, hashable
    identities; they are kept in two different types. *)
Abbreviation UUID := positive.
Abbreviation WebSocket := N.

(** schemas.py: [class UserRole(str, Enum)]. *)
Inductive UserRole := ADMIN | REVIEWER | OPERATOR.

(** The [str] value of a role; a [str]-mixin enum member compares equal to
    that string. *)
Definition role_value (r : UserRole) : string :=
  match r with
  | ADMIN => "admin"
  | REVIEWER => "reviewer"
  | OPERATOR => "operator"
  end.

(** schemas.py: [class User(UserBase)], the fields the manager reads. *)
Record User := mkUser {
  id : UUID;
  username : string;
  role : UserRole;
  is_active : bool
}.

(** The per-connection dictionary
    [{"connected_at": ..., "last_heartbeat": ...}]. *)
Record Metadata := mkMetadata {
  connected_at : Z;
  last_heartbeat : Z
}.

(** The three dictionaries of [ConnectionManager.__init__]. *)
Record ConnectionManager := mkManager {
  active_connections : gmap UUID (gset WebSocket);
  connection_users : gmap WebSocket User;
  connection_metadata : gmap WebSocket Metadata
}.

(** [ConnectionManager()] *)
Definition manager_init : ConnectionManager :=
  mkManager ∅ ∅ ∅.

(** Python values that occur inside message dictionaries. *)
#[warnings="-register-all"]
Inductive value :=
  | VStr (s : string)
  | VBool (b : bool)
  | VNum (q : Q)
  | VUuid (u : UUID)          (* str(uuid) *)
  | VIso (t : Z)              (* datetime.isoformat() *)
  | VNone
  | VDict (d : list (string * value)).

(** The [str] a value is, when it is one: [str(uuid)] and
    [datetime.isoformat()] are strings as well.  The model keeps a UUID
    as a number and a datetime as a number of seconds, and writes both
    in decimal. *)
Definition str_value (v : value) : option string :=
  match v with
  | VStr s => Some s
  | VUuid u => Some (pretty u)
  | VIso t => Some (pretty t)
  | _ => None
  end.

(** A message literal [{"type": ..., "data": ...}]. *)
Definition Message := list (string * value).

Fixpoint dict_get (k : string) (d : list (string * value)) : option value :=
  match d with
  | [] => None
  | (k', v) :: d' => if String.eqb k k' then Some v else dict_get k d'
  end.

(** schemas.py: [class WebSocketMessage(BaseModel)]. *)
Record WebSocketMessage := mkWsMessage {
  ws_type : string;
  ws_data : list (string * value);
  ws_timestamp : Z
}.

(** ** Effects *)

Inductive Exn :=
  | KeyError (k : string)
  | ValidationError
  | TransportError
  | RuntimeError (msg : string)
  | NameError (name : string)
  | HTTPException (status_code : Z).

(** What happened on the transport: each call of a [WebSocket] method, and
    whether it returned ([true]) or raised ([false]). *)
Inductive Event :=
  | EvAccept (ws : WebSocket) (ok : bool)
  | EvSendText (ws : WebSocket) (m : WebSocketMessage) (ok : bool)
  | EvClose (ws : WebSocket) (code : Z) (reason : string) (ok : bool).

(** The close codes seen on the transport, in order. *)
Definition close_codes (tr : list Event) : list Z :=
  omap (λ e, match e with EvClose _ code _ _ => Some code | _ => None end) tr.

Record World := mkWorld {
  mgr : ConnectionManager;
  trace : list Event;
  ticks : nat
}.

(** The environment: the clock, the behaviour of the transport, and the
    answer of the authentication service ([AuthClient.verify_token], which
    catches every exception and answers [None] instead). *)
Record Env := mkEnv {
  clock : nat → Z;
  verify_token : string → option User;
  accept_raises : list Event → WebSocket → bool;
  send_raises : list Event → WebSocket → bool;
  close_raises : list Event → WebSocket → bool
}.

Inductive Outcome (A : Type) :=
  | Returned (a : A)
  | Raised (e : Exn).
Arguments Returned {A} a.
Arguments Raised {A} e.

Definition M (A : Type) : Type := World → Outcome A * World.

#[global] Instance M_ret : MRet M := λ A (a : A) (w : World), (Returned a, w).

#[global] Instance M_bind : MBind M := λ A B (k : A → M B) (c : M A) (w : World),
  match c w with
  | (Returned a, w') => k a w'
  | (Raised e, w') => (Raised e, w')
  end.

Definition raise {A} (e : Exn) : M A := λ w, (Raised e, w).

(** [try: c  finally: f] *)
Definition try_finally {A} (c : M A) (f : M unit) : M A :=
  λ w, match c w with
       | (r, w') =>
           match f w' with
           | (Returned _, w'') => (r, w'')
           | (Raised e, w'') => (Raised e, w'')
           end
       end.

(** [try: c  except Exception as e: h e] *)
Definition try_except {A} (c : M A) (h : Exn → M A) : M A :=
  λ w, match c w with
       | (Returned a, w') => (Returned a, w')
       | (Raised e, w') => h e w'
       end.

Definition get_mgr : M ConnectionManager := λ w, (Returned (mgr w), w).

Definition modify_mgr (f : ConnectionManager → ConnectionManager) : M unit :=
  λ w, (Returned tt, mkWorld (f (mgr w)) (trace w) (ticks w)).

Definition emit (e : Event) : M unit :=
  λ w, (Returned tt, mkWorld (mgr w) (trace w ++ [e]) (ticks w)).

(** [datetime.now()] *)
Definition now (env : Env) : M Z :=
  λ w, (Returned (clock env (ticks w)), mkWorld (mgr w) (trace w) (S (ticks w))).

(** [await websocket.accept()] *)
Definition accept (env : Env) (ws : WebSocket) : M unit :=
  λ w, if accept_raises env (trace w) ws
       then (emit (EvAccept ws false);; raise (RuntimeError "accept")) w
       else emit (EvAccept ws true) w.

(** [await websocket.send_text(...)] *)
Definition send_text (env : Env) (ws : WebSocket) (m : WebSocketMessage) : M unit :=
  λ w, if send_raises env (trace w) ws
       then (emit (EvSendText ws m false);; raise TransportError) w
       else emit (EvSendText ws m true) w.

(** [await websocket.close(code=..., reason=...)] *)
Definition close (env : Env) (ws : WebSocket) (code : Z) (reason : string) : M unit :=
  λ w, if close_raises env (trace w) ws
       then (emit (EvClose ws code reason false);; raise TransportError) w
       else emit (EvClose ws code reason true) w.

(** [message[k]] *)
Definition getitem (m : Message) (k : string) : M value :=
  match dict_get k m with
  | Some v => mret v
  | None => raise (KeyError k)
  end.

(** [WebSocketMessage(type=ty, data=data, timestamp=ts)]: pydantic accepts
    a [str] for [type] and a [dict] for [data]. *)
Definition make_ws_message (ty data : value) (ts : Z) : M WebSocketMessage :=
  match str_value ty, data with
  | Some t, VDict d => mret (mkWsMessage t d ts)
  | _, _ => raise ValidationError
  end.

(** ** ConnectionManager *)

(** [disconnect(self, websocket)], lines 51-66. *)
Definition disconnect (websocket : WebSocket) (m : ConnectionManager) : ConnectionManager :=
  let user := connection_users m !! websocket in
  let ac :=
    match user with
    | Some u =>
        match active_connections m !! id u with
        | Some conns =>
            let conns' := conns ∖ {[websocket]} in
            if decide (conns' = ∅)
            then delete (id u) (active_connections m)
            else <[id u := conns']> (active_connections m)
        | None => active_connections m
        end
    | None => active_connections m
    end in
  mkManager ac
            (delete websocket (connection_users m))
            (delete websocket (connection_metadata m)).

(** [send_personal_message(self, message, websocket)], lines 68-79. *)
Definition send_personal_message (env : Env) (message : Message) (websocket : WebSocket)
  : M unit :=
  try_except
    (ty ← getitem message "type";
     data ← getitem message "data";
     ts ← now env;
     ws_message ← make_ws_message ty data ts;
     send_text env websocket ws_message)
    (λ _, modify_mgr (disconnect websocket)).

(** The registration step of [connect], lines 28-37, once the two clock
    reads are made. *)
Definition add_connection (websocket : WebSocket) (user : User) (t_conn t_hb : Z)
    (m : ConnectionManager) : ConnectionManager :=
  let ac0 :=
    match active_connections m !! id user with
    | None => <[id user := ∅]> (active_connections m)
    | Some _ => active_connections m
    end in
  let ac1 := alter (λ conns, {[websocket]} ∪ conns) (id user) ac0 in
  mkManager ac1
            (<[websocket := user]> (connection_users m))
            (<[websocket := mkMetadata t_conn t_hb]> (connection_metadata m)).

(** [connect(self, websocket, user)], lines 23-49. *)
Definition connect (env : Env) (websocket : WebSocket) (user : User) : M unit :=
  accept env websocket;;
  t_conn ← now env;
  t_hb ← now env;
  modify_mgr (add_connection websocket user t_conn t_hb);;
  t_msg ← now env;
  send_personal_message env
    [("type", VStr "connection_established");
     ("data", VDict [("user_id", VUuid (id user));
                     ("username", VStr (username user));
                     ("connected_at", VIso t_msg)])]
    websocket.

(** One round of the loop of [send_user_message], lines 88-93: the call
    of [send_personal_message] sits in its own [try], and a connection
    whose send raised there is collected in [disconnected_connections]. *)
Fixpoint send_user_loop (env : Env) (message : Message) (conns : list WebSocket)
    (disconnected_connections : gset WebSocket) : M (gset WebSocket) :=
  match conns with
  | [] => mret disconnected_connections
  | websocket :: rest =>
      d ← try_except
            (send_personal_message env message websocket;;
             mret disconnected_connections)
            (λ _, mret ({[websocket]} ∪ disconnected_connections));
      send_user_loop env message rest d
  end.

Fixpoint disconnect_all (conns : list WebSocket) : M unit :=
  match conns with
  | [] => mret tt
  | websocket :: rest => modify_mgr (disconnect websocket);; disconnect_all rest
  end.

(** [send_user_message(self, message, user_id)], lines 81-97.  The loop
    runs over a copy of the user's set. *)
Definition send_user_message (env : Env) (message : Message) (user_id : UUID) : M unit :=
  m ← get_mgr;
  match active_connections m !! user_id with
  | None => mret tt
  | Some conns =>
      disconnected_connections ← send_user_loop env message (elements conns) ∅;
      disconnect_all (elements disconnected_connections)
  end.

(** [next(iter(connections))], guarded by [if connections:]. *)
Definition first_connection (connections : gset WebSocket) : option WebSocket :=
  head (elements connections).

(** The iterator of [self.active_connections.items()] remembers the size
    of the dictionary at its creation; every [next] first compares it with
    the current size and raises [RuntimeError] when they differ. *)
Definition dict_iter_check (used : nat) : M unit :=
  m ← get_mgr;
  if decide (size (active_connections m) = used)
  then mret tt
  else raise (RuntimeError "dictionary changed size during iteration").

(** The body of the loop of [send_role_message], lines 103-107.
    [connections] is the live set stored under [user_id]. *)
Definition send_role_step (env : Env) (message : Message) (role' : string)
    (user_id : UUID) : M unit :=
  m ← get_mgr;
  match active_connections m !! user_id with
  | Some connections =>
      match first_connection connections with
      | Some websocket =>
          match connection_users m !! websocket with
          | Some user =>
              if String.eqb (role_value (role user)) role'
              then send_user_message env message user_id
              else mret tt
          | None => mret tt
          end
      | None => mret tt
      end
  | None => mret tt
  end.

Fixpoint send_role_loop (env : Env) (message : Message) (role' : string)
    (used : nat) (keys : list UUID) : M unit :=
  match keys with
  | [] => dict_iter_check used
  | user_id :: rest =>
      dict_iter_check used;;
      send_role_step env message role' user_id;;
      send_role_loop env message role' used rest
  end.

(** [send_role_message(self, message, role)], lines 99-107.  The loop runs
    over the live dictionary, not over a copy. *)
Definition send_role_message (env : Env) (message : Message) (role' : string) : M unit :=
  m ← get_mgr;
  send_role_loop env message role'
    (size (active_connections m))
    ((map_to_list (active_connections m)).*1).

Fixpoint broadcast_loop (env : Env) (message : Message) (keys : list UUID) : M unit :=
  match keys with
  | [] => mret tt
  | user_id :: rest =>
      send_user_message env message user_id;;
      broadcast_loop env message rest
  end.

(** [broadcast_message(self, message)], lines 109-112: the loop runs over
    [list(self.active_connections.keys())]. *)
Definition broadcast_message (env : Env) (message : Message) : M unit :=
  m ← get_mgr;
  broadcast_loop env message ((map_to_list (active_connections m)).*1).

(** schemas.py: [class NotificationMessage(BaseModel)]. *)
Record NotificationMessage := mkNotification {
  n_user_id : option UUID;
  n_message : string;
  n_severity : string;
  n_data : list (string * value)
}.

(** [send_notification(self, notification)], lines 114-128. *)
Definition send_notification (env : Env) (notification : NotificationMessage) : M unit :=
  let message :=
    [("type", VStr "notification");
     ("data", VDict [("message", VStr (n_message notification));
                     ("severity", VStr (n_severity notification));
                     ("data", VDict (n_data notification))])] in
  match n_user_id notification with
  | Some user_id => send_user_message env message user_id
  | None => broadcast_message env message
  end.

(** One dictionary of the list returned by [get_connected_users]. *)
Record ConnectedUser := mkConnectedUser {
  e_user_id : UUID;
  e_username : string;
  e_role : UserRole;
  e_connection_count : nat;
  e_connected_at : option Z;
  e_last_heartbeat : option Z
}.

(** The body of the loop of [get_connected_users], lines 134-148. *)
Definition connected_user_entry (m : ConnectionManager) (connections : gset WebSocket)
  : option ConnectedUser :=
  match first_connection connections with
  | Some websocket =>
      let metadata := connection_metadata m !! websocket in
      match connection_users m !! websocket with
      | Some user =>
          Some (mkConnectedUser (id user) (username user) (role user)
                  (size connections)
                  (connected_at <$> metadata)
                  (last_heartbeat <$> metadata))
      | None => None
      end
  | None => None
  end.

(** [get_connected_users(self)], lines 130-150. *)
Definition get_connected_users (m : ConnectionManager) : list ConnectedUser :=
  omap (λ item, connected_user_entry m item.2) (map_to_list (active_connections m)).

(** [handle_heartbeat(self, websocket)], lines 152-160. *)
Definition handle_heartbeat (env : Env) (websocket : WebSocket) : M unit :=
  m ← get_mgr;
  match connection_metadata m !! websocket with
  | Some _ =>
      t ← now env;
      modify_mgr (λ m, mkManager (active_connections m) (connection_users m)
                         (alter (λ md, mkMetadata (connected_at md) t) websocket
                                (connection_metadata m)));;
      t_msg ← now env;
      send_personal_message env
        [("type", VStr "heartbeat_ack");
         ("data", VDict [("timestamp", VIso t_msg)])]
        websocket
  | None => mret tt
  end.

(** config.py: the setting read by the manager (default 30). *)
Record Settings := mkSettings {
  websocket_heartbeat_interval : Z
}.

Definition default_settings : Settings := mkSettings 30.

(** The first loop of [cleanup_stale_connections], lines 167-171.  The
    default argument of [metadata.get] is evaluated on every round, which
    reads the clock. *)
Fixpoint collect_stale (env : Env) (cutoff_time : Z)
    (items : list (WebSocket * Metadata)) (stale_connections : list WebSocket)
  : M (list WebSocket) :=
  match items with
  | [] => mret stale_connections
  | (websocket, metadata) :: rest =>
      _ ← now env;
      collect_stale env cutoff_time rest
        (if last_heartbeat metadata <? cutoff_time
         then stale_connections ++ [websocket]
         else stale_connections)
  end.

(** The second loop, lines 173-179; the bare [except] swallows whatever
    [close] raises. *)
Fixpoint evict_stale (env : Env) (stale_connections : list WebSocket) : M unit :=
  match stale_connections with
  | [] => mret tt
  | websocket :: rest =>
      modify_mgr (disconnect websocket);;
      try_except (close env websocket 1000 "Heartbeat timeout") (λ _, mret tt);;
      evict_stale env rest
  end.

(** [cleanup_stale_connections(self)], lines 162-179. *)
Definition cleanup_stale_connections (env : Env) (settings : Settings) : M unit :=
  let heartbeat_timeout := websocket_heartbeat_interval settings * 2 in
  t ← now env;
  let cutoff_time := t - heartbeat_timeout in
  m ← get_mgr;
  stale_connections ← collect_stale env cutoff_time
                        (map_to_list (connection_metadata m)) [];
  evict_stale env stale_connections.

(** ** NotificationService *)

(** [notify_new_detection], lines 186-200. *)
Definition notify_new_detection (env : Env) (detection_id : UUID) (is_anomaly : bool)
    (confidence : Q) : M unit :=
  t ← now env;
  let message :=
    [("type", VStr "new_detection");
     ("data", VDict [("detection_id", VUuid detection_id);
                     ("is_anomaly", VBool is_anomaly);
                     ("confidence", VNum confidence);
                     ("timestamp", VIso t)])] in
  send_role_message env message "reviewer";;
  send_role_message env message "admin".

(** [notify_review_completed], lines 202-215. *)
Definition notify_review_completed (env : Env) (review_id detection_id : UUID)
    (verdict : string) : M unit :=
  t ← now env;
  let message :=
    [("type", VStr "review_completed");
     ("data", VDict [("review_id", VUuid review_id);
                     ("detection_id", VUuid detection_id);
                     ("verdict", VStr verdict);
                     ("timestamp", VIso t)])] in
  broadcast_message env message.

(** [notify_system_alert], lines 217-234.  The [NotificationMessage] built
    first is not used. *)
Definition notify_system_alert (env : Env) (alert_type message : string)
    (data : option (list (string * value))) : M unit :=
  t ← now env;
  send_role_message env
    [("type", VStr "system_alert");
     ("data", VDict [("alert_type", VStr alert_type);
                     ("message", VStr message);
                     ("data", VDict (default [] data));
                     ("timestamp", VIso t)])]
    "admin".

(** ** The endpoint, main.py lines 511-562 *)

(** auth_client.py: [get_current_user(token)], lines 101-124. *)
Definition get_current_user (env : Env) (token : string) : M User :=
  if String.eqb token "" then raise (HTTPException 401)
  else match verify_token env token with
       | None => raise (HTTPException 401)
       | Some user =>
           if is_active user then mret user else raise (HTTPException 400)
       end.

(** A pydantic model object is always truthy. *)
Definition user_truthy (user : User) : bool := true.

(** What [receive_text] gives: the peer is gone
    ([WebSocketDisconnect]), or a text arrived. *)
Inductive Frame :=
  | FrameDisconnect
  | FrameText (data : string).

(** [json.loads(data)] in main.py.  The module never imports [json]
    (websocket_manager.py does, main.py does not): looking the name up
    raises [NameError] before anything is parsed. *)
Definition json_loads (data : string) : M Message :=
  raise (NameError "json").

(** [message.get("type") == "heartbeat"] *)
Definition is_heartbeat (message : Message) : bool :=
  match dict_get "type" message with
  | Some ty => bool_decide (str_value ty = Some "heartbeat")
  | None => false
  end.

(** The [while True] loop, lines 540-554, over the frames the peer sends;
    when they are used up the peer is gone.  [WebSocketDisconnect] and
    every other exception of a round end the loop. *)
Fixpoint receive_loop (env : Env) (websocket : WebSocket) (frames : list Frame) : M unit :=
  match frames with
  | [] => mret tt
  | FrameDisconnect :: _ => mret tt
  | FrameText data :: rest =>
      continue ← try_except
                   (message ← json_loads data;
                    (if is_heartbeat message
                     then handle_heartbeat env websocket
                     else mret tt);;
                    mret true)
                   (λ _, mret false);
      if continue : bool then receive_loop env websocket rest else mret tt
  end.

(** [if not token]: the query parameter is absent or empty. *)
Definition token_missing (token : option string) : bool :=
  match token with
  | None => true
  | Some t => String.eqb t ""
  end.

(** [websocket_endpoint(websocket, token)]. *)
Definition websocket_endpoint (env : Env) (websocket : WebSocket)
    (token : option string) (frames : list Frame) : M unit :=
  if token_missing token
  then close env websocket 4001 "Missing authentication token"
  else
    auth ← try_except
             (user ← get_current_user env (default "" token);
              if user_truthy user
              then mret (Some user)
              else (close env websocket 4001 "Invalid token";; mret None))
             (λ _, close env websocket 4001 "Authentication failed";; mret None);
    match auth with
    | None => mret tt
    | Some user =>
        connect env websocket user;;
        try_finally (receive_loop env websocket frames)
                    (modify_mgr (disconnect websocket))
    end.

(** ** Sequences of calls *)

(** A call of [connect] (register) or of [disconnect] (unregister). *)
Inductive Op :=
  | Register (websocket : WebSocket) (user : User)
  | Unregister (websocket : WebSocket).

(** The world a call leaves behind, whether it returned or raised. *)
Definition exec (env : Env) (op : Op) (w : World) : World :=
  match op with
  | Register websocket user => (connect env websocket user w).2
  | Unregister websocket => (modify_mgr (disconnect websocket) w).2
  end.

(** The worlds after each call of a sequence. *)
Fixpoint run (env : Env) (ops : list Op) (w : World) : list World :=
  match ops with
  | [] => []
  | op :: rest => let w' := exec env op w in w' :: run env rest w'
  end.

(** ** The Registry invariant *)

(** No user entry has an empty connection set. *)
Definition no_empty_entry (m : ConnectionManager) : Prop :=
  ∀ u conns, active_connections m !! u = Some conns → conns ≠ ∅.

(** Every connection in some user's set has a reverse-lookup entry, and
    that entry (a dictionary has at most one per key) maps it back to the
    same user. *)
Definition reverse_consistent (m : ConnectionManager) : Prop :=
  ∀ u conns ws, active_connections m !! u = Some conns → ws ∈ conns →
    ∃ user, connection_users m !! ws = Some user ∧ id user = u.

Definition registry_invariant (m : ConnectionManager) : Prop :=
  no_empty_entry m ∧ reverse_consistent m.

(** The other direction, and the metadata: a connection with a
    reverse-lookup entry is in its owner's set, and the connections with
    metadata are those with a reverse-lookup entry. *)
Definition forward_consistent (m : ConnectionManager) : Prop :=
  ∀ ws user, connection_users m !! ws = Some user →
    ∃ conns, active_connections m !! id user = Some conns ∧ ws ∈ conns.

Definition metadata_consistent (m : ConnectionManager) : Prop :=
  ∀ ws, is_Some (connection_metadata m !! ws) ↔ is_Some (connection_users m !! ws).

Definition registry_wf (m : ConnectionManager) : Prop :=
  registry_invariant m ∧ forward_consistent m ∧ metadata_consistent m.

(** A call [connect(websocket, user)] re-uses no handle that is at that
    moment registered to a different user. *)
Definition register_fresh (m : ConnectionManager) (op : Op) : bool :=
  match op with
  | Register websocket user =>
      match connection_users m !! websocket with
      | Some owner => bool_decide (id owner = id user)
      | None => true
      end
  | Unregister _ => true
  end.

Fixpoint run_fresh (env : Env) (ops : list Op) (w : World) : bool :=
  match ops with
  | [] => true
  | op :: rest => register_fresh (mgr w) op && run_fresh env rest (exec env op w)
  end.

(** The two fields [send_personal_message] reads from a message, when
    both are present and have the types [WebSocketMessage] accepts. *)
Definition message_parts (message : Message) : option (string * list (string * value)) :=
  match dict_get "type" message, dict_get "data" message with
  | Some ty, Some (VDict d) => (λ t, (t, d)) <$> str_value ty
  | _, _ => None
  end.

(** The welcome message of [connect], as it goes on the wire. *)
Definition welcome_message (user : User) (t_msg ts : Z) : WebSocketMessage :=
  mkWsMessage "connection_established"
    [("user_id", VUuid (id user));
     ("username", VStr (username user));
     ("connected_at", VIso t_msg)]
    ts.

(** ** Concrete users, environments and worlds used in the examples *)

Definition alice : User := mkUser 1 "alice" REVIEWER true.
Definition bob : User := mkUser 2 "bob" ADMIN true.
Definition carol : User := mkUser 3 "carol" OPERATOR true.

(** A clock that advances by one second per read, a transport on which
    nothing raises, and an authentication service that knows the tokens
    of alice and bob. *)
Definition env_quiet : Env :=
  mkEnv (λ n, Z.of_nat n)
        (λ token, if String.eqb token "alice-token" then Some alice
                  else if String.eqb token "bob-token" then Some bob
                  else None)
        (λ _ _, false) (λ _ _, false) (λ _ _, false).

(** The same, except that [send_text] raises on connection 10. *)
Definition env_broken_10 : Env :=
  mkEnv (clock env_quiet) (verify_token env_quiet)
        (λ _ _, false) (λ _ ws, N.eqb ws 10) (λ _ _, false).

(** The world at start-up. *)
Definition world_init : World := mkWorld manager_init [] 0.

(** A connection that has no reverse-lookup entry and no metadata. *)
Definition unregistered (websocket : WebSocket) (m : ConnectionManager) : Prop :=
  connection_users m !! websocket = None ∧
  connection_metadata m !! websocket = None.

(** A connection registered to a user: its reverse-lookup entry is that
    user, and it is in the set stored under the user's id. *)
Definition registered_to (websocket : WebSocket) (user : User) (m : ConnectionManager) : Prop :=
  connection_users m !! websocket = Some user ∧
  ∃ conns, active_connections m !! id user = Some conns ∧ websocket ∈ conns.

(** The connection a transport event is about. *)
Definition event_websocket (e : Event) : WebSocket :=
  match e with
  | EvAccept ws _ => ws
  | EvSendText ws _ _ => ws
  | EvClose ws _ _ _ => ws
  end.

(** A well-formed message used in the examples. *)
Definition ping_message : Message :=
  [("type", VStr "notification"); ("data", VDict [("message", VStr "ping")])].

(** alice holds connections 10 and 11, bob holds 20. *)
Definition world_three : World :=
  exec env_quiet (Register 20 bob)
    (exec env_quiet (Register 11 alice)
       (exec env_quiet (Register 10 alice) world_init)).

(** [disconnect] applied to each connection of a list, in order. *)
Definition disconnect_list (conns : list WebSocket) (m : ConnectionManager) : ConnectionManager :=
  foldl (λ m websocket, disconnect websocket m) m conns.

(** A connection is in no user's set. *)
Definition in_no_set (websocket : WebSocket) (m : ConnectionManager) : Prop :=
  ∀ u conns, active_connections m !! u = Some conns → websocket ∉ conns.

(** The cut-off time of a sweep that starts in world [w]. *)
Definition sweep_cutoff (env : Env) (settings : Settings) (w : World) : Z :=
  clock env (ticks w) - websocket_heartbeat_interval settings * 2.

(** alice's two connections after 100 seconds, 11 having sent a
    heartbeat at time 100 and 10 none since it connected at time 1. *)
Definition world_sweep : World :=
  mkWorld (mkManager {[ 1%positive := {[ 10%N; 11%N ]} ]}
                     {[ 10%N := alice; 11%N := alice ]}
                     {[ 10%N := mkMetadata 0 1; 11%N := mkMetadata 4 100 ]})
          [] 100.

(** A connection whose last heartbeat is exactly two intervals old when
    the sweep reads the clock. *)
Definition world_boundary : World :=
  mkWorld (mkManager {[ 1%positive := {[ 10%N ]} ]}
                     {[ 10%N := alice ]}
                     {[ 10%N := mkMetadata 0 40 ]})
          [] 100.

(** ** The claims about the snapshot and the close codes, in the spec's words *)

Definition list_min (l : list Z) : option Z :=
  match l with
  | [] => None
  | x :: l' => Some (foldr Z.min x l')
  end.

Definition list_max (l : list Z) : option Z :=
  match l with
  | [] => None
  | x :: l' => Some (foldr Z.max x l')
  end.

(** The earliest connect time over the live connections of a user. *)
Definition spec_earliest_connected_at (m : ConnectionManager) (conns : gset WebSocket)
  : option Z :=
  list_min (omap (λ ws, connected_at <$> connection_metadata m !! ws) (elements conns)).

(** The latest heartbeat over the live connections of a user. *)
Definition spec_latest_heartbeat (m : ConnectionManager) (conns : gset WebSocket)
  : option Z :=
  list_max (omap (λ ws, last_heartbeat <$> connection_metadata m !! ws) (elements conns)).

(** The aggregation the summary is said to make for one entry. *)
Definition spec_aggregated (m : ConnectionManager) (e : ConnectedUser) : Prop :=
  ∀ conns, active_connections m !! e_user_id e = Some conns →
    e_connection_count e = size conns ∧
    e_connected_at e = spec_earliest_connected_at m conns ∧
    e_last_heartbeat e = spec_latest_heartbeat m conns.




(** A token the authentication service does not vouch for: it knows no
    user for it, or an inactive one. *)
Definition credential_rejected (env : Env) (tok : string) : Prop :=
  ∀ user, verify_token env tok = Some user → is_active user = false.

(** alice, a reviewer, on connection 10 and bob, an admin, on 20. *)
Definition world_two : World :=
  exec env_quiet (Register 20 bob)
    (exec env_quiet (Register 10 alice) world_init).

(** ** Routing, in the spec's words *)

(** No [send_text] raises. *)
Definition transport_healthy (env : Env) : Prop :=
  ∀ tr ws, send_raises env tr ws = false.

(** The connections of one user all carry the same role. *)
Definition role_coherent (m : ConnectionManager) : Prop :=
  ∀ u conns c1 c2 u1 u2,
    active_connections m !! u = Some conns → c1 ∈ conns → c2 ∈ conns →
    connection_users m !! c1 = Some u1 → connection_users m !! c2 = Some u2 →
    role u1 = role u2.

(** An envelope of type [ty] went out on connection [ws]. *)
Definition delivered (evs : list Event) (ty : string) (ws : WebSocket) : Prop :=
  ∃ d ts, EvSendText ws (mkWsMessage ty d ts) true ∈ evs.

(** Every event is a successful send of an envelope of type [ty]. *)
Definition only_sends (evs : list Event) (ty : string) : Prop :=
  ∀ e, e ∈ evs → ∃ ws d ts, e = EvSendText ws (mkWsMessage ty d ts) true.

(** What one send of a message with type [t] and data [d] to the role
    [role'] puts on the transport, in a registry [m]: every event is a
    send to a connection whose user has the role, and every connection
    (in the sets under [keys]) whose user has the role gets one. *)
Definition role_events (t : string) (d : list (string * value)) (role' : string)
    (m : ConnectionManager) (keys : list UUID) (evs : list Event) : Prop :=
  (∀ e, e ∈ evs → ∃ ws user ts, e = EvSendText ws (mkWsMessage t d ts) true ∧
      connection_users m !! ws = Some user ∧ role_value (role user) = role') ∧
  (∀ u conns ws user, u ∈ keys → active_connections m !! u = Some conns → ws ∈ conns →
      connection_users m !! ws = Some user → role_value (role user) = role' →
      ∃ ts, EvSendText ws (mkWsMessage t d ts) true ∈ evs).

Ltac unfold_m :=
  unfold mbind, M_bind, mret, M_ret, raise, try_except, try_finally,
    get_mgr, modify_mgr, emit, now in *.

(** alice, a reviewer, on connection 10 and carol, an operator, on 30. *)
Definition world_reviewer_operator : World :=
  exec env_quiet (Register 30 carol)
    (exec env_quiet (Register 10 alice) world_init).

(** ** What a delivery may do to the world *)

(** The world [w'] comes from [w] by a delivery of [message]: some
    connections were unregistered, some sends were put on the transport
    and nothing else; and, for a well-formed message, the connections
    unregistered are exactly those on which a send raised. *)
Definition delivery_step (message : Message) (w w' : World) : Prop :=
  ∃ failed evs,
    mgr w' = disconnect_list failed (mgr w) ∧
    trace w' = trace w ++ evs ∧
    (∀ e, e ∈ evs → ∃ c m ok, e = EvSendText c m ok) ∧
    (∀ t d, message_parts message = Some (t, d) →
       ∀ c, c ∈ failed ↔ ∃ m, EvSendText c m false ∈ evs).

(** The three scopes of a delivery: one user, one role, everybody. *)
Inductive Scope :=
  | ToUser (user_id : UUID)
  | ToRole (role' : string)
  | ToAll.

Definition deliver (env : Env) (message : Message) (scope : Scope) : M unit :=
  match scope with
  | ToUser user_id => send_user_message env message user_id
  | ToRole role' => send_role_message env message role'
  | ToAll => broadcast_message env message
  end.

(** The registry update of [handle_heartbeat], line 155. *)
Definition touch_heartbeat (websocket : WebSocket) (t : Z) (m : ConnectionManager)
  : ConnectionManager :=
  mkManager (active_connections m) (connection_users m)
    (alter (λ md, mkMetadata (connected_at md) t) websocket (connection_metadata m)).

(** The acknowledgement of a heartbeat, as it goes on the wire. *)
Definition heartbeat_ack (t_msg ts : Z) : WebSocketMessage :=
  mkWsMessage "heartbeat_ack" [("timestamp", VIso t_msg)] ts.

(** The registry during the session of [websocket] for [user] that
    started from the registry [m]: the connection is registered, with
    some metadata, or it is already unregistered again. *)
Definition in_session (m : ConnectionManager) (websocket : WebSocket) (user : User)
    (w : World) : Prop :=
  mgr w = m ∨ ∃ t1 t2, mgr w = add_connection websocket user t1 t2 m.

(** The token is empty, or the authentication service does not vouch
    for it. *)
Definition credential_rejected_or_empty (env : Env) (tok : string) : Prop :=
  tok = "" ∨ credential_rejected env tok.

(** * Permissions, auth_client.py *)

(** What the authentication service answers to
    [POST /auth/check-permission]: a status code and the body, or the
    request raises.  The body is [None] when it is not JSON
    ([response.json()] raises), [Some None] when it has no ["allowed"]
    key, and [Some (Some b)] when the value under ["allowed"] has the
    truth value [b]. *)
Inductive PermissionReply :=
  | Replied (status_code : Z) (body : option (option bool))
  | RequestFailed.

Definition PermissionService : Type := User → string → option string → PermissionReply.

(** [action in [...]] *)
Definition action_in (action : string) (actions : list string) : bool :=
  existsb (String.eqb action) actions.

(** [AuthClient.check_permission(user, action, resource)], lines 59-94.
    The whole body sits in a [try] whose [except Exception] returns
    [user.role == "admin"], so the call returns a truth value. *)
Definition check_permission (service : PermissionService) (user : User)
    (action : string) (resource : option string) : bool :=
  if String.eqb (role_value (role user)) "admin" then true
  else if String.eqb (role_value (role user)) "reviewer"
          && action_in action ["read"; "review"; "update_review"] then true
  else if String.eqb (role_value (role user)) "operator"
          && action_in action ["read"; "upload"] then true
  else
    match service user action resource with
    | Replied status_code body =>
        if status_code =? 200
        then match body with
             | Some (Some allowed) => allowed
             | Some None => false
             | None => String.eqb (role_value (role user)) "admin"
             end
        else String.eqb (role_value (role user)) "admin"
    | RequestFailed => String.eqb (role_value (role user)) "admin"
    end.

(** [require_permission(user, action, resource)], lines 127-134. *)
Definition require_permission (service : PermissionService) (user : User)
    (action : string) (resource : option string) : Outcome unit :=
  if check_permission service user action resource
  then Returned tt
  else Raised (HTTPException 403).

(** The permissions the code grants by role alone. *)
Definition granted_by_role (r : UserRole) (action : string) : bool :=
  match r with
  | ADMIN => true
  | REVIEWER => action_in action ["read"; "review"; "update_review"]
  | OPERATOR => action_in action ["read"; "upload"]
  end.

(** The authentication service answers 200 with a true ["allowed"]. *)
Definition service_allows (reply : PermissionReply) : bool :=
  match reply with
  | Replied status_code (Some (Some true)) => status_code =? 200
  | _ => false
  end.

(** * The HTTP side of main.py *)

(** What an endpoint does besides returning: it raises an
    [HTTPException] with a status code, or an exception that nothing in
    the endpoint catches. *)
Inductive PyError :=
  | IndexError
  | ZeroDivisionError
  | AttributeError
  | Uncaught (e : Exn).

Inductive Result (A : Type) :=
  | Ok (a : A)
  | Http (status_code : Z)
  | Unhandled (e : PyError).
Arguments Ok {A} a.
Arguments Http {A} status_code.
Arguments Unhandled {A} e.

Definition http_result {A} (o : Outcome A) : Result A :=
  match o with
  | Returned a => Ok a
  | Raised (HTTPException status_code) => Http status_code
  | Raised e => Unhandled (Uncaught e)
  end.

(** [s.split(" ")]: the pieces of [s] between its spaces; two spaces in
    a row enclose an empty piece. *)
Fixpoint split_space (s : string) : list string :=
  match s with
  | EmptyString => [EmptyString]
  | String c s' =>
      match split_space s' with
      | [] => []
      | piece :: pieces =>
          if Ascii.eqb c Ascii.Space then EmptyString :: piece :: pieces
          else String c piece :: pieces
      end
  end.

(** The characters of [s] before its first space. *)
Fixpoint before_space (s : string) : string :=
  match s with
  | EmptyString => EmptyString
  | String c s' =>
      if Ascii.eqb c Ascii.Space then EmptyString else String c (before_space s')
  end.

(** [get_current_authenticated_user(authorization)], main.py lines
    156-175. *)
Definition get_current_authenticated_user (env : Env) (authorization : option string)
    (w : World) : Result User :=
  match authorization with
  | None => Http 401
  | Some header =>
      if String.eqb header "" || negb (String.prefix "Bearer " header)
      then Http 401
      else
        match split_space header !! 1%nat with
        | None => Unhandled IndexError
        | Some token => http_result (get_current_user env token w).1
        end
  end.

(** The page arithmetic shared by [get_reviews], main.py lines 203-242,
    and [get_detections_for_review], lines 425-461, after the permission
    check: the size is capped, the query is made with [skip] and the
    capped size and answers the items of the page and the total, and the
    number of pages is [(total + size - 1) // size].  [query] stands for
    a call of the persistence layer that returns. *)
Record PaginatedResponse (A : Type) := mkPage {
  p_items : list A;
  p_total : Z;
  p_page : Z;
  p_size : Z;
  p_pages : Z
}.
Arguments mkPage {A}.
Arguments p_items {A}.
Arguments p_total {A}.
Arguments p_page {A}.
Arguments p_size {A}.
Arguments p_pages {A}.

Definition paginate {A} (max_page_size : Z) (query : Z → Z → list A * Z)
    (page size : Z) : Result (PaginatedResponse A) :=
  let size := if size >? max_page_size then max_page_size else size in
  let skip := (page - 1) * size in
  let '(items, total) := query skip size in
  if size =? 0 then Unhandled ZeroDivisionError
  else Ok (mkPage items total page size ((total + size - 1) / size)).

(** [get_reviews] and [get_detections_for_review]: the permission check
    for "read", then the page. *)
Definition get_reviews {A} (service : PermissionService) (max_page_size : Z)
    (query : Z → Z → list A * Z) (current_user : User) (page size : Z)
  : Result (PaginatedResponse A) :=
  match http_result (require_permission service current_user "read" None) with
  | Ok _ => paginate max_page_size query page size
  | Http status_code => Http status_code
  | Unhandled e => Unhandled e
  end.

Definition get_detections_for_review {A} (service : PermissionService)
    (max_page_size : Z) (query : Z → Z → list A * Z) (current_user : User)
    (page size : Z) : Result (PaginatedResponse A) :=
  match http_result (require_permission service current_user "read" None) with
  | Ok _ => paginate max_page_size query page size
  | Http status_code => Http status_code
  | Unhandled e => Unhandled e
  end.

(** ** The review endpoints *)

(** schemas.py: [Detection], the fields the endpoints read. *)
Record Detection := mkDetection {
  d_id : UUID;
  d_is_anomaly : bool;
  d_confidence_score : Q
}.

(** models.py: a row of the table [reviews]. *)
Record Review := mkReview {
  r_id : UUID;
  r_detection_id : UUID;
  r_reviewer_id : UUID;
  r_review_status : option string;
  r_human_verdict : option string;
  r_confidence_level : option Z;
  r_notes : option string;
  r_reviewed_at : Z;
  r_review_duration_seconds : option Z
}.

(** schemas.py: [ReviewCreate]. *)
Record ReviewCreate := mkReviewCreate {
  rc_detection_id : UUID;
  rc_review_status : string;
  rc_human_verdict : option string;
  rc_confidence_level : option Z;
  rc_notes : option string;
  rc_review_duration_seconds : option Z
}.

(** schemas.py: [ReviewUpdate]; a field is [None] when the request did
    not set it, and [Some v] when it set it to [v] (which may be
    null). *)
Record ReviewUpdate := mkReviewUpdate {
  ru_review_status : option (option string);
  ru_human_verdict : option (option string);
  ru_confidence_level : option (option Z);
  ru_notes : option (option string);
  ru_review_duration_seconds : option (option Z)
}.

(** The persistence layer the endpoints call ([review_crud] and
    [detection_crud] of crud.py over a database session), as an
    interface over a database state of type [DB]; its functions stand
    for calls that return.  The metrics the endpoints record are left
    out. *)
Class Crud (DB : Type) := {
  crud_get_detection : DB → UUID → option Detection;
  crud_get_review : DB → UUID → option Review;
  crud_create_review : DB → ReviewCreate → UUID → Review * DB;
  crud_update_review : DB → UUID → ReviewUpdate → option Review * DB;
  crud_delete_review : DB → UUID → bool * DB
}.

(** [x or "unknown"] for an optional string. *)
Definition or_unknown (x : option string) : string :=
  match x with
  | None => "unknown"
  | Some s => if String.eqb s "" then "unknown" else s
  end.

(** [status in ["approved", "rejected"]] *)
Definition is_completed (status : option string) : bool :=
  match status with
  | Some s => String.eqb s "approved" || String.eqb s "rejected"
  | None => false
  end.

(** [create_review(review, db, current_user)], main.py lines 263-300. *)
Definition create_review `{Crud DB} (env : Env) (service : PermissionService)
    (review : ReviewCreate) (current_user : User) (w : World) (db : DB)
  : Result Review * World * DB :=
  match http_result (require_permission service current_user "review" None) with
  | Http status_code => (Http status_code, w, db)
  | Unhandled e => (Unhandled e, w, db)
  | Ok _ =>
      match crud_get_detection db (rc_detection_id review) with
      | None => (Http 404, w, db)
      | Some detection =>
          let '(db_review, db') := crud_create_review db review (id current_user) in
          match notify_new_detection env (d_id detection) (d_is_anomaly detection)
                  (d_confidence_score detection) w with
          | (Returned _, w') => (Ok db_review, w', db')
          | (Raised e, w') => (http_result (Raised e), w', db')
          end
      end
  end.

(** [update_review(review_id, review_update, db, current_user)], main.py
    lines 303-354.  [crud.update_review] answers an optional row; reading
    [review_status] of [None] raises [AttributeError]. *)
Definition update_review `{Crud DB} (env : Env) (service : PermissionService)
    (review_id : UUID) (review_update : ReviewUpdate) (current_user : User)
    (w : World) (db : DB) : Result Review * World * DB :=
  match http_result (require_permission service current_user "update_review" None) with
  | Http status_code => (Http status_code, w, db)
  | Unhandled e => (Unhandled e, w, db)
  | Ok _ =>
      match crud_get_review db review_id with
      | None => (Http 404, w, db)
      | Some existing_review =>
          if negb (String.eqb (role_value (role current_user)) "admin")
             && negb (Pos.eqb (r_reviewer_id existing_review) (id current_user))
          then (Http 403, w, db)
          else
            match crud_update_review db review_id review_update with
            | (None, db') => (Unhandled AttributeError, w, db')
            | (Some updated_review, db') =>
                if is_completed (r_review_status updated_review)
                then
                  match notify_review_completed env (r_id updated_review)
                          (r_detection_id updated_review)
                          (or_unknown (r_human_verdict updated_review)) w with
                  | (Returned _, w') => (Ok updated_review, w', db')
                  | (Raised e, w') => (http_result (Raised e), w', db')
                  end
                else (Ok updated_review, w, db')
            end
      end
  end.

(** [delete_review(review_id, db, current_user)], main.py lines
    357-382. *)
Definition delete_review `{Crud DB} (service : PermissionService)
    (review_id : UUID) (current_user : User) (db : DB) : Result unit * DB :=
  match http_result (require_permission service current_user "delete" None) with
  | Http status_code => (Http status_code, db)
  | Unhandled e => (Unhandled e, db)
  | Ok _ =>
      match crud_get_review db review_id with
      | None => (Http 404, db)
      | Some _ =>
          match crud_delete_review db review_id with
          | (true, db') => (Ok tt, db')
          | (false, db') => (Http 500, db')
          end
      end
  end.

(** ** A store in memory, for the examples *)

Record Store := mkStore {
  detections : gmap UUID Detection;
  reviews : gmap UUID Review
}.

Definition apply_update (u : ReviewUpdate) (r : Review) : Review :=
  mkReview (r_id r) (r_detection_id r) (r_reviewer_id r)
    (default (r_review_status r) (ru_review_status u))
    (default (r_human_verdict r) (ru_human_verdict u))
    (default (r_confidence_level r) (ru_confidence_level u))
    (default (r_notes r) (ru_notes u))
    (r_reviewed_at r)
    (default (r_review_duration_seconds r) (ru_review_duration_seconds u)).

#[export] Instance store_crud : Crud Store := {
  crud_get_detection db detection_id := detections db !! detection_id;
  crud_get_review db review_id := reviews db !! review_id;
  crud_create_review db review reviewer_id :=
    let review_id := fresh (dom (reviews db)) in
    let db_review :=
      mkReview review_id (rc_detection_id review) reviewer_id
        (Some (rc_review_status review)) (rc_human_verdict review)
        (rc_confidence_level review) (rc_notes review) 0
        (rc_review_duration_seconds review) in
    (db_review, mkStore (detections db) (<[review_id := db_review]> (reviews db)));
  crud_update_review db review_id review_update :=
    match reviews db !! review_id with
    | None => (None, db)
    | Some db_review =>
        let db_review' := apply_update review_update db_review in
        (Some db_review',
         mkStore (detections db) (<[review_id := db_review']> (reviews db)))
    end;
  crud_delete_review db review_id :=
    match reviews db !! review_id with
    | None => (false, db)
    | Some _ => (true, mkStore (detections db) (delete review_id (reviews db)))
    end
}.

(** Detection 7, and review 5 of it, made by bob and still pending. *)
Definition review_of_bob : Review :=
  mkReview 5 7 (id bob) (Some "pending") None None None 0 None.

Definition store_example : Store :=
  mkStore {[7%positive := mkDetection 7 true (9 # 10)]}
          {[5%positive := review_of_bob]}.

Definition review_create_example : ReviewCreate :=
  mkReviewCreate 7 "pending" None None None None.

(** The update that approves a review as a true positive. *)
Definition approve : ReviewUpdate :=
  mkReviewUpdate (Some (Some "approved")) (Some (Some "true_positive")) None None None.

(** A permission service that cannot be reached. *)
Definition service_down : PermissionService := λ _ _ _, RequestFailed.

(** A transport that refuses every handshake. *)
Definition env_refusing : Env :=
  mkEnv (clock env_quiet) (verify_token env_quiet)
        (λ _ _, true) (λ _ _, false) (λ _ _, false).

(** ** The handshake of a starlette [WebSocket] *)





(** * Properties *)

(** ** The two registry updates, by lookup *)

Lemma add_connection_active websocket user t1 t2 m u :
  active_connections (add_connection websocket user t1 t2 m) !! u =
  if decide (u = id user)
  then Some ({[websocket]} ∪ default ∅ (active_connections m !! id user))
  else active_connections m !! u.
Proof.
  unfold add_connection; simpl.
  destruct (active_connections m !! id user) as [conns|] eqn:E;
    case_decide; subst; simpl.
  - by rewrite lookup_alter_eq, E.
  - by rewrite lookup_alter_ne.
  - rewrite lookup_alter_eq, lookup_insert_eq. simpl. done.
  - rewrite lookup_alter_ne, lookup_insert_ne; done.
Qed.

Lemma disconnect_active websocket m u :
  active_connections (disconnect websocket m) !! u =
  match connection_users m !! websocket with
  | Some owner =>
      if decide (u = id owner)
      then conns ← active_connections m !! u;
           if decide (conns ∖ {[websocket]} = ∅) then None
           else Some (conns ∖ {[websocket]})
      else active_connections m !! u
  | None => active_connections m !! u
  end.
Proof.
  unfold disconnect; simpl.
  destruct (connection_users m !! websocket) as [owner|]; [|done].
  case_decide; subst.
  - destruct (active_connections m !! id owner) as [conns|] eqn:E; simpl; [|done].
    case_decide.
    + by rewrite lookup_delete_eq.
    + by rewrite lookup_insert_eq.
  - destruct (active_connections m !! id owner) as [conns|] eqn:E; [|done].
    case_decide.
    + by rewrite lookup_delete_ne.
    + by rewrite lookup_insert_ne.
Qed.

Lemma disconnect_users websocket m ws :
  connection_users (disconnect websocket m) !! ws =
  if decide (ws = websocket) then None else connection_users m !! ws.
Proof.
  unfold disconnect; simpl. case_decide; subst.
  - apply lookup_delete_eq.
  - by apply lookup_delete_ne.
Qed.

Lemma disconnect_metadata websocket m ws :
  connection_metadata (disconnect websocket m) !! ws =
  if decide (ws = websocket) then None else connection_metadata m !! ws.
Proof.
  unfold disconnect; simpl. case_decide; subst.
  - apply lookup_delete_eq.
  - by apply lookup_delete_ne.
Qed.

(** ** Each part of the invariant is kept by each update *)

Lemma no_empty_entry_init : no_empty_entry manager_init.
Proof. intros u conns H. simpl in H. by rewrite lookup_empty in H. Qed.

Lemma reverse_consistent_init : reverse_consistent manager_init.
Proof. intros u conns ws H. simpl in H. by rewrite lookup_empty in H. Qed.

Lemma registry_invariant_init : registry_invariant manager_init.
Proof. split; [apply no_empty_entry_init | apply reverse_consistent_init]. Qed.

Lemma registry_wf_init : registry_wf manager_init.
Proof.
  split; [apply registry_invariant_init|]. split.
  - intros ws user H. simpl in H. by rewrite lookup_empty in H.
  - intros ws. simpl. rewrite !lookup_empty. split; intros [? ?]; done.
Qed.

Lemma no_empty_entry_add websocket user t1 t2 m :
  no_empty_entry m → no_empty_entry (add_connection websocket user t1 t2 m).
Proof.
  intros Hne u conns. rewrite add_connection_active.
  case_decide; [|apply Hne].
  intros [= <-]. set_solver.
Qed.

Lemma no_empty_entry_disconnect websocket m :
  no_empty_entry m → no_empty_entry (disconnect websocket m).
Proof.
  intros Hne u conns. rewrite disconnect_active.
  destruct (connection_users m !! websocket) as [owner|]; [|apply Hne].
  case_decide; [|apply Hne].
  destruct (active_connections m !! u) as [old|]; simpl; [|done].
  case_decide; [done|]. by intros [= <-].
Qed.

Lemma reverse_consistent_add websocket user t1 t2 m :
  register_fresh m (Register websocket user) = true →
  reverse_consistent m →
  reverse_consistent (add_connection websocket user t1 t2 m).
Proof.
  intros Hfresh Hrev u conns ws. rewrite add_connection_active.
  unfold add_connection at 1; simpl.
  destruct (decide (ws = websocket)) as [->|Hws].
  - rewrite lookup_insert_eq. intros Hu Hin. exists user. split; [done|].
    case_decide as Hd; [done|].
    destruct (Hrev _ _ _ Hu Hin) as (owner & Hown & <-).
    simpl in Hfresh. rewrite Hown in Hfresh.
    by apply bool_decide_eq_true in Hfresh.
  - rewrite lookup_insert_ne by done.
    case_decide as Hd; [|apply Hrev].
    intros [= <-] Hin. subst u.
    destruct (active_connections m !! id user) as [old|] eqn:E; simpl in Hin.
    + apply (Hrev _ old); [done|set_solver].
    + set_solver.
Qed.

Lemma reverse_consistent_disconnect websocket m :
  reverse_consistent m → reverse_consistent (disconnect websocket m).
Proof.
  intros Hrev u conns ws. rewrite disconnect_active, disconnect_users.
  destruct (connection_users m !! websocket) as [owner|] eqn:Eo.
  - case_decide as Hu.
    + destruct (active_connections m !! u) as [old|] eqn:E; simpl; [|done].
      case_decide; [done|]. intros [= <-] Hin.
      rewrite decide_False by set_solver.
      apply (Hrev _ old); [done|set_solver].
    + intros Hl Hin. destruct (Hrev _ _ _ Hl Hin) as (user & Hus & Hid).
      case_decide as Hws; [|by eauto].
      subst ws. rewrite Eo in Hus. congruence.
  - intros Hl Hin. destruct (Hrev _ _ _ Hl Hin) as (user & Hus & Hid).
    case_decide as Hws; [|by eauto].
    subst ws. congruence.
Qed.

Lemma forward_consistent_add websocket user t1 t2 m :
  forward_consistent m → forward_consistent (add_connection websocket user t1 t2 m).
Proof.
  intros Hfwd ws owner. rewrite add_connection_active.
  unfold add_connection; simpl.
  destruct (decide (ws = websocket)) as [->|Hws].
  - rewrite lookup_insert_eq. intros [= <-].
    rewrite decide_True by done.
    eexists; split; [done|set_solver].
  - rewrite lookup_insert_ne by done. intros Hown.
    destruct (Hfwd _ _ Hown) as (conns & Hl & Hin).
    case_decide as Hd.
    + rewrite <- Hd, Hl. simpl. eexists; split; [done|set_solver].
    + eauto.
Qed.

Lemma forward_consistent_disconnect websocket m :
  forward_consistent m → forward_consistent (disconnect websocket m).
Proof.
  intros Hfwd ws user. rewrite disconnect_users.
  case_decide as Hws; [done|]. intros Hown.
  destruct (Hfwd _ _ Hown) as (conns & Hl & Hin).
  rewrite disconnect_active.
  destruct (connection_users m !! websocket) as [owner|]; [|by eauto].
  case_decide as Hd; [|by eauto].
  rewrite Hl. simpl. rewrite decide_False by set_solver.
  eexists; split; [done|set_solver].
Qed.

Lemma metadata_consistent_add websocket user t1 t2 m :
  metadata_consistent m → metadata_consistent (add_connection websocket user t1 t2 m).
Proof.
  intros Hmd ws. unfold add_connection; simpl.
  destruct (decide (ws = websocket)) as [->|Hws].
  - rewrite !lookup_insert_eq. split; eauto.
  - rewrite !lookup_insert_ne by done. apply Hmd.
Qed.

Lemma metadata_consistent_disconnect websocket m :
  metadata_consistent m → metadata_consistent (disconnect websocket m).
Proof.
  intros Hmd ws. rewrite disconnect_users, disconnect_metadata.
  case_decide; [|apply Hmd]. split; intros [? ?]; done.
Qed.

(** ** What one send does *)

#[local] Arguments add_connection : simpl never.
#[local] Arguments disconnect : simpl never.

Lemma send_personal_message_well_formed env message websocket w t d :
  message_parts message = Some (t, d) →
  send_personal_message env message websocket w =
  let ws_message := mkWsMessage t d (clock env (ticks w)) in
  if send_raises env (trace w) websocket
  then (Returned tt,
        mkWorld (disconnect websocket (mgr w))
                (trace w ++ [EvSendText websocket ws_message false]) (S (ticks w)))
  else (Returned tt,
        mkWorld (mgr w) (trace w ++ [EvSendText websocket ws_message true]) (S (ticks w))).
Proof.
  unfold message_parts, send_personal_message, getitem, make_ws_message, send_text.
  destruct (dict_get "type" message) as [ty|]; [|done].
  destruct (dict_get "data" message) as [[]|]; try done.
  intros Hp. unfold_m. simpl.
  destruct (str_value ty) as [t'|]; [|done].
  injection Hp as -> ->. simpl.
  by destruct (send_raises env (trace w) websocket).
Qed.

Lemma send_personal_message_malformed env message websocket w :
  message_parts message = None →
  ∃ tk, send_personal_message env message websocket w =
        (Returned tt, mkWorld (disconnect websocket (mgr w)) (trace w) tk).
Proof.
  unfold message_parts, send_personal_message, getitem, make_ws_message, send_text.
  destruct (dict_get "type" message) as [ty|];
    [|intros _; unfold_m; simpl; eauto].
  destruct (dict_get "data" message) as [[]|];
    intros Hp; unfold_m; simpl; destruct (str_value ty) as [t'|]; try done;
    simpl; eauto.
Qed.

(** In every case the call returns; the registry is left as it was or
    with the connection unregistered; the trace only grows. *)
Lemma send_personal_message_cases env message websocket w :
  ∃ w', send_personal_message env message websocket w = (Returned tt, w') ∧
        (mgr w' = mgr w ∨ mgr w' = disconnect websocket (mgr w)) ∧
        (∃ evs, trace w' = trace w ++ evs ∧
                ∀ e, e ∈ evs → ∃ m ok, e = EvSendText websocket m ok).
Proof.
  destruct (message_parts message) as [[t d]|] eqn:E.
  - rewrite (send_personal_message_well_formed _ _ _ _ _ _ E). simpl.
    destruct (send_raises env (trace w) websocket); eexists; (split; [done|]);
      simpl; (split; [by eauto|]); eexists; (split; [done|]);
      intros e ->%list_elem_of_singleton; eauto.
  - destruct (send_personal_message_malformed env message websocket w E) as [tk ->].
    eexists; split; [done|]. simpl. split; [by right|].
    exists []. rewrite app_nil_r. split; [done|]. intros e Hin. by apply not_elem_of_nil in Hin.
Qed.

(** ** What [connect] does *)

Lemma connect_eq env websocket user w :
  connect env websocket user w =
  if accept_raises env (trace w) websocket
  then (Raised (RuntimeError "accept"),
        mkWorld (mgr w) (trace w ++ [EvAccept websocket false]) (ticks w))
  else
    let tk := ticks w in
    let m1 := add_connection websocket user (clock env tk) (clock env (S tk)) (mgr w) in
    let tr1 := trace w ++ [EvAccept websocket true] in
    let msg := welcome_message user (clock env (S (S tk))) (clock env (S (S (S tk)))) in
    if send_raises env tr1 websocket
    then (Returned tt,
          mkWorld (disconnect websocket m1) (tr1 ++ [EvSendText websocket msg false])
                  (S (S (S (S tk)))))
    else (Returned tt,
          mkWorld m1 (tr1 ++ [EvSendText websocket msg true]) (S (S (S (S tk))))).
Proof.
  unfold connect, accept.
  unfold mbind at 1, M_bind at 1.
  destruct (accept_raises env (trace w) websocket); [done|].
  unfold_m. simpl.
  erewrite send_personal_message_well_formed by reflexivity. simpl.
  by destruct (send_raises env (trace w ++ [EvAccept websocket true]) websocket).
Qed.

Lemma connect_mgr env websocket user w :
  mgr (connect env websocket user w).2 = mgr w ∨
  ∃ t1 t2,
    mgr (connect env websocket user w).2 = add_connection websocket user t1 t2 (mgr w) ∨
    mgr (connect env websocket user w).2 =
      disconnect websocket (add_connection websocket user t1 t2 (mgr w)).
Proof.
  rewrite connect_eq.
  destruct (accept_raises env (trace w) websocket); [by left|].
  right. do 2 eexists. simpl.
  destruct (send_raises env _ websocket); simpl; eauto.
Qed.

(** ** C1: the invariant along a sequence of calls *)

Lemma no_empty_entry_exec env op w :
  no_empty_entry (mgr w) → no_empty_entry (mgr (exec env op w)).
Proof.
  intros H. destruct op as [websocket user|websocket]; simpl.
  - destruct (connect_mgr env websocket user w) as [->|(t1 & t2 & [-> | ->])];
      auto using no_empty_entry_add, no_empty_entry_disconnect.
  - by apply no_empty_entry_disconnect.
Qed.

Lemma reverse_consistent_exec env op w :
  register_fresh (mgr w) op = true →
  reverse_consistent (mgr w) → reverse_consistent (mgr (exec env op w)).
Proof.
  intros Hf H. destruct op as [websocket user|websocket]; simpl.
  - destruct (connect_mgr env websocket user w) as [->|(t1 & t2 & [-> | ->])];
      auto using reverse_consistent_add, reverse_consistent_disconnect.
  - by apply reverse_consistent_disconnect.
Qed.

Lemma forward_consistent_exec env op w :
  forward_consistent (mgr w) → forward_consistent (mgr (exec env op w)).
Proof.
  intros H. destruct op as [websocket user|websocket]; simpl.
  - destruct (connect_mgr env websocket user w) as [->|(t1 & t2 & [-> | ->])];
      auto using forward_consistent_add, forward_consistent_disconnect.
  - by apply forward_consistent_disconnect.
Qed.

Lemma metadata_consistent_exec env op w :
  metadata_consistent (mgr w) → metadata_consistent (mgr (exec env op w)).
Proof.
  intros H. destruct op as [websocket user|websocket]; simpl.
  - destruct (connect_mgr env websocket user w) as [->|(t1 & t2 & [-> | ->])];
      auto using metadata_consistent_add, metadata_consistent_disconnect.
  - by apply metadata_consistent_disconnect.
Qed.

(** No sequence of calls whatever leaves an empty connection set
    behind. *)
Lemma no_empty_entry_run env ops w :
  no_empty_entry (mgr w) →
  Forall (λ w', no_empty_entry (mgr w')) (run env ops w).
Proof.
  revert w. induction ops as [|op ops IH]; intros w H; simpl; constructor.
  - by apply no_empty_entry_exec.
  - by apply IH, no_empty_entry_exec.
Qed.

(** On any transport, the invariant holds along a sequence in which no
    [connect] names a connection that is at that moment registered to a
    different user. *)
Lemma registry_invariant_run_fresh env ops w :
  registry_invariant (mgr w) →
  run_fresh env ops w = true →
  Forall (λ w', registry_invariant (mgr w')) (run env ops w).
Proof.
  revert w. induction ops as [|op ops IH]; intros w [Hne Hrev] Hfresh; simpl.
  { constructor. }
  simpl in Hfresh. apply andb_true_iff in Hfresh as [Hop Hrest].
  assert (registry_invariant (mgr (exec env op w))) as Hinv.
  { split; [by apply no_empty_entry_exec | by apply reverse_consistent_exec]. }
  constructor; [done|]. by apply IH.
Qed.








(** The hypothesis on the transport is needed: [connect] itself has no
    guard.  On a transport that would accept one connection twice, the
    same connection registered for alice and then for bob stays in
    alice's set while its reverse entry names bob. *)
Example invariant_needs_accept_once :
  ¬ Forall (λ w', registry_invariant (mgr w'))
           (run env_quiet [Register 10 alice; Register 10 bob] world_init).
Proof.
  intros H. apply Forall_cons in H as [_ H]. apply Forall_cons in H as [[_ Hrev] _].
  destruct (Hrev 1%positive {[10%N]} 10%N) as (user & Hu & Hid).
  - vm_compute. reflexivity.
  - set_solver.
  - vm_compute in Hu. injection Hu as <-. vm_compute in Hid. discriminate.
Qed.

(** ** C8: [disconnect] twice is [disconnect] once *)

Lemma manager_eq m1 m2 :
  active_connections m1 = active_connections m2 →
  connection_users m1 = connection_users m2 →
  connection_metadata m1 = connection_metadata m2 →
  m1 = m2.
Proof. destruct m1, m2; simpl; congruence. Qed.

Lemma disconnect_unregistered websocket m :
  unregistered websocket m → disconnect websocket m = m.
Proof.
  intros [Hu Hm]. apply manager_eq; unfold disconnect; simpl.
  - by rewrite Hu.
  - by apply delete_id.
  - by apply delete_id.
Qed.

Lemma disconnect_disconnect websocket m :
  disconnect websocket (disconnect websocket m) = disconnect websocket m.
Proof.
  apply disconnect_unregistered. split.
  - rewrite disconnect_users. by rewrite decide_True.
  - rewrite disconnect_metadata. by rewrite decide_True.
Qed.

(** C8: for every world and every connection, [disconnect] returns
    without raising; a second call in succession leaves the world the
    first call produced; and on a connection that is not registered the
    call changes nothing. *)
Theorem disconnect_idempotent env websocket w :
  (modify_mgr (disconnect websocket) w).1 = Returned tt ∧
  exec env (Unregister websocket) (exec env (Unregister websocket) w)
    = exec env (Unregister websocket) w ∧
  (unregistered websocket (mgr w) → exec env (Unregister websocket) w = w).
Proof.
  split; [done|]. split.
  - simpl. by rewrite disconnect_disconnect.
  - intros H. simpl. rewrite disconnect_unregistered by done. by destruct w.
Qed.

Lemma disconnect_idempotent_witness :
  exec env_quiet (Unregister 99) world_init = world_init.
Proof.
  apply (proj2 (proj2 (disconnect_idempotent env_quiet 99 world_init))).
  split; reflexivity.
Defined.

(** ** C5: [connect] called again for a registered connection *)

(** [connect] has no guard of its own: were the handshake to succeed
    again on a connection registered to the user, the sets and the
    reverse lookup would stay and [connected_at] and [last_heartbeat]
    would be replaced by the clock reads of the second call. *)
Lemma connect_again_unguarded env websocket user w :
  registered_to websocket user (mgr w) →
  accept_raises env (trace w) websocket = false →
  send_raises env (trace w ++ [EvAccept websocket true]) websocket = false →
  (connect env websocket user w).1 = Returned tt ∧
  active_connections (mgr (connect env websocket user w).2)
    = active_connections (mgr w) ∧
  connection_users (mgr (connect env websocket user w).2)
    = connection_users (mgr w) ∧
  connection_metadata (mgr (connect env websocket user w).2)
    = <[websocket := mkMetadata (clock env (ticks w)) (clock env (S (ticks w)))]>
        (connection_metadata (mgr w)).
Proof.
  intros [Hu (conns & Hc & Hin)] Ha Hs.
  rewrite connect_eq, Ha. cbn [mgr snd fst]. rewrite Hs. cbn [mgr snd fst].
  split; [done|]. split; [|split].
  - apply map_eq. intros u. rewrite add_connection_active.
    case_decide as Hd; [|done]. subst u. rewrite Hc. simpl.
    f_equal. set_solver.
  - by apply insert_id.
  - done.
Qed.




(** ** What [send_user_message] does *)

(** The loop never takes its [except] branch: it hands back the set
    [disconnected_connections] it was given.  Every event it leaves is a
    send on one of the connections of the loop, and for a well-formed
    message every connection of the loop gets its send, which succeeds
    unless the transport of that very connection raised. *)
Lemma send_user_loop_spec env message conns disc w :
  ∃ w', send_user_loop env message conns disc w = (Returned disc, w') ∧
    ∃ evs, trace w' = trace w ++ evs ∧
      (∀ e, e ∈ evs → ∃ c m ok, e = EvSendText c m ok ∧ c ∈ conns) ∧
      (∀ t d, message_parts message = Some (t, d) → ∀ c, c ∈ conns →
         ∃ ts ok, EvSendText c (mkWsMessage t d ts) ok ∈ evs ∧
                  (ok = false → ∃ tr, send_raises env tr c = true)).
Proof.
  revert w. induction conns as [|c conns IH]; intros w; simpl.
  - eexists; split; [done|]. exists []. rewrite app_nil_r.
    split; [done|]. split.
    + intros e He. by apply not_elem_of_nil in He.
    + intros t d _ c Hc. by apply not_elem_of_nil in Hc.
  - unfold mbind at 1, M_bind at 1, try_except at 1, mbind at 1, M_bind at 1.
    assert (∃ w1 evs1, send_personal_message env message c w = (Returned tt, w1) ∧
              trace w1 = trace w ++ evs1 ∧
              (∀ e, e ∈ evs1 → ∃ m ok, e = EvSendText c m ok) ∧
              (∀ t d, message_parts message = Some (t, d) →
                 ∃ ts ok, EvSendText c (mkWsMessage t d ts) ok ∈ evs1 ∧
                          (ok = false → ∃ tr, send_raises env tr c = true)))
      as (w1 & evs1 & -> & Htr1 & Hev1 & Hsent1).
    { destruct (send_personal_message_cases env message c w)
        as (w1 & Heq & _ & evs1 & Htr1 & Hev1).
      exists w1, evs1. repeat split; try done.
      intros t d Hwf.
      rewrite (send_personal_message_well_formed _ _ _ _ _ _ Hwf) in Heq.
      simpl in Heq.
      destruct (send_raises env (trace w) c) eqn:Hr; injection Heq as <-;
        simpl in Htr1; apply app_inv_head in Htr1 as <-;
        do 2 eexists; (split; [by apply list_elem_of_singleton|]); eauto. }
    simpl.
    destruct (IH w1) as (w' & -> & evs & Htr & Hev & Hsent).
    eexists; split; [done|].
    exists (evs1 ++ evs). rewrite Htr, Htr1, app_assoc. split; [done|]. split.
    + intros e [He|He]%elem_of_app.
      * destruct (Hev1 e He) as (m & ok & ->). exists c, m, ok. split; [done|left].
      * destruct (Hev e He) as (c' & m & ok & -> & Hc'). exists c', m, ok.
        split; [done|by right].
    + intros t d Hwf c' [->|Hc']%elem_of_cons.
      * destruct (Hsent1 t d Hwf) as (ts & ok & Hin & Hok).
        exists ts, ok. split; [|done]. apply elem_of_app. by left.
      * destruct (Hsent t d Hwf c' Hc') as (ts & ok & Hin & Hok).
        exists ts, ok. split; [|done]. apply elem_of_app. by right.
Qed.

Lemma send_user_message_spec env message user_id w :
  ∃ w', send_user_message env message user_id w = (Returned tt, w') ∧
    ∃ evs, trace w' = trace w ++ evs ∧
      (∀ e, e ∈ evs → ∃ c m ok conns, e = EvSendText c m ok ∧
          active_connections (mgr w) !! user_id = Some conns ∧ c ∈ conns) ∧
      (∀ t d, message_parts message = Some (t, d) →
         ∀ conns c, active_connections (mgr w) !! user_id = Some conns → c ∈ conns →
         ∃ ts ok, EvSendText c (mkWsMessage t d ts) ok ∈ evs ∧
                  (ok = false → ∃ tr, send_raises env tr c = true)).
Proof.
  unfold send_user_message. unfold mbind at 1, M_bind at 1, get_mgr. simpl.
  destruct (active_connections (mgr w) !! user_id) as [conns|] eqn:E.
  - unfold mbind at 1, M_bind at 1.
    destruct (send_user_loop_spec env message (elements conns) ∅ w)
      as (w' & -> & evs & Htr & Hev & Hsent).
    rewrite elements_empty. simpl.
    eexists; split; [done|]. exists evs. split; [done|]. split.
    + intros e He. destruct (Hev e He) as (c & m & ok & -> & Hc).
      exists c, m, ok, conns. repeat split; try done. by apply elem_of_elements.
    + intros t d Hwf conns' c [= <-] Hc.
      apply (Hsent t d Hwf). by apply elem_of_elements.
  - eexists; split; [done|]. exists []. rewrite app_nil_r. split; [done|]. split.
    + intros e He. by apply not_elem_of_nil in He.
    + intros t d _ conns c Hc. done.
Qed.

(** ** C10: the two send operations never raise *)

(** C10: for every connection, message, environment and world,
    [send_personal_message] returns; the loop of [send_user_message]
    therefore never adds to [disconnected_connections], which is empty
    when the loop ends; and [send_user_message] returns for every user
    id. *)
Theorem send_never_raises env message websocket user_id w :
  (send_personal_message env message websocket w).1 = Returned tt ∧
  (∀ conns, (send_user_loop env message conns ∅ w).1 = Returned ∅) ∧
  (send_user_message env message user_id w).1 = Returned tt.
Proof.
  split; [|split].
  - by destruct (send_personal_message_cases env message websocket w) as (w' & -> & _).
  - intros conns.
    by destruct (send_user_loop_spec env message conns ∅ w) as (w' & -> & _).
  - by destruct (send_user_message_spec env message user_id w) as (w' & -> & _).
Qed.

(** ** C2: a failed send unregisters the connection *)





(** ** Connections under [disconnect] *)

Lemma disconnect_keeps_member websocket m u conns c :
  c ≠ websocket →
  active_connections m !! u = Some conns → c ∈ conns →
  ∃ conns', active_connections (disconnect websocket m) !! u = Some conns' ∧ c ∈ conns'.
Proof.
  intros Hne Hl Hin. rewrite disconnect_active.
  destruct (connection_users m !! websocket) as [owner|]; [|by eauto].
  case_decide; [|by eauto]. rewrite Hl. simpl.
  rewrite decide_False by set_solver. eexists; split; [done|set_solver].
Qed.

Lemma disconnect_no_new_member websocket m u conns' c :
  active_connections (disconnect websocket m) !! u = Some conns' → c ∈ conns' →
  ∃ conns, active_connections m !! u = Some conns ∧ c ∈ conns.
Proof.
  rewrite disconnect_active.
  destruct (connection_users m !! websocket) as [owner|]; [|by eauto].
  case_decide; [|by eauto].
  destruct (active_connections m !! u) as [conns|]; simpl; [|done].
  case_decide; [done|]. intros [= <-] Hin. exists conns. split; [done|set_solver].
Qed.

Lemma disconnect_in_no_set websocket m :
  reverse_consistent m → in_no_set websocket (disconnect websocket m).
Proof.
  intros Hrev u conns'. rewrite disconnect_active.
  destruct (connection_users m !! websocket) as [owner|] eqn:Eo.
  - case_decide as Hu.
    + destruct (active_connections m !! u) as [conns|]; simpl; [|done].
      case_decide; [done|]. intros [= <-]. set_solver.
    + intros Hl Hin. destruct (Hrev _ _ _ Hl Hin) as (user & Hus & Hid). congruence.
  - intros Hl Hin. destruct (Hrev _ _ _ Hl Hin) as (user & Hus & Hid). congruence.
Qed.

Lemma disconnect_list_reverse_consistent conns m :
  reverse_consistent m → reverse_consistent (disconnect_list conns m).
Proof.
  revert m. induction conns as [|c conns IH]; intros m H; simpl; [done|].
  by apply IH, reverse_consistent_disconnect.
Qed.

Lemma disconnect_list_untouched conns m ws :
  ws ∉ conns →
  connection_users (disconnect_list conns m) !! ws = connection_users m !! ws ∧
  connection_metadata (disconnect_list conns m) !! ws = connection_metadata m !! ws ∧
  ∀ u cs, active_connections m !! u = Some cs → ws ∈ cs →
    ∃ cs', active_connections (disconnect_list conns m) !! u = Some cs' ∧ ws ∈ cs'.
Proof.
  revert m. induction conns as [|c conns IH]; intros m Hnin; simpl.
  { eauto. }
  apply not_elem_of_cons in Hnin as [Hne Hnin].
  destruct (IH (disconnect c m) Hnin) as (Hu & Hm & Ha).
  rewrite Hu, Hm, disconnect_users, disconnect_metadata, !decide_False by done.
  split; [done|]. split; [done|].
  intros u cs Hl Hin.
  destruct (disconnect_keeps_member c m u cs ws Hne Hl Hin) as (cs1 & Hl1 & Hin1).
  by apply (Ha u cs1).
Qed.

Lemma disconnect_list_no_new_member conns m u cs' c :
  active_connections (disconnect_list conns m) !! u = Some cs' → c ∈ cs' →
  ∃ cs, active_connections m !! u = Some cs ∧ c ∈ cs.
Proof.
  revert m. induction conns as [|c0 conns IH]; intros m; simpl; [by eauto|].
  intros Hl Hin. destruct (IH _ Hl Hin) as (cs1 & Hl1 & Hin1).
  by apply (disconnect_no_new_member c0 m u cs1).
Qed.

Lemma disconnect_list_unregistered_keep conns m ws :
  unregistered ws m → unregistered ws (disconnect_list conns m).
Proof.
  revert m. induction conns as [|c conns IH]; intros m [Hu Hm]; simpl; [done|].
  apply IH. split.
  - rewrite disconnect_users. case_decide; done.
  - rewrite disconnect_metadata. case_decide; done.
Qed.

Lemma disconnect_list_in_no_set_keep conns m ws :
  in_no_set ws m → in_no_set ws (disconnect_list conns m).
Proof.
  intros H u cs' Hl Hin.
  destruct (disconnect_list_no_new_member _ _ _ _ _ Hl Hin) as (cs & Hl0 & Hin0).
  by apply (H u cs).
Qed.

Lemma disconnect_list_evicted conns m ws :
  ws ∈ conns →
  unregistered ws (disconnect_list conns m) ∧
  (reverse_consistent m → in_no_set ws (disconnect_list conns m)).
Proof.
  revert m. induction conns as [|c conns IH]; intros m Hin; simpl.
  { by apply not_elem_of_nil in Hin. }
  destruct (decide (ws = c)) as [->|Hne].
  - split.
    + apply disconnect_list_unregistered_keep. split.
      * rewrite disconnect_users. by rewrite decide_True.
      * rewrite disconnect_metadata. by rewrite decide_True.
    + intros Hrev. by apply disconnect_list_in_no_set_keep, disconnect_in_no_set.
  - apply elem_of_cons in Hin as [?|Hin]; [done|].
    destruct (IH (disconnect c m) Hin) as [Hun Hno]. split; [done|].
    intros Hrev. by apply Hno, reverse_consistent_disconnect.
Qed.

(** ** C4: the liveness sweep *)

Lemma collect_stale_spec env cutoff items acc w :
  ∃ stale tk,
    collect_stale env cutoff items acc w
      = (Returned (acc ++ stale), mkWorld (mgr w) (trace w) tk) ∧
    ∀ ws, ws ∈ stale ↔ ∃ md, (ws, md) ∈ items ∧ last_heartbeat md < cutoff.
Proof.
  revert acc w. induction items as [|[ws0 md0] items IH]; intros acc w; simpl.
  - exists [], (ticks w). rewrite app_nil_r. split; [by destruct w|].
    intros ws. split; [by intros ?%not_elem_of_nil|].
    by intros (md & ?%not_elem_of_nil & _).
  - unfold mbind at 1, M_bind at 1, now. simpl.
    destruct (Z.ltb_spec (last_heartbeat md0) cutoff) as [Hlt|Hge].
    + destruct (IH (acc ++ [ws0])
                   (mkWorld (mgr w) (trace w) (S (ticks w)))) as (stale & tk & -> & Hst).
      exists (ws0 :: stale), tk. rewrite <- app_assoc. split; [done|].
      intros ws. rewrite elem_of_cons, Hst. split.
      * intros [->|(md & Hin & Hlh)]; [exists md0|exists md]; split; try done;
          [left|by right].
      * intros (md & [[= -> ->]|Hin]%elem_of_cons & Hlh); [by left|right; eauto].
    + destruct (IH acc (mkWorld (mgr w) (trace w) (S (ticks w))))
        as (stale & tk & -> & Hst).
      exists stale, tk. split; [done|].
      intros ws. rewrite Hst. split.
      * intros (md & Hin & Hlh). exists md. split; [by right|done].
      * intros (md & [[= -> ->]|Hin]%elem_of_cons & Hlh); [lia|eauto].
Qed.

Lemma close_eq env ws code reason w :
  close env ws code reason w =
  let ok := negb (close_raises env (trace w) ws) in
  (if ok then Returned tt else Raised TransportError,
   mkWorld (mgr w) (trace w ++ [EvClose ws code reason ok]) (ticks w)).
Proof. unfold close. by destruct (close_raises env (trace w) ws). Qed.

Lemma evict_stale_spec env stale w :
  ∃ w', evict_stale env stale w = (Returned tt, w') ∧
    mgr w' = disconnect_list stale (mgr w) ∧
    ∃ evs, trace w' = trace w ++ evs ∧
      (∀ e, e ∈ evs → ∃ ws ok, e = EvClose ws 1000 "Heartbeat timeout" ok ∧ ws ∈ stale) ∧
      (∀ ws, ws ∈ stale → ∃ ok, EvClose ws 1000 "Heartbeat timeout" ok ∈ evs).
Proof.
  revert w. induction stale as [|ws0 stale IH]; intros w; simpl.
  - eexists; split; [done|]. split; [done|]. exists []. rewrite app_nil_r.
    split; [done|]. split; [by intros e ?%not_elem_of_nil|by intros ws ?%not_elem_of_nil].
  - unfold mbind at 1, M_bind at 1, modify_mgr at 1.
    unfold mbind at 1, M_bind at 1, try_except. rewrite close_eq.
    cbn [mgr trace ticks]. cbn zeta.
    set (ok := negb (close_raises env (trace w) ws0)).
    set (w1 := mkWorld (disconnect ws0 (mgr w))
                 (trace w ++ [EvClose ws0 1000 "Heartbeat timeout" ok]) (ticks w)).
    destruct (IH w1) as (w' & Heq & Hm & evs & Htr & Hev & Hcl).
    exists w'. split; [by destruct ok|]. split; [done|].
    exists (EvClose ws0 1000 "Heartbeat timeout" ok :: evs).
    split; [by rewrite Htr; simpl; rewrite <- app_assoc|]. split.
    + intros e [->|He]%elem_of_cons.
      * exists ws0, ok. split; [done|left].
      * destruct (Hev e He) as (ws & ok' & -> & Hin). exists ws, ok'.
        split; [done|by right].
    + intros ws [->|Hin]%elem_of_cons.
      * exists ok. left.
      * destruct (Hcl ws Hin) as [ok' Hin']. exists ok'. by right.
Qed.

Lemma cleanup_stale_connections_eq env settings w :
  ∃ stale w',
    cleanup_stale_connections env settings w = (Returned tt, w') ∧
    mgr w' = disconnect_list stale (mgr w) ∧
    (∀ ws, ws ∈ stale ↔
       ∃ md, connection_metadata (mgr w) !! ws = Some md ∧
             last_heartbeat md < sweep_cutoff env settings w) ∧
    ∃ evs, trace w' = trace w ++ evs ∧
      (∀ e, e ∈ evs → ∃ ws ok, e = EvClose ws 1000 "Heartbeat timeout" ok ∧ ws ∈ stale) ∧
      (∀ ws, ws ∈ stale → ∃ ok, EvClose ws 1000 "Heartbeat timeout" ok ∈ evs).
Proof.
  unfold cleanup_stale_connections, sweep_cutoff.
  unfold mbind at 1, M_bind at 1, now. cbn [mgr trace ticks].
  unfold mbind at 1, M_bind at 1, get_mgr. cbn [mgr trace ticks].
  unfold mbind at 1, M_bind at 1.
  set (cutoff := clock env (ticks w) - websocket_heartbeat_interval settings * 2).
  destruct (collect_stale_spec env cutoff (map_to_list (connection_metadata (mgr w))) []
              (mkWorld (mgr w) (trace w) (S (ticks w)))) as (stale & tk & -> & Hst).
  cbn [mgr trace ticks app].
  destruct (evict_stale_spec env stale (mkWorld (mgr w) (trace w) tk))
    as (w' & -> & Hm & evs & Htr & Hev & Hcl).
  cbn [fst snd mgr trace ticks] in *.
  exists stale, w'. split; [done|]. split; [done|]. split; [|by eauto].
  intros ws. rewrite Hst. by setoid_rewrite elem_of_map_to_list.
Qed.

(** C4 (amended): in a world that satisfies the Registry invariant, a
    sweep returns; every connection whose [last_heartbeat] is strictly
    more than twice the heartbeat interval before the sweep's clock read
    is unregistered, is left in no user's set, and gets a close with
    code 1000; every connection whose [last_heartbeat] is at most twice
    the interval old keeps its metadata, its reverse-lookup entry and
    its place in its sets, and nothing is done on its transport. *)
Theorem cleanup_stale_connections_spec env settings w :
  registry_invariant (mgr w) →
  let cutoff := sweep_cutoff env settings w in
  let r := cleanup_stale_connections env settings w in
  r.1 = Returned tt ∧
  ∃ evs, trace r.2 = trace w ++ evs ∧
    (∀ ws md, connection_metadata (mgr w) !! ws = Some md →
       last_heartbeat md < cutoff →
       unregistered ws (mgr r.2) ∧ in_no_set ws (mgr r.2) ∧
       ∃ ok, EvClose ws 1000 "Heartbeat timeout" ok ∈ evs) ∧
    (∀ ws md, connection_metadata (mgr w) !! ws = Some md →
       cutoff ≤ last_heartbeat md →
       connection_metadata (mgr r.2) !! ws = Some md ∧
       connection_users (mgr r.2) !! ws = connection_users (mgr w) !! ws ∧
       (∀ u cs, active_connections (mgr w) !! u = Some cs → ws ∈ cs →
          ∃ cs', active_connections (mgr r.2) !! u = Some cs' ∧ ws ∈ cs') ∧
       (∀ e, e ∈ evs → event_websocket e ≠ ws)).
Proof.
  intros [_ Hrev] cutoff r. subst r cutoff.
  destruct (cleanup_stale_connections_eq env settings w)
    as (stale & w' & -> & Hm & Hst & evs & Htr & Hev & Hcl).
  cbn [fst snd]. split; [done|]. exists evs. split; [done|].
  rewrite Hm. split.
  - intros ws md Hmd Hlt.
    assert (ws ∈ stale) as Hin by (apply Hst; eauto).
    destruct (disconnect_list_evicted stale (mgr w) ws Hin) as [Hun Hno].
    split; [done|]. split; [by apply Hno|]. by apply Hcl.
  - intros ws md Hmd Hge.
    assert (ws ∉ stale) as Hnin.
    { intros (md' & Hmd' & Hlt)%Hst. rewrite Hmd in Hmd'. injection Hmd' as <-. lia. }
    destruct (disconnect_list_untouched stale (mgr w) ws Hnin) as (Hu & Hmeta & Hact).
    rewrite Hu, Hmeta. split; [done|]. split; [done|]. split; [done|].
    intros e He. destruct (Hev e He) as (ws' & ok & -> & Hin'). simpl.
    intros ->. done.
Qed.

Lemma registry_invariant_world_sweep : registry_invariant (mgr world_sweep).
Proof.
  split.
  - intros u conns H. simpl in H.
    apply lookup_singleton_Some in H as [<- <-]. set_solver.
  - intros u conns ws H Hin. simpl in *.
    apply lookup_singleton_Some in H as [<- <-].
    exists alice. split; [|done].
    apply elem_of_union in Hin as [->%elem_of_singleton| ->%elem_of_singleton];
      reflexivity.
Qed.

Lemma cleanup_stale_connections_witness :
  (cleanup_stale_connections env_quiet default_settings world_sweep).1 = Returned tt.
Proof.
  refine (proj1 (cleanup_stale_connections_spec env_quiet default_settings world_sweep _)).
  apply registry_invariant_world_sweep.
Defined.

(** The sweep on alice's two connections: 10, silent for 99 seconds, is
    evicted and closed with code 1000; 11 stays, and alice's entry still
    shows one connection. *)
Example cleanup_evicts_silent_connection :
  let r := cleanup_stale_connections env_quiet default_settings world_sweep in
  r.1 = Returned tt ∧
  active_connections (mgr r.2) = {[ 1%positive := {[ 11%N ]} ]} ∧
  connection_users (mgr r.2) = {[ 11%N := alice ]} ∧
  connection_metadata (mgr r.2) = {[ 11%N := mkMetadata 4 100 ]} ∧
  trace r.2 = [EvClose 10 1000 "Heartbeat timeout" true].
Proof. vm_compute. repeat split; reflexivity. Qed.

(** C4 as stated fails at the boundary: a connection whose last
    heartbeat is exactly twice the interval old (at least twice, then)
    is not evicted, and nothing is closed. *)
Lemma cleanup_boundary_counterexample :
  let r := cleanup_stale_connections env_quiet default_settings world_boundary in
  connection_metadata (mgr world_boundary) !! 10%N = Some (mkMetadata 0 40) ∧
  clock env_quiet (ticks world_boundary) - 40
    = 2 * websocket_heartbeat_interval default_settings ∧
  r.1 = Returned tt ∧
  mgr r.2 = mgr world_boundary ∧
  trace r.2 = [].
Proof. vm_compute. repeat split; reflexivity. Qed.

(** ** C7: close codes *)

Lemma close_codes_app tr1 tr2 :
  close_codes (tr1 ++ tr2) = close_codes tr1 ++ close_codes tr2.
Proof. apply omap_app. Qed.

Lemma get_current_user_rejected env tok w :
  credential_rejected env tok →
  ∃ e, get_current_user env tok w = (Raised e, w).
Proof.
  intros Hrej. unfold get_current_user.
  destruct (String.eqb tok ""); [by eexists|].
  destruct (verify_token env tok) as [user|] eqn:E; [|by eexists].
  rewrite (Hrej user E). by eexists.
Qed.

Lemma endpoint_missing_token env websocket token frames w :
  token_missing token = true →
  websocket_endpoint env websocket token frames w =
  let ok := negb (close_raises env (trace w) websocket) in
  (if ok then Returned tt else Raised TransportError,
   mkWorld (mgr w)
           (trace w ++ [EvClose websocket 4001 "Missing authentication token" ok])
           (ticks w)).
Proof.
  intros Hm. unfold websocket_endpoint. by rewrite Hm, close_eq.
Qed.

Lemma endpoint_rejected_token env websocket tok frames w :
  tok ≠ "" →
  credential_rejected env tok →
  websocket_endpoint env websocket (Some tok) frames w =
  let ok := negb (close_raises env (trace w) websocket) in
  (if ok then Returned tt else Raised TransportError,
   mkWorld (mgr w)
           (trace w ++ [EvClose websocket 4001 "Authentication failed" ok])
           (ticks w)).
Proof.
  intros Hne Hrej. unfold websocket_endpoint, token_missing.
  apply String.eqb_neq in Hne. rewrite Hne. simpl.
  unfold mbind at 1, M_bind at 1, try_except.
  unfold mbind at 1, M_bind at 1.
  destruct (get_current_user_rejected env tok w Hrej) as [e ->].
  unfold mbind at 1, M_bind at 1. rewrite close_eq. cbn zeta.
  by destruct (negb (close_raises env (trace w) websocket)).
Qed.




(** ** C6: the summary of connected users *)

Lemma first_connection_nonempty conns :
  conns ≠ ∅ → ∃ ws, first_connection conns = Some ws ∧ ws ∈ conns.
Proof.
  intros Hne. unfold first_connection.
  destruct (elements conns) as [|ws l] eqn:E.
  - apply elements_empty_iff in E. set_solver.
  - exists ws. split; [done|]. apply elem_of_elements. rewrite E. left.
Qed.

Lemma connected_user_entry_wf m u conns :
  registry_wf m →
  active_connections m !! u = Some conns →
  ∃ ws user md,
    first_connection conns = Some ws ∧ ws ∈ conns ∧
    connection_users m !! ws = Some user ∧ id user = u ∧
    connection_metadata m !! ws = Some md ∧
    connected_user_entry m conns =
      Some (mkConnectedUser u (username user) (role user) (size conns)
              (Some (connected_at md)) (Some (last_heartbeat md))).
Proof.
  intros ([Hne Hrev] & _ & Hmd) Hl.
  destruct (first_connection_nonempty conns (Hne _ _ Hl)) as (ws & Hfirst & Hin).
  destruct (Hrev _ _ _ Hl Hin) as (user & Hu & Hid).
  destruct (proj2 (Hmd ws)) as [md Hm]; [by eauto|].
  exists ws, user, md. repeat (split; [done|]).
  unfold connected_user_entry. rewrite Hfirst, Hu, Hm. simpl. by rewrite Hid.
Qed.

Lemma get_connected_users_ids m :
  registry_wf m →
  e_user_id <$> get_connected_users m = (map_to_list (active_connections m)).*1.
Proof.
  intros Hwf. unfold get_connected_users.
  assert (∀ item, item ∈ map_to_list (active_connections m) →
            active_connections m !! item.1 = Some item.2) as Hitems.
  { intros [u conns] Hin. by apply elem_of_map_to_list. }
  induction (map_to_list (active_connections m)) as [|[u conns] l IH]; [done|].
  simpl.
  destruct (connected_user_entry_wf m u conns Hwf) as (ws & user & md & _ & _ & _ & _ & _ & ->).
  { apply (Hitems (u, conns)). left. }
  simpl. f_equal. apply IH. intros item Hin. apply Hitems. by right.
Qed.

Lemma single_connection_aggregate m conns ws md :
  size conns = 1%nat → ws ∈ conns →
  connection_metadata m !! ws = Some md →
  spec_earliest_connected_at m conns = Some (connected_at md) ∧
  spec_latest_heartbeat m conns = Some (last_heartbeat md).
Proof.
  intros Hsize Hin Hm.
  apply size_1_elem_of in Hsize as [x Hx]. apply leibniz_equiv in Hx. subst conns.
  apply elem_of_singleton in Hin as <-.
  unfold spec_earliest_connected_at, spec_latest_heartbeat.
  rewrite elements_singleton. simpl. by rewrite Hm.
Qed.

(** C6 (amended): in a well-formed registry, [get_connected_users]
    returns exactly one entry per connected user; the entry's
    [connection_count] is the size of the user's connection set, and its
    [connected_at] and [last_heartbeat] (like its username and role) are
    those recorded for one connection of the user, the first that the
    iteration of the user's set yields.  They are the earliest connect
    time and the latest heartbeat over the user's connections whenever
    the user has exactly one connection. *)
Theorem get_connected_users_spec m :
  registry_wf m →
  NoDup (e_user_id <$> get_connected_users m) ∧
  (∀ u, u ∈ (e_user_id <$> get_connected_users m)
        ↔ is_Some (active_connections m !! u)) ∧
  ∀ e, e ∈ get_connected_users m →
    ∃ conns ws user md,
      active_connections m !! e_user_id e = Some conns ∧
      first_connection conns = Some ws ∧ ws ∈ conns ∧
      connection_users m !! ws = Some user ∧ id user = e_user_id e ∧
      connection_metadata m !! ws = Some md ∧
      e = mkConnectedUser (id user) (username user) (role user) (size conns)
            (Some (connected_at md)) (Some (last_heartbeat md)) ∧
      (size conns = 1%nat →
       e_connected_at e = spec_earliest_connected_at m conns ∧
       e_last_heartbeat e = spec_latest_heartbeat m conns).
Proof.
  intros Hwf. rewrite get_connected_users_ids by done.
  split; [apply NoDup_fst_map_to_list|]. split.
  - intros u. rewrite list_elem_of_fmap. split.
    + intros ([u' conns] & -> & Hin%elem_of_map_to_list). by eexists.
    + intros [conns Hl]. exists (u, conns). split; [done|].
      by apply elem_of_map_to_list.
  - intros e He. unfold get_connected_users in He.
    apply list_elem_of_omap in He as ([u conns] & Hin%elem_of_map_to_list & Hentry).
    simpl in Hentry.
    destruct (connected_user_entry_wf m u conns Hwf Hin)
      as (ws & user & md & Hfirst & Hws & Hu & Hid & Hm & Heq).
    rewrite Heq in Hentry. injection Hentry as <-. simpl.
    exists conns, ws, user, md. repeat (split; [done|]).
    split; [by rewrite Hid|].
    intros Hsize.
    destruct (single_connection_aggregate m conns ws md Hsize Hws Hm) as [-> ->].
    done.
Qed.

Lemma registry_wf_world_sweep : registry_wf (mgr world_sweep).
Proof.
  split; [apply registry_invariant_world_sweep|]. split.
  - intros ws user H. simpl in *. exists {[10%N; 11%N]}.
    destruct (decide (ws = 10%N)) as [->|].
    { simplify_map_eq. split; [reflexivity|set_solver]. }
    destruct (decide (ws = 11%N)) as [->|].
    { simplify_map_eq. split; [reflexivity|set_solver]. }
    simplify_map_eq.
  - intros ws. simpl.
    destruct (decide (ws = 10%N)) as [->|]; [by split; eexists|].
    destruct (decide (ws = 11%N)) as [->|]; [by split; eexists|].
    simplify_map_eq. split; intros [? ?]; done.
Qed.

Lemma get_connected_users_spec_witness :
  NoDup (e_user_id <$> get_connected_users (mgr world_sweep)).
Proof.
  refine (proj1 (get_connected_users_spec (mgr world_sweep) _)).
  apply registry_wf_world_sweep.
Defined.

(** C6 as stated fails: alice's connection 10 connected at 0 and last
    beat at 1, her connection 11 connected at 4 and last beat at 100.
    The entry ought to show 0 and 100; no single connection has both,
    and the entry shows one connection's pair. *)
Lemma get_connected_users_counterexample :
  registry_wf (mgr world_sweep) ∧
  active_connections (mgr world_sweep) !! 1%positive = Some {[10%N; 11%N]} ∧
  spec_earliest_connected_at (mgr world_sweep) {[10%N; 11%N]} = Some 0 ∧
  spec_latest_heartbeat (mgr world_sweep) {[10%N; 11%N]} = Some 100 ∧
  (∀ ws md, connection_metadata (mgr world_sweep) !! ws = Some md →
     ¬ (connected_at md = 0 ∧ last_heartbeat md = 100)) ∧
  ∃ e, get_connected_users (mgr world_sweep) = [e] ∧
       ¬ spec_aggregated (mgr world_sweep) e.
Proof.
  split; [apply registry_wf_world_sweep|].
  split; [reflexivity|]. split; [reflexivity|]. split; [reflexivity|]. split.
  - intros ws md H [Hc Hh]. simpl in H.
    destruct (decide (ws = 10%N)) as [->|]; [by simplify_map_eq|].
    destruct (decide (ws = 11%N)) as [->|]; [by simplify_map_eq|].
    simplify_map_eq.
  - eexists. split; [vm_compute; reflexivity|].
    intros H. destruct (H {[10%N; 11%N]} eq_refl) as (_ & Hc & Hh).
    vm_compute in Hc, Hh. congruence.
Qed.

(** ** C3: role routing *)

Lemma registry_invariant_world_two_aux : registry_invariant (mgr world_two).
Proof.
  split.
  - do 2 apply no_empty_entry_exec. apply no_empty_entry_init.
  - apply reverse_consistent_exec; [reflexivity|].
    apply reverse_consistent_exec; [reflexivity|].
    apply reverse_consistent_init.
Qed.

(** C3 fails on the code: alice (reviewer) holds connection 10, whose
    transport raises, and bob (admin) holds connection 20, whose
    transport is fine.  The failed send to 10 unregisters alice's only
    connection, which removes her entry from the dictionary that
    [send_role_message] is iterating; the iterator raises, the call for
    the role "admin" is never made, and nothing is sent to bob. *)
Theorem notify_new_detection_aborts :
  let r := notify_new_detection env_broken_10 7 true (9 # 10) world_two in
  registry_wf (mgr world_two) ∧
  registered_to 20 bob (mgr world_two) ∧ role bob = ADMIN ∧
  (∀ tr, send_raises env_broken_10 tr 20 = false) ∧
  r.1 = Raised (RuntimeError "dictionary changed size during iteration") ∧
  trace r.2 = trace world_two ++
              [EvSendText 10
                 (mkWsMessage "new_detection"
                    [("detection_id", VUuid 7); ("is_anomaly", VBool true);
                     ("confidence", VNum (9 # 10)); ("timestamp", VIso 8)] 9)
                 false].
Proof.
  cbn zeta. split; [|split; [|split; [|split; [|split]]]].
  - split; [|split].
    + apply (registry_invariant_world_two_aux).
    + do 2 apply forward_consistent_exec. apply registry_wf_init.
    + do 2 apply metadata_consistent_exec. apply registry_wf_init.
  - split; [reflexivity|]. exists {[20%N]}. split; [reflexivity|set_solver].
  - reflexivity.
  - reflexivity.
  - vm_compute. reflexivity.
  - vm_compute. reflexivity.
Qed.

(** *** Routing while no send raises *)

Section healthy.
Context (env : Env) (message : Message) (t : string) (d : list (string * value)).
Hypothesis Hhealthy : transport_healthy env.
Hypothesis Hparts : message_parts message = Some (t, d).

Lemma send_personal_message_healthy ws w :
  send_personal_message env message ws w =
  (Returned tt,
   mkWorld (mgr w)
           (trace w ++ [EvSendText ws (mkWsMessage t d (clock env (ticks w))) true])
           (S (ticks w))).
Proof.
  rewrite (send_personal_message_well_formed _ _ _ _ _ _ Hparts). cbn zeta.
  by rewrite Hhealthy.
Qed.

Lemma send_user_loop_healthy conns disc w :
  ∃ w', send_user_loop env message conns disc w = (Returned disc, w') ∧
    mgr w' = mgr w ∧
    ∃ evs, trace w' = trace w ++ evs ∧
      (∀ e, e ∈ evs → ∃ ws ts, e = EvSendText ws (mkWsMessage t d ts) true ∧ ws ∈ conns) ∧
      (∀ ws, ws ∈ conns → ∃ ts, EvSendText ws (mkWsMessage t d ts) true ∈ evs).
Proof.
  revert w. induction conns as [|c conns IH]; intros w; simpl.
  - eexists; split; [done|]. split; [done|]. exists []. rewrite app_nil_r.
    split; [done|]. split; [by intros e ?%not_elem_of_nil|by intros ws ?%not_elem_of_nil].
  - unfold mbind at 1, M_bind at 1, try_except at 1, mbind at 1, M_bind at 1.
    rewrite send_personal_message_healthy. simpl.
    set (ev := EvSendText c (mkWsMessage t d (clock env (ticks w))) true).
    destruct (IH (mkWorld (mgr w) (trace w ++ [ev]) (S (ticks w))))
      as (w' & -> & Hm & evs & Htr & Hev & Hsent).
    eexists; split; [done|]. split; [done|].
    exists (ev :: evs). split; [by rewrite Htr; simpl; rewrite <- app_assoc|]. split.
    + intros e [->|He]%elem_of_cons.
      * do 2 eexists. split; [done|left].
      * destruct (Hev e He) as (ws & ts & -> & Hin). do 2 eexists.
        split; [done|by right].
    + intros ws [->|Hin]%elem_of_cons.
      * eexists. left.
      * destruct (Hsent ws Hin) as [ts Hts]. exists ts. by right.
Qed.

Lemma send_user_message_healthy user_id w :
  ∃ w', send_user_message env message user_id w = (Returned tt, w') ∧
    mgr w' = mgr w ∧
    ∃ evs, trace w' = trace w ++ evs ∧
      (∀ e, e ∈ evs → ∃ ws ts conns, e = EvSendText ws (mkWsMessage t d ts) true ∧
          active_connections (mgr w) !! user_id = Some conns ∧ ws ∈ conns) ∧
      (∀ conns ws, active_connections (mgr w) !! user_id = Some conns → ws ∈ conns →
          ∃ ts, EvSendText ws (mkWsMessage t d ts) true ∈ evs).
Proof.
  unfold send_user_message. unfold mbind at 1, M_bind at 1, get_mgr. simpl.
  destruct (active_connections (mgr w) !! user_id) as [conns|] eqn:E.
  - unfold mbind at 1, M_bind at 1.
    destruct (send_user_loop_healthy (elements conns) ∅ w)
      as (w' & -> & Hm & evs & Htr & Hev & Hsent).
    rewrite elements_empty. simpl.
    eexists; split; [done|]. split; [done|]. exists evs. split; [done|]. split.
    + intros e He. destruct (Hev e He) as (ws & ts & -> & Hin).
      exists ws, ts, conns. repeat split; try done. by apply elem_of_elements.
    + intros conns' ws [= <-] Hin. apply Hsent. by apply elem_of_elements.
  - eexists; split; [done|]. split; [done|]. exists []. rewrite app_nil_r.
    split; [done|]. split; [by intros e ?%not_elem_of_nil|done].
Qed.

Lemma broadcast_loop_healthy keys w :
  ∃ w', broadcast_loop env message keys w = (Returned tt, w') ∧
    mgr w' = mgr w ∧
    ∃ evs, trace w' = trace w ++ evs ∧
      (∀ e, e ∈ evs → ∃ ws ts u conns, e = EvSendText ws (mkWsMessage t d ts) true ∧
          active_connections (mgr w) !! u = Some conns ∧ ws ∈ conns) ∧
      (∀ u conns ws, u ∈ keys → active_connections (mgr w) !! u = Some conns →
          ws ∈ conns → ∃ ts, EvSendText ws (mkWsMessage t d ts) true ∈ evs).
Proof.
  revert w. induction keys as [|u0 keys IH]; intros w; simpl.
  - eexists; split; [done|]. split; [done|]. exists []. rewrite app_nil_r.
    split; [done|]. split; [by intros e ?%not_elem_of_nil|].
    by intros u conns ws ?%not_elem_of_nil.
  - unfold mbind at 1, M_bind at 1.
    destruct (send_user_message_healthy u0 w)
      as (w1 & -> & Hm1 & evs1 & Htr1 & Hev1 & Hsent1).
    destruct (IH w1) as (w' & -> & Hm & evs & Htr & Hev & Hsent).
    rewrite Hm1 in *.
    eexists; split; [done|]. split; [done|].
    exists (evs1 ++ evs). split; [by rewrite Htr, Htr1, app_assoc|]. split.
    + intros e [He|He]%elem_of_app.
      * destruct (Hev1 e He) as (ws & ts & conns & -> & Hl & Hin). by eauto 10.
      * by apply Hev.
    + intros u conns ws [->|Hu]%elem_of_cons Hl Hin.
      * destruct (Hsent1 conns ws Hl Hin) as [ts Hts]. exists ts.
        apply elem_of_app. by left.
      * destruct (Hsent u conns ws Hu Hl Hin) as [ts Hts]. exists ts.
        apply elem_of_app. by right.
Qed.
End healthy.

Section healthy_role.
Context (env : Env) (message : Message) (t : string) (d : list (string * value)).
Context (role' : string).
Hypothesis Hhealthy : transport_healthy env.
Hypothesis Hparts : message_parts message = Some (t, d).

Lemma send_role_step_healthy user_id conns w :
  registry_wf (mgr w) → role_coherent (mgr w) →
  active_connections (mgr w) !! user_id = Some conns →
  ∃ w', send_role_step env message role' user_id w = (Returned tt, w') ∧
    mgr w' = mgr w ∧
    ∃ evs, trace w' = trace w ++ evs ∧ role_events t d role' (mgr w) [user_id] evs.
Proof.
  intros Hwf Hco Hl. unfold send_role_step.
  unfold mbind at 1, M_bind at 1, get_mgr. simpl. rewrite Hl.
  destruct Hwf as ([Hne Hrev] & _ & _).
  destruct (first_connection_nonempty conns (Hne _ _ Hl)) as (ws0 & -> & Hin0).
  destruct (Hrev _ _ _ Hl Hin0) as (user0 & Hu0 & Hid0). rewrite Hu0.
  destruct (String.eqb_spec (role_value (role user0)) role') as [Hrole|Hrole].
  - destruct (send_user_message_healthy env message t d Hhealthy Hparts user_id w)
      as (w' & -> & Hm & evs & Htr & Hev & Hsent).
    eexists; split; [done|]. split; [done|]. exists evs. split; [done|]. split.
    + intros e He. destruct (Hev e He) as (ws & ts & conns' & -> & Hl' & Hin).
      rewrite Hl in Hl'. injection Hl' as <-.
      destruct (Hrev _ _ _ Hl Hin) as (user & Hu & Hid).
      exists ws, user, ts. split; [done|]. split; [done|].
      by rewrite (Hco _ _ _ _ _ _ Hl Hin Hin0 Hu Hu0).
    + intros u conns' ws user ->%list_elem_of_singleton Hl' Hin _ _.
      by apply (Hsent conns').
  - eexists; split; [done|]. split; [done|]. exists []. rewrite app_nil_r.
    split; [done|]. split; [by intros e ?%not_elem_of_nil|].
    intros u conns' ws user ->%list_elem_of_singleton Hl' Hin Hu Hr.
    rewrite Hl in Hl'. injection Hl' as <-.
    by rewrite (Hco _ _ _ _ _ _ Hl Hin Hin0 Hu Hu0) in Hr.
Qed.

Lemma dict_iter_check_unchanged w :
  dict_iter_check (size (active_connections (mgr w))) w = (Returned tt, w).
Proof.
  unfold dict_iter_check. unfold mbind, M_bind, get_mgr. simpl.
  by rewrite decide_True.
Qed.

Lemma send_role_loop_healthy keys w :
  registry_wf (mgr w) → role_coherent (mgr w) →
  (∀ u, u ∈ keys → is_Some (active_connections (mgr w) !! u)) →
  ∃ w', send_role_loop env message role' (size (active_connections (mgr w))) keys w
        = (Returned tt, w') ∧
    mgr w' = mgr w ∧
    ∃ evs, trace w' = trace w ++ evs ∧ role_events t d role' (mgr w) keys evs.
Proof.
  revert w. induction keys as [|u0 keys IH]; intros w Hwf Hco Hkeys; simpl.
  - rewrite dict_iter_check_unchanged.
    eexists; split; [done|]. split; [done|]. exists []. rewrite app_nil_r.
    split; [done|]. split; [by intros e ?%not_elem_of_nil|].
    by intros u conns ws user ?%not_elem_of_nil.
  - unfold mbind at 1, M_bind at 1. rewrite dict_iter_check_unchanged.
    unfold mbind at 1, M_bind at 1.
    destruct (Hkeys u0) as [conns0 Hl0]; [left|].
    destruct (send_role_step_healthy u0 conns0 w Hwf Hco Hl0)
      as (w1 & -> & Hm1 & evs1 & Htr1 & Hev1 & Hsent1).
    rewrite <- Hm1 in *.
    destruct (IH w1) as (w' & -> & Hm & evs & Htr & Hev & Hsent); try done.
    { intros u Hu. apply Hkeys. by right. }
    eexists; split; [done|]. split; [done|].
    exists (evs1 ++ evs). split; [by rewrite Htr, Htr1, app_assoc|]. split.
    + intros e [He|He]%elem_of_app; [by apply Hev1|by apply Hev].
    + intros u conns ws user [->|Hu]%elem_of_cons Hl Hin Hus Hr.
      * destruct (Hsent1 u0 conns ws user) as [ts Hts]; try done; [left|].
        exists ts. apply elem_of_app. by left.
      * destruct (Hsent u conns ws user) as [ts Hts]; try done.
        exists ts. apply elem_of_app. by right.
Qed.

Lemma send_role_message_healthy w :
  registry_wf (mgr w) → role_coherent (mgr w) →
  ∃ w', send_role_message env message role' w = (Returned tt, w') ∧
    mgr w' = mgr w ∧
    ∃ evs, trace w' = trace w ++ evs ∧ only_sends evs t ∧
      ∀ ws, delivered evs t ws ↔
            ∃ user, connection_users (mgr w) !! ws = Some user ∧
                    role_value (role user) = role'.
Proof.
  intros Hwf Hco. unfold send_role_message.
  unfold mbind at 1, M_bind at 1, get_mgr. simpl.
  destruct (send_role_loop_healthy ((map_to_list (active_connections (mgr w))).*1) w)
    as (w' & -> & Hm & evs & Htr & Hev & Hsent); try done.
  { intros u ((u' & conns) & -> & Hin%elem_of_map_to_list)%list_elem_of_fmap.
    by eexists. }
  eexists; split; [done|]. split; [done|]. exists evs. split; [done|]. split.
  { intros e He. destruct (Hev e He) as (ws & user & ts & -> & _). by eauto. }
  intros ws. split.
  - intros (d' & ts & Hin). destruct (Hev _ Hin) as (ws' & user & ts' & Heq & Hu & Hr).
    injection Heq as <- _ _. by eauto.
  - intros (user & Hu & Hr).
    destruct Hwf as (_ & Hfwd & _).
    destruct (Hfwd _ _ Hu) as (conns & Hl & Hin).
    destruct (Hsent (id user) conns ws user) as [ts Hts]; try done.
    { apply list_elem_of_fmap. exists (id user, conns). split; [done|].
      by apply elem_of_map_to_list. }
    by exists d, ts.
Qed.
End healthy_role.

Lemma broadcast_message_healthy env message t d w :
  transport_healthy env → message_parts message = Some (t, d) →
  registry_wf (mgr w) →
  ∃ w', broadcast_message env message w = (Returned tt, w') ∧
    mgr w' = mgr w ∧
    ∃ evs, trace w' = trace w ++ evs ∧ only_sends evs t ∧
      ∀ ws, delivered evs t ws ↔ is_Some (connection_users (mgr w) !! ws).
Proof.
  intros Hh Hp ([_ Hrev] & Hfwd & _). unfold broadcast_message.
  unfold mbind at 1, M_bind at 1, get_mgr. simpl.
  destruct (broadcast_loop_healthy env message t d Hh Hp
              ((map_to_list (active_connections (mgr w))).*1) w)
    as (w' & -> & Hm & evs & Htr & Hev & Hsent).
  eexists; split; [done|]. split; [done|]. exists evs. split; [done|]. split.
  { intros e He. destruct (Hev e He) as (ws & ts & u & conns & -> & _). by eauto. }
  intros ws. split.
  - intros (d' & ts & Hin).
    destruct (Hev _ Hin) as (ws' & ts' & u & conns & Heq & Hl & Hc).
    injection Heq as <- _ _.
    destruct (Hrev _ _ _ Hl Hc) as (user & Hu & _). by eexists.
  - intros [user Hu]. destruct (Hfwd _ _ Hu) as (conns & Hl & Hin).
    destruct (Hsent (id user) conns ws) as [ts Hts]; try done.
    { apply list_elem_of_fmap. exists (id user, conns). split; [done|].
      by apply elem_of_map_to_list. }
    by exists d, ts.
Qed.

Lemma role_value_inj r1 r2 : role_value r1 = role_value r2 → r1 = r2.
Proof. by destruct r1, r2. Qed.

Lemma delivered_app evs1 evs2 ty ws :
  delivered (evs1 ++ evs2) ty ws ↔ delivered evs1 ty ws ∨ delivered evs2 ty ws.
Proof.
  unfold delivered. split.
  - intros (d & ts & [H|H]%elem_of_app); [left|right]; eauto.
  - intros [(d & ts & H)|(d & ts & H)]; exists d, ts; apply elem_of_app; eauto.
Qed.

Lemma notify_new_detection_healthy env w detection_id is_anomaly confidence :
  transport_healthy env → registry_wf (mgr w) → role_coherent (mgr w) →
  ∃ w', notify_new_detection env detection_id is_anomaly confidence w = (Returned tt, w') ∧
    mgr w' = mgr w ∧
    ∃ evs, trace w' = trace w ++ evs ∧ only_sends evs "new_detection" ∧
      ∀ ws, delivered evs "new_detection" ws ↔
            ∃ user, connection_users (mgr w) !! ws = Some user ∧
                    (role user = REVIEWER ∨ role user = ADMIN).
Proof.
  intros Hh Hwf Hco. unfold notify_new_detection.
  unfold mbind at 1, M_bind at 1, now.
  set (w0 := mkWorld (mgr w) (trace w) (S (ticks w))).
  set (message := [("type", VStr "new_detection"); _]).
  unfold mbind at 1, M_bind at 1.
  destruct (send_role_message_healthy env message "new_detection" _ "reviewer"
              Hh eq_refl w0 Hwf Hco)
    as (w1 & -> & Hm1 & evs1 & Htr1 & Hon1 & Hd1).
  assert (registry_wf (mgr w1)) as Hwf1 by (by rewrite Hm1).
  assert (role_coherent (mgr w1)) as Hco1 by (by rewrite Hm1).
  destruct (send_role_message_healthy env message "new_detection" _ "admin"
              Hh eq_refl w1 Hwf1 Hco1)
    as (w2 & -> & Hm2 & evs2 & Htr2 & Hon2 & Hd2).
  exists w2. split; [done|]. split; [by rewrite Hm2, Hm1|].
  exists (evs1 ++ evs2). split; [by rewrite Htr2, Htr1, app_assoc|]. split.
  { intros e [He|He]%elem_of_app; [by apply Hon1|by apply Hon2]. }
  intros ws. rewrite delivered_app, Hd1, Hd2, Hm1. simpl. split.
  + intros [(user & Hu & Hr)|(user & Hu & Hr)]; exists user; (split; [done|]).
    * left. by apply role_value_inj.
    * right. by apply role_value_inj.
  + intros (user & Hu & [Hr|Hr]); [left|right]; exists user; by rewrite Hr.
Qed.

Lemma notify_review_completed_healthy env w review_id detection_id verdict :
  transport_healthy env → registry_wf (mgr w) →
  ∃ w', notify_review_completed env review_id detection_id verdict w = (Returned tt, w') ∧
    mgr w' = mgr w ∧
    ∃ evs, trace w' = trace w ++ evs ∧ only_sends evs "review_completed" ∧
      ∀ ws, delivered evs "review_completed" ws ↔
            is_Some (connection_users (mgr w) !! ws).
Proof.
  intros Hh Hwf. unfold notify_review_completed.
  unfold mbind at 1, M_bind at 1, now.
  set (w0 := mkWorld (mgr w) (trace w) (S (ticks w))).
  set (message := [("type", VStr "review_completed"); _]).
  destruct (broadcast_message_healthy env message "review_completed" _ w0 Hh eq_refl Hwf)
    as (w1 & -> & Hm1 & evs1 & Htr1 & Hon1 & Hd1).
  exists w1. split; [done|]. split; [done|]. by exists evs1.
Qed.

Lemma notify_system_alert_healthy env w alert_type message data :
  transport_healthy env → registry_wf (mgr w) → role_coherent (mgr w) →
  ∃ w', notify_system_alert env alert_type message data w = (Returned tt, w') ∧
    mgr w' = mgr w ∧
    ∃ evs, trace w' = trace w ++ evs ∧ only_sends evs "system_alert" ∧
      ∀ ws, delivered evs "system_alert" ws ↔
            ∃ user, connection_users (mgr w) !! ws = Some user ∧ role user = ADMIN.
Proof.
  intros Hh Hwf Hco. unfold notify_system_alert.
  unfold mbind at 1, M_bind at 1, now.
  set (w0 := mkWorld (mgr w) (trace w) (S (ticks w))).
  set (msg := [("type", VStr "system_alert"); _]).
  destruct (send_role_message_healthy env msg "system_alert" _ "admin"
              Hh eq_refl w0 Hwf Hco)
    as (w1 & -> & Hm1 & evs1 & Htr1 & Hon1 & Hd1).
  exists w1. split; [done|]. split; [done|].
  exists evs1. split; [done|]. split; [done|].
  intros ws. rewrite Hd1. simpl. split.
  + intros (user & Hu & Hr). exists user. split; [done|]. by apply role_value_inj.
  + intros (user & Hu & Hr). exists user. by rewrite Hr.
Qed.

(** While no send raises, in a well-formed registry whose users each
    carry one role, the three notifications are routed as the
    specification says: [notify_new_detection] puts a [new_detection]
    envelope on exactly the connections of reviewers and admins,
    [notify_review_completed] a [review_completed] envelope on every
    registered connection, [notify_system_alert] a [system_alert]
    envelope on exactly the connections of admins; nothing else is put
    on the transport and the registry is left as it was. *)
Theorem role_routing_healthy env w :
  transport_healthy env → registry_wf (mgr w) → role_coherent (mgr w) →
  (∀ detection_id is_anomaly confidence,
     let r := notify_new_detection env detection_id is_anomaly confidence w in
     r.1 = Returned tt ∧ mgr r.2 = mgr w ∧
     ∃ evs, trace r.2 = trace w ++ evs ∧ only_sends evs "new_detection" ∧
       ∀ ws, delivered evs "new_detection" ws ↔
             ∃ user, connection_users (mgr w) !! ws = Some user ∧
                     (role user = REVIEWER ∨ role user = ADMIN)) ∧
  (∀ review_id detection_id verdict,
     let r := notify_review_completed env review_id detection_id verdict w in
     r.1 = Returned tt ∧ mgr r.2 = mgr w ∧
     ∃ evs, trace r.2 = trace w ++ evs ∧ only_sends evs "review_completed" ∧
       ∀ ws, delivered evs "review_completed" ws ↔
             is_Some (connection_users (mgr w) !! ws)) ∧
  (∀ alert_type message data,
     let r := notify_system_alert env alert_type message data w in
     r.1 = Returned tt ∧ mgr r.2 = mgr w ∧
     ∃ evs, trace r.2 = trace w ++ evs ∧ only_sends evs "system_alert" ∧
       ∀ ws, delivered evs "system_alert" ws ↔
             ∃ user, connection_users (mgr w) !! ws = Some user ∧ role user = ADMIN).
Proof.
  intros Hh Hwf Hco. split; [|split].
  - intros detection_id is_anomaly confidence.
    destruct (notify_new_detection_healthy env w detection_id is_anomaly confidence
                Hh Hwf Hco) as (w' & Heq & Hm & Hevs).
    cbn zeta. by rewrite Heq.
  - intros review_id detection_id verdict.
    destruct (notify_review_completed_healthy env w review_id detection_id verdict
                Hh Hwf) as (w' & Heq & Hm & Hevs).
    cbn zeta. by rewrite Heq.
  - intros alert_type message data.
    destruct (notify_system_alert_healthy env w alert_type message data
                Hh Hwf Hco) as (w' & Heq & Hm & Hevs).
    cbn zeta. by rewrite Heq.
Qed.

Lemma role_coherent_world_sweep : role_coherent (mgr world_sweep).
Proof.
  assert (∀ ws user, connection_users (mgr world_sweep) !! ws = Some user → user = alice)
    as Halice.
  { intros ws user H. simpl in H.
    destruct (decide (ws = 10%N)) as [->|]; [by simplify_map_eq|].
    destruct (decide (ws = 11%N)) as [->|]; [by simplify_map_eq|].
    simplify_map_eq. }
  intros u conns c1 c2 u1 u2 _ _ _ H1 H2.
  by rewrite (Halice _ _ H1), (Halice _ _ H2).
Qed.

Lemma role_routing_healthy_witness :
  let r := notify_system_alert env_quiet "disk" "full" None world_sweep in
  r.1 = Returned tt ∧ mgr r.2 = mgr world_sweep ∧
  ∃ evs, trace r.2 = trace world_sweep ++ evs ∧ only_sends evs "system_alert" ∧
    ∀ ws, delivered evs "system_alert" ws ↔
          ∃ user, connection_users (mgr world_sweep) !! ws = Some user ∧
                  role user = ADMIN.
Proof.
  refine (proj2 (proj2 (role_routing_healthy env_quiet world_sweep _ _ _))
            "disk" "full" None).
  - intros tr ws. reflexivity.
  - apply registry_wf_world_sweep.
  - apply role_coherent_world_sweep.
Defined.

(** Alice, a reviewer, holds the only two connections: a system alert
    goes to neither. *)
Example system_alert_skips_reviewer :
  ∀ ws, ¬ delivered
            (drop (length (trace world_sweep))
               (trace (notify_system_alert env_quiet "disk" "full" None world_sweep).2))
            "system_alert" ws.
Proof.
  destruct (notify_system_alert_healthy env_quiet world_sweep "disk" "full" None)
    as (w' & Heq & _ & evs & Htr & _ & Hd).
  - done.
  - apply registry_wf_world_sweep.
  - apply role_coherent_world_sweep.
  - rewrite Heq. cbn [snd]. rewrite Htr.
    rewrite drop_app_length. intros ws (user & Hu & Hr)%Hd.
    simpl in Hu.
    destruct (decide (ws = 10%N)) as [->|]; [by simplify_map_eq|].
    destruct (decide (ws = 11%N)) as [->|]; [by simplify_map_eq|].
    simplify_map_eq.
Qed.

(** A reviewer and an operator are connected: the detection reaches the
    reviewer's connection only. *)
Example new_detection_reaches_reviewer_only :
  let r := notify_new_detection env_quiet 7 true (9 # 10) world_reviewer_operator in
  r.1 = Returned tt ∧
  drop (length (trace world_reviewer_operator)) (trace r.2)
  = [EvSendText 10
       (mkWsMessage "new_detection"
          [("detection_id", VUuid 7); ("is_anomaly", VBool true);
           ("confidence", VNum (9 # 10)); ("timestamp", VIso 8)] 9)
       true].
Proof. vm_compute. split; reflexivity. Qed.

(** A write failure on alice's only connection during a broadcast: the
    call returns, alice is evicted and the summary no longer lists her,
    and bob still gets the envelope. *)
Example broadcast_survives_write_failure :
  let r := notify_review_completed env_broken_10 5 7 "true_positive" world_two in
  r.1 = Returned tt ∧
  e_user_id <$> get_connected_users (mgr r.2) = [2%positive] ∧
  (λ e, (event_websocket e,
         match e with EvSendText _ _ ok => ok | _ => false end))
    <$> drop (length (trace world_two)) (trace r.2)
  = [(20%N, true); (10%N, false)].
Proof. vm_compute. repeat split; reflexivity. Qed.

(** ** Further properties of the session *)

(** When the transport refuses the handshake, [connect] raises; the
    attempt to accept is all that happened on the transport (no welcome
    is sent), the registry is as before, and the clock was not read. *)
Lemma connect_accept_refused env websocket user w :
  accept_raises env (trace w) websocket = true →
  (connect env websocket user w).1 = Raised (RuntimeError "accept") ∧
  mgr (connect env websocket user w).2 = mgr w ∧
  trace (connect env websocket user w).2 = trace w ++ [EvAccept websocket false] ∧
  ticks (connect env websocket user w).2 = ticks w.
Proof. intros H. by rewrite connect_eq, H. Qed.

Lemma connect_accept_refused_witness :
  (connect env_refusing 10 alice world_init).1 = Raised (RuntimeError "accept") ∧
  mgr (connect env_refusing 10 alice world_init).2 = mgr world_init ∧
  trace (connect env_refusing 10 alice world_init).2 = [EvAccept 10 false] ∧
  ticks (connect env_refusing 10 alice world_init).2 = ticks world_init.
Proof. apply connect_accept_refused. reflexivity. Defined.

(** A heartbeat replaces [last_heartbeat] by the clock read and leaves
    [connected_at], the sets and the reverse lookup alone, provided the
    acknowledgement can be sent. *)
Lemma handle_heartbeat_touch env websocket md w :
  connection_metadata (mgr w) !! websocket = Some md →
  send_raises env (trace w) websocket = false →
  (handle_heartbeat env websocket w).1 = Returned tt ∧
  mgr (handle_heartbeat env websocket w).2 =
    mkManager (active_connections (mgr w)) (connection_users (mgr w))
      (<[websocket := mkMetadata (connected_at md) (clock env (ticks w))]>
         (connection_metadata (mgr w))).
Proof.
  intros Hmd Hs.
  assert (handle_heartbeat env websocket w =
          (Returned tt,
           mkWorld
             (mkManager (active_connections (mgr w)) (connection_users (mgr w))
                (<[websocket := mkMetadata (connected_at md) (clock env (ticks w))]>
                   (connection_metadata (mgr w))))
             (trace w ++
                [EvSendText websocket
                   (mkWsMessage "heartbeat_ack"
                      [("timestamp", VIso (clock env (S (ticks w))))]
                      (clock env (S (S (ticks w))))) true])
             (S (S (S (ticks w)))))) as ->; [|done].
  unfold handle_heartbeat. unfold mbind at 1, M_bind at 1, get_mgr. simpl.
  rewrite Hmd. unfold_m. simpl.
  erewrite send_personal_message_well_formed by reflexivity. simpl.
  rewrite Hs. do 3 f_equal.
  apply map_eq. intros ws. rewrite lookup_alter.
  destruct (decide (websocket = ws)) as [->|Hne].
  - by rewrite lookup_insert_eq, Hmd.
  - by rewrite lookup_insert_ne.
Qed.

(** A whole session: alice presents her token, is registered and
    welcomed, and sends a heartbeat.  [json.loads] raises [NameError],
    the loop ends, nothing is acknowledged, and the registry is empty
    again. *)
Example session_of_alice :
  let r := websocket_endpoint env_quiet 10 (Some "alice-token")
             [FrameText "heartbeat"; FrameText "heartbeat"] world_init in
  r.1 = Returned tt ∧
  mgr r.2 = manager_init ∧
  (λ e, match e with
        | EvAccept _ _ => "accept"
        | EvSendText _ m _ => ws_type m
        | EvClose _ _ _ _ => "close"
        end) <$> trace r.2
  = ["accept"; "connection_established"].
Proof. vm_compute. repeat split; reflexivity. Qed.

(** * Further properties of the manager *)

(** ** Deliveries only ever unregister, and only where a send raised *)

Lemma disconnect_list_app l1 l2 m :
  disconnect_list (l1 ++ l2) m = disconnect_list l2 (disconnect_list l1 m).
Proof. unfold disconnect_list. apply foldl_app. Qed.

Lemma delivery_step_same message w w' :
  mgr w' = mgr w → trace w' = trace w → delivery_step message w w'.
Proof.
  intros Hm Htr. exists [], []. rewrite app_nil_r. split; [done|]. split; [done|].
  split; [by intros e ?%not_elem_of_nil|].
  intros t d _ c. split; [by intros ?%not_elem_of_nil|].
  by intros (m & ?%not_elem_of_nil).
Qed.

Lemma delivery_step_trans message w1 w2 w3 :
  delivery_step message w1 w2 → delivery_step message w2 w3 →
  delivery_step message w1 w3.
Proof.
  intros (f1 & evs1 & Hm1 & Htr1 & Hev1 & Hf1) (f2 & evs2 & Hm2 & Htr2 & Hev2 & Hf2).
  exists (f1 ++ f2), (evs1 ++ evs2).
  split; [by rewrite Hm2, Hm1, disconnect_list_app|].
  split; [by rewrite Htr2, Htr1, app_assoc|]. split.
  - intros e [He|He]%elem_of_app; [by apply Hev1|by apply Hev2].
  - intros t d Hp c. rewrite elem_of_app, (Hf1 t d Hp), (Hf2 t d Hp). split.
    + intros [(m & Hin)|(m & Hin)]; exists m; apply elem_of_app; eauto.
    + intros (m & [Hin|Hin]%elem_of_app); eauto.
Qed.

Lemma send_personal_message_delivery env message websocket w :
  delivery_step message w (send_personal_message env message websocket w).2.
Proof.
  destruct (message_parts message) as [[t d]|] eqn:E.
  - rewrite (send_personal_message_well_formed _ _ _ _ _ _ E). cbn zeta.
    destruct (send_raises env (trace w) websocket); cbn [snd].
    + exists [websocket], [EvSendText websocket (mkWsMessage t d (clock env (ticks w))) false].
      split; [done|]. split; [done|]. split.
      * intros e ->%list_elem_of_singleton. by eauto.
      * intros t' d' _ c. rewrite list_elem_of_singleton. split.
        -- intros ->. eexists. by apply list_elem_of_singleton.
        -- by intros (m & [= -> _]%list_elem_of_singleton).
    + exists [], [EvSendText websocket (mkWsMessage t d (clock env (ticks w))) true].
      split; [done|]. split; [done|]. split.
      * intros e ->%list_elem_of_singleton. by eauto.
      * intros t' d' _ c. split; [by intros ?%not_elem_of_nil|].
        by intros (m & [=]%list_elem_of_singleton).
  - destruct (send_personal_message_malformed env message websocket w E) as [tk ->].
    exists [websocket], []. rewrite app_nil_r. split; [done|]. split; [done|].
    split; [by intros e ?%not_elem_of_nil|]. intros t d Hp. congruence.
Qed.

Lemma send_user_loop_delivery env message conns disc w :
  delivery_step message w (send_user_loop env message conns disc w).2.
Proof.
  revert w. induction conns as [|c conns IH]; intros w; simpl.
  - by apply delivery_step_same.
  - unfold mbind at 1, M_bind at 1, try_except at 1, mbind at 1, M_bind at 1.
    pose proof (send_personal_message_delivery env message c w) as Hstep.
    destruct (send_personal_message_cases env message c w) as (w1 & Heq & _).
    rewrite Heq in *. simpl in *.
    eapply delivery_step_trans; [exact Hstep|apply IH].
Qed.

Lemma send_user_message_delivery env message user_id w :
  delivery_step message w (send_user_message env message user_id w).2.
Proof.
  unfold send_user_message. unfold mbind at 1, M_bind at 1, get_mgr. simpl.
  destruct (active_connections (mgr w) !! user_id) as [conns|].
  - unfold mbind at 1, M_bind at 1.
    pose proof (send_user_loop_delivery env message (elements conns) ∅ w) as Hstep.
    destruct (send_user_loop_spec env message (elements conns) ∅ w) as (w1 & Heq & _).
    rewrite Heq in *. rewrite elements_empty. by simpl in *.
  - by apply delivery_step_same.
Qed.

Lemma broadcast_loop_delivery env message keys w :
  (broadcast_loop env message keys w).1 = Returned tt ∧
  delivery_step message w (broadcast_loop env message keys w).2.
Proof.
  revert w. induction keys as [|u keys IH]; intros w; simpl.
  - split; [done|by apply delivery_step_same].
  - pose proof (send_user_message_delivery env message u w) as Hstep.
    destruct (send_user_message_spec env message u w) as (w1 & Heq & _).
    assert ((send_user_message env message u;; broadcast_loop env message keys) w
            = broadcast_loop env message keys w1) as ->.
    { unfold mbind, M_bind. by rewrite Heq. }
    rewrite Heq in Hstep. destruct (IH w1) as [Hr Hd].
    split; [done|]. by eapply delivery_step_trans.
Qed.

Lemma send_role_step_delivery env message role' user_id w :
  ∃ w', send_role_step env message role' user_id w = (Returned tt, w') ∧
        delivery_step message w w'.
Proof.
  unfold send_role_step. unfold mbind at 1, M_bind at 1, get_mgr. simpl.
  assert (∃ w', (mret tt : M unit) w = (Returned tt, w') ∧ delivery_step message w w')
    as Hret.
  { exists w. split; [done|by apply delivery_step_same]. }
  destruct (active_connections (mgr w) !! user_id) as [connections|]; [|done].
  destruct (first_connection connections) as [websocket|]; [|done].
  destruct (connection_users (mgr w) !! websocket) as [user|]; [|done].
  destruct (String.eqb (role_value (role user)) role'); [|done].
  pose proof (send_user_message_delivery env message user_id w) as Hstep.
  destruct (send_user_message_spec env message user_id w) as (w1 & Heq & _).
  rewrite Heq in *. by exists w1.
Qed.

Lemma dict_iter_check_eq used w :
  dict_iter_check used w =
  (if decide (size (active_connections (mgr w)) = used)
   then Returned tt
   else Raised (RuntimeError "dictionary changed size during iteration"), w).
Proof.
  unfold dict_iter_check. unfold mbind, M_bind, get_mgr. simpl.
  by destruct (decide (size (active_connections (mgr w)) = used)).
Qed.

Lemma send_role_loop_outcome env message role' used keys w :
  ∃ r w', send_role_loop env message role' used keys w = (r, w') ∧
    delivery_step message w w' ∧
    ((r = Returned tt ∧ size (active_connections (mgr w')) = used) ∨
     (r = Raised (RuntimeError "dictionary changed size during iteration") ∧
      size (active_connections (mgr w')) ≠ used)).
Proof.
  revert w. induction keys as [|u keys IH]; intros w; simpl.
  - rewrite dict_iter_check_eq. do 2 eexists. split; [done|].
    split; [by apply delivery_step_same|]. case_decide; [by left|by right].
  - unfold mbind at 1, M_bind at 1. rewrite dict_iter_check_eq.
    case_decide as Hsize.
    + unfold mbind at 1, M_bind at 1.
      destruct (send_role_step_delivery env message role' u w) as (w1 & -> & Hstep).
      destruct (IH w1) as (r & w' & -> & Hd & Hr).
      exists r, w'. split; [done|]. split; [|done]. by eapply delivery_step_trans.
    + do 2 eexists. split; [done|]. split; [by apply delivery_step_same|]. by right.
Qed.

Lemma disconnect_dom websocket m :
  dom (active_connections (disconnect websocket m)) ⊆ dom (active_connections m).
Proof.
  intros u. rewrite !elem_of_dom, disconnect_active.
  destruct (connection_users m !! websocket) as [owner|]; [|done].
  case_decide; [|done].
  destruct (active_connections m !! u) as [conns|]; [by eauto|].
  simpl. by intros [? ?].
Qed.

Lemma disconnect_list_dom l m :
  dom (active_connections (disconnect_list l m)) ⊆ dom (active_connections m).
Proof.
  revert m. induction l as [|c l IH]; intros m; simpl; [done|].
  etrans; [apply IH|apply disconnect_dom].
Qed.

Lemma delivery_step_dom message w w' :
  delivery_step message w w' →
  dom (active_connections (mgr w')) ⊆ dom (active_connections (mgr w)).
Proof. intros (failed & evs & -> & _). apply disconnect_list_dom. Qed.

(** [send_role_message] either returns, and then every user that had an
    entry still has one, or raises the [RuntimeError] of the dictionary
    iterator, and then some user's entry is gone; in both cases what it
    did to the world is a delivery. *)
Theorem send_role_message_outcome env message role' w :
  ∃ r w', send_role_message env message role' w = (r, w') ∧
    delivery_step message w w' ∧
    ((r = Returned tt ∧
      dom (active_connections (mgr w')) = dom (active_connections (mgr w))) ∨
     (r = Raised (RuntimeError "dictionary changed size during iteration") ∧
      (size (active_connections (mgr w')) < size (active_connections (mgr w)))%nat)).
Proof.
  unfold send_role_message. unfold mbind at 1, M_bind at 1, get_mgr. simpl.
  destruct (send_role_loop_outcome env message role'
              (size (active_connections (mgr w)))
              ((map_to_list (active_connections (mgr w))).*1) w)
    as (r & w' & -> & Hd & Hr).
  exists r, w'. split; [done|]. split; [done|].
  pose proof (delivery_step_dom _ _ _ Hd) as Hsub.
  pose proof (subseteq_size _ _ Hsub) as Hle. rewrite !size_dom in Hle.
  destruct Hr as [[-> Hs]|[-> Hs]]; [left|right]; (split; [done|]).
  - apply set_subseteq_size_eq; [done|]. rewrite !size_dom. lia.
  - lia.
Qed.

(** ** Every operation keeps a well-formed registry well-formed *)

Lemma registry_wf_disconnect websocket m :
  registry_wf m → registry_wf (disconnect websocket m).
Proof.
  intros ([Hne Hrev] & Hfwd & Hmd). repeat split.
  - by apply no_empty_entry_disconnect.
  - by apply reverse_consistent_disconnect.
  - by apply forward_consistent_disconnect.
  - by apply metadata_consistent_disconnect.
  - by apply metadata_consistent_disconnect.
Qed.

Lemma registry_wf_disconnect_list l m :
  registry_wf m → registry_wf (disconnect_list l m).
Proof.
  revert m. induction l as [|c l IH]; intros m H; simpl; [done|].
  by apply IH, registry_wf_disconnect.
Qed.

Lemma registry_wf_add websocket user t1 t2 m :
  register_fresh m (Register websocket user) = true →
  registry_wf m → registry_wf (add_connection websocket user t1 t2 m).
Proof.
  intros Hf ([Hne Hrev] & Hfwd & Hmd). repeat split.
  - by apply no_empty_entry_add.
  - by apply reverse_consistent_add.
  - by apply forward_consistent_add.
  - by apply metadata_consistent_add.
  - by apply metadata_consistent_add.
Qed.

Lemma delivery_step_wf message w w' :
  delivery_step message w w' → registry_wf (mgr w) → registry_wf (mgr w').
Proof. intros (failed & evs & -> & _). apply registry_wf_disconnect_list. Qed.

Lemma delivery_step_failed message t d w w' :
  message_parts message = Some (t, d) →
  delivery_step message w w' →
  ∃ failed evs,
    mgr w' = disconnect_list failed (mgr w) ∧
    trace w' = trace w ++ evs ∧
    (∀ e, e ∈ evs → ∃ c m ok, e = EvSendText c m ok) ∧
    (∀ c, c ∈ failed ↔ ∃ m, EvSendText c m false ∈ evs).
Proof.
  intros Hp (failed & evs & Hm & Htr & Hev & Hf).
  exists failed, evs. repeat (split; [done|]). exact (Hf t d Hp).
Qed.

(** The three deliveries, to a user, to a role and to all, for a
    well-formed message and whatever the transport does: the registry
    left behind comes from the old one by unregistering connections,
    exactly those on which a send raised during the call; nothing but
    sends is put on the transport; and a well-formed registry stays
    well-formed. *)
Theorem delivery_unregisters_failed env message scope t d w :
  message_parts message = Some (t, d) →
  ∃ failed evs,
    mgr (deliver env message scope w).2 = disconnect_list failed (mgr w) ∧
    trace (deliver env message scope w).2 = trace w ++ evs ∧
    (∀ e, e ∈ evs → ∃ c m ok, e = EvSendText c m ok) ∧
    (∀ c, c ∈ failed ↔ ∃ m, EvSendText c m false ∈ evs) ∧
    (registry_wf (mgr w) → registry_wf (mgr (deliver env message scope w).2)).
Proof.
  intros Hp.
  assert (delivery_step message w (deliver env message scope w).2) as Hstep.
  { destruct scope as [user_id|role'|]; simpl.
    - apply send_user_message_delivery.
    - unfold send_role_message. unfold mbind at 1, M_bind at 1, get_mgr. simpl.
      destruct (send_role_loop_outcome env message role'
                  (size (active_connections (mgr w)))
                  ((map_to_list (active_connections (mgr w))).*1) w)
        as (r & w' & -> & Hd & _). done.
    - unfold broadcast_message. unfold mbind, M_bind, get_mgr. simpl.
      apply broadcast_loop_delivery. }
  destruct (delivery_step_failed _ _ _ _ _ Hp Hstep)
    as (failed & evs & Hm & Htr & Hev & Hf).
  exists failed, evs. repeat (split; [done|]). by apply (delivery_step_wf message).
Qed.

Lemma delivery_unregisters_failed_witness :
  ∃ failed evs,
    mgr (deliver env_broken_10 ping_message ToAll world_three).2
      = disconnect_list failed (mgr world_three) ∧
    trace (deliver env_broken_10 ping_message ToAll world_three).2
      = trace world_three ++ evs ∧
    (∀ e, e ∈ evs → ∃ c m ok, e = EvSendText c m ok) ∧
    (∀ c, c ∈ failed ↔ ∃ m, EvSendText c m false ∈ evs) ∧
    (registry_wf (mgr world_three) →
     registry_wf (mgr (deliver env_broken_10 ping_message ToAll world_three).2)).
Proof.
  apply (delivery_unregisters_failed env_broken_10 ping_message ToAll
           "notification" [("message", VStr "ping")] world_three).
  reflexivity.
Defined.

(** ** A broadcast reaches every registered connection, whatever fails *)

Lemma disconnect_other_entry websocket m u :
  forward_consistent m →
  (∀ conns, active_connections m !! u = Some conns → websocket ∉ conns) →
  active_connections (disconnect websocket m) !! u = active_connections m !! u.
Proof.
  intros Hfwd Hnot. rewrite disconnect_active.
  destruct (connection_users m !! websocket) as [owner|] eqn:Eo; [|done].
  case_decide as Hu; [|done]. subst u.
  destruct (Hfwd _ _ Eo) as (conns & Hl & Hin). by destruct (Hnot conns Hl).
Qed.

Lemma disconnect_list_other_entry l m u :
  registry_wf m →
  (∀ c, c ∈ l → ∀ conns, active_connections m !! u = Some conns → c ∉ conns) →
  active_connections (disconnect_list l m) !! u = active_connections m !! u.
Proof.
  revert m. induction l as [|c l IH]; intros m Hwf Hnot; simpl; [done|].
  assert (active_connections (disconnect c m) !! u = active_connections m !! u) as Hc.
  { apply disconnect_other_entry; [apply Hwf|]. apply Hnot. left. }
  rewrite IH, Hc; [done|by apply registry_wf_disconnect|].
  intros c' Hc' conns. rewrite Hc. apply Hnot. by right.
Qed.

Lemma broadcast_loop_reaches env message t d keys m0 failed w :
  message_parts message = Some (t, d) →
  registry_wf m0 → NoDup keys →
  mgr w = disconnect_list failed m0 →
  (∀ c u conns, c ∈ failed → u ∈ keys →
     active_connections m0 !! u = Some conns → c ∉ conns) →
  ∃ w' evs, broadcast_loop env message keys w = (Returned tt, w') ∧
    trace w' = trace w ++ evs ∧
    ∀ u conns c, u ∈ keys → active_connections m0 !! u = Some conns → c ∈ conns →
      ∃ ts ok, EvSendText c (mkWsMessage t d ts) ok ∈ evs ∧
               (ok = false → ∃ tr, send_raises env tr c = true).
Proof.
  intros Hp Hwf. revert failed w.
  induction keys as [|u keys IH]; intros failed w Hnd Hm Hdisj; simpl.
  - exists w, []. rewrite app_nil_r. split; [done|]. split; [done|].
    by intros u conns c ?%not_elem_of_nil.
  - apply NoDup_cons in Hnd as [Hu Hnd].
    assert (active_connections (mgr w) !! u = active_connections m0 !! u) as Hentry.
    { rewrite Hm. apply disconnect_list_other_entry; [done|].
      intros c Hc conns Hl. apply (Hdisj c u conns); [done|left|done]. }
    pose proof (send_user_message_delivery env message u w) as Hstep.
    destruct (send_user_message_spec env message u w)
      as (w1 & Heq & evs1 & Htr1 & Hev1 & Hsent1).
    assert ((send_user_message env message u;; broadcast_loop env message keys) w
            = broadcast_loop env message keys w1) as ->.
    { unfold mbind, M_bind. by rewrite Heq. }
    rewrite Heq in Hstep. cbn [snd] in Hstep.
    destruct (delivery_step_failed _ _ _ _ _ Hp Hstep)
      as (failed1 & evs1' & Hm1 & Htr1' & _ & Hf1).
    rewrite Htr1 in Htr1'. apply app_inv_head in Htr1' as <-.
    destruct (IH (failed ++ failed1) w1) as (w' & evs & -> & Htr & Hsent); [done| |  |].
    { by rewrite Hm1, Hm, disconnect_list_app. }
    { intros c u' conns' [Hc|Hc]%elem_of_app Hu' Hl'.
      - apply (Hdisj c u' conns'); [done|by right|done].
      - apply Hf1 in Hc as (m & Hin).
        destruct (Hev1 _ Hin) as (c' & m' & ok & conns & [= <- _ _] & Hl & Hc').
        rewrite Hentry in Hl. intros Hin'.
        destruct Hwf as ([_ Hrev] & _).
        destruct (Hrev _ _ _ Hl Hc') as (o1 & Ho1 & Hid1).
        destruct (Hrev _ _ _ Hl' Hin') as (o2 & Ho2 & Hid2).
        rewrite Ho1 in Ho2. injection Ho2 as <-. subst. done. }
    exists w', (evs1 ++ evs). split; [done|].
    split; [by rewrite Htr, Htr1, app_assoc|].
    intros u' conns c [->|Hu']%elem_of_cons Hl Hin.
    + rewrite <- Hentry in Hl.
      destruct (Hsent1 t d Hp conns c Hl Hin) as (ts & ok & Hts & Hok).
      exists ts, ok. split; [|done]. apply elem_of_app. by left.
    + destruct (Hsent u' conns c Hu' Hl Hin) as (ts & ok & Hts & Hok).
      exists ts, ok. split; [|done]. apply elem_of_app. by right.
Qed.

Lemma broadcast_message_reaches env message t d w :
  message_parts message = Some (t, d) →
  registry_wf (mgr w) →
  ∃ w' evs, broadcast_message env message w = (Returned tt, w') ∧
    trace w' = trace w ++ evs ∧
    registry_wf (mgr w') ∧
    ∀ ws user, connection_users (mgr w) !! ws = Some user →
      ∃ ts ok, EvSendText ws (mkWsMessage t d ts) ok ∈ evs ∧
               (ok = false → ∃ tr, send_raises env tr ws = true).
Proof.
  intros Hp Hwf. unfold broadcast_message.
  unfold mbind at 1, M_bind at 1, get_mgr. simpl.
  destruct (broadcast_loop_delivery env message
              ((map_to_list (active_connections (mgr w))).*1) w) as [_ Hstep].
  destruct (broadcast_loop_reaches env message t d
              ((map_to_list (active_connections (mgr w))).*1) (mgr w) [] w)
    as (w' & evs & Heq & Htr & Hsent); try done.
  { apply NoDup_fst_map_to_list. }
  { by intros c u conns ?%not_elem_of_nil. }
  rewrite Heq in *. simpl in Hstep.
  exists w', evs. split; [done|]. split; [done|].
  split; [by apply (delivery_step_wf message w)|].
  intros ws user Hu. destruct Hwf as (_ & Hfwd & _).
  destruct (Hfwd _ _ Hu) as (conns & Hl & Hin).
  apply (Hsent (id user) conns ws); [|done|done].
  apply list_elem_of_fmap. exists (id user, conns). split; [done|].
  by apply elem_of_map_to_list.
Qed.

(** In a well-formed registry [broadcast_message] returns and puts a
    send of the (well-formed) message on every connection that is
    registered when the call starts; a send that raises on one
    connection keeps none of the others from getting theirs. *)
Theorem broadcast_reaches_everyone env message t d w :
  message_parts message = Some (t, d) →
  registry_wf (mgr w) →
  ∃ w' evs, broadcast_message env message w = (Returned tt, w') ∧
    trace w' = trace w ++ evs ∧
    ∀ ws user, connection_users (mgr w) !! ws = Some user →
      ∃ ts ok, EvSendText ws (mkWsMessage t d ts) ok ∈ evs ∧
               (ok = false → ∃ tr, send_raises env tr ws = true).
Proof.
  intros Hp Hwf.
  destruct (broadcast_message_reaches env message t d w Hp Hwf)
    as (w' & evs & Heq & Htr & _ & Hsent).
  by exists w', evs.
Qed.

Lemma registry_wf_world_three : registry_wf (mgr world_three).
Proof.
  split; [split|split].
  - do 3 apply no_empty_entry_exec. apply no_empty_entry_init.
  - do 3 (apply reverse_consistent_exec; [reflexivity|]).
    apply reverse_consistent_init.
  - do 3 apply forward_consistent_exec. apply registry_wf_init.
  - do 3 apply metadata_consistent_exec. apply registry_wf_init.
Qed.

Lemma broadcast_reaches_everyone_witness :
  ∃ w' evs, broadcast_message env_broken_10 ping_message world_three = (Returned tt, w') ∧
    trace w' = trace world_three ++ evs ∧
    ∀ ws user, connection_users (mgr world_three) !! ws = Some user →
      ∃ ts ok, EvSendText ws (mkWsMessage "notification" [("message", VStr "ping")] ts) ok
                 ∈ evs ∧
               (ok = false → ∃ tr, send_raises env_broken_10 tr ws = true).
Proof.
  apply (broadcast_reaches_everyone env_broken_10 ping_message
           "notification" [("message", VStr "ping")] world_three).
  - reflexivity.
  - apply registry_wf_world_three.
Defined.

(** ** When [send_role_message] raises *)

Lemma send_user_loop_raising env message t d conns disc w :
  message_parts message = Some (t, d) →
  (∀ c tr, c ∈ conns → send_raises env tr c = true) →
  ∃ w' evs, send_user_loop env message conns disc w = (Returned disc, w') ∧
    trace w' = trace w ++ evs ∧
    ∀ c, c ∈ conns → ∃ ts, EvSendText c (mkWsMessage t d ts) false ∈ evs.
Proof.
  intros Hp. revert w. induction conns as [|c conns IH]; intros w Hr; simpl.
  - exists w, []. rewrite app_nil_r. split; [done|]. split; [done|].
    by intros c ?%not_elem_of_nil.
  - unfold mbind at 1, M_bind at 1, try_except at 1, mbind at 1, M_bind at 1.
    rewrite (send_personal_message_well_formed _ _ _ _ _ _ Hp). cbn zeta.
    rewrite Hr by left. simpl.
    set (ev := EvSendText c (mkWsMessage t d (clock env (ticks w))) false).
    destruct (IH (mkWorld (disconnect c (mgr w)) (trace w ++ [ev]) (S (ticks w))))
      as (w' & evs & -> & Htr & Hsent).
    { intros c' tr Hc'. apply Hr. by right. }
    exists w', (ev :: evs). split; [done|].
    split; [by rewrite Htr; simpl; rewrite <- app_assoc|].
    intros c' [->|Hc']%elem_of_cons.
    + eexists. left.
    + destruct (Hsent c' Hc') as [ts Hts]. exists ts. by right.
Qed.

Lemma disconnect_list_entry_gone l m u conns :
  registry_wf m →
  active_connections m !! u = Some conns →
  (∀ c, c ∈ conns → c ∈ l) →
  active_connections (disconnect_list l m) !! u = None.
Proof.
  intros Hwf Hl Hall.
  destruct (active_connections (disconnect_list l m) !! u) as [conns'|] eqn:E; [|done].
  pose proof (registry_wf_disconnect_list l m Hwf) as ([Hne _] & _).
  destruct (set_choose_L conns' (Hne _ _ E)) as [c Hc].
  destruct (disconnect_list_no_new_member _ _ _ _ _ E Hc) as (conns0 & Hl0 & Hc0).
  rewrite Hl in Hl0. injection Hl0 as <-.
  destruct (disconnect_list_evicted l m c (Hall c Hc0)) as [_ Hno].
  destruct Hwf as ([_ Hrev] & _). by destruct (Hno Hrev u conns' E).
Qed.

Lemma send_role_loop_changed env message role' used keys w :
  size (active_connections (mgr w)) ≠ used →
  (send_role_loop env message role' used keys w).1
  = Raised (RuntimeError "dictionary changed size during iteration").
Proof.
  intros Hs. destruct keys as [|u keys]; simpl.
  - rewrite dict_iter_check_eq. by rewrite decide_False.
  - unfold mbind at 1, M_bind at 1. rewrite dict_iter_check_eq.
    by rewrite decide_False.
Qed.

Lemma send_role_step_events env message role' user_id w :
  ∃ w' evs, send_role_step env message role' user_id w = (Returned tt, w') ∧
    delivery_step message w w' ∧
    trace w' = trace w ++ evs ∧
    ∀ e, e ∈ evs → ∃ c m ok conns, e = EvSendText c m ok ∧
      active_connections (mgr w) !! user_id = Some conns ∧ c ∈ conns.
Proof.
  unfold send_role_step. unfold mbind at 1, M_bind at 1, get_mgr. simpl.
  assert (∃ w' evs, (mret tt : M unit) w = (Returned tt, w') ∧
            delivery_step message w w' ∧ trace w' = trace w ++ evs ∧
            ∀ e, e ∈ evs → ∃ c m ok conns, e = EvSendText c m ok ∧
              active_connections (mgr w) !! user_id = Some conns ∧ c ∈ conns) as Hret.
  { exists w, []. rewrite app_nil_r. split; [done|].
    split; [by apply delivery_step_same|]. split; [done|].
    by intros e ?%not_elem_of_nil. }
  destruct (active_connections (mgr w) !! user_id) as [connections|] eqn:El; [|done].
  destruct (first_connection connections) as [websocket|]; [|done].
  destruct (connection_users (mgr w) !! websocket) as [user|]; [|done].
  destruct (String.eqb (role_value (role user)) role'); [|done].
  pose proof (send_user_message_delivery env message user_id w) as Hstep.
  destruct (send_user_message_spec env message user_id w)
    as (w1 & Heq & evs & Htr & Hev & _).
  rewrite Heq in *. exists w1, evs. repeat (split; [done|]).
  intros e He. destruct (Hev e He) as (c & m & ok & conns & -> & Hl & Hc).
  rewrite El in Hl. injection Hl as <-. by eauto 10.
Qed.

Lemma first_connection_elem conns ws : first_connection conns = Some ws → ws ∈ conns.
Proof.
  unfold first_connection. intros H. apply elem_of_elements.
  destruct (elements conns) as [|x l]; [done|]. injection H as ->. left.
Qed.

Lemma send_user_message_unfold env message user_id conns w w' :
  active_connections (mgr w) !! user_id = Some conns →
  send_user_loop env message (elements conns) ∅ w = (Returned ∅, w') →
  send_user_message env message user_id w = (Returned tt, w').
Proof.
  intros Hl Heq. unfold send_user_message. unfold mbind, M_bind, get_mgr. simpl.
  rewrite Hl, Heq. by rewrite elements_empty.
Qed.

Lemma send_user_message_raising env message t d user_id conns w :
  message_parts message = Some (t, d) →
  registry_wf (mgr w) →
  active_connections (mgr w) !! user_id = Some conns →
  (∀ c tr, c ∈ conns → send_raises env tr c = true) →
  ∃ w', send_user_message env message user_id w = (Returned tt, w') ∧
    delivery_step message w w' ∧
    active_connections (mgr w') !! user_id = None.
Proof.
  intros Hp Hwf Hl Hr.
  pose proof (send_user_message_delivery env message user_id w) as Hstep.
  destruct (send_user_loop_raising env message t d (elements conns) ∅ w Hp)
    as (w' & evs & Heq & Htr & Hsent).
  { intros c tr Hc. apply Hr. by apply elem_of_elements. }
  rewrite (send_user_message_unfold _ _ _ _ _ _ Hl Heq) in *. cbn [snd] in Hstep.
  exists w'. split; [done|]. split; [done|].
  destruct (delivery_step_failed _ _ _ _ _ Hp Hstep)
    as (failed & evs' & Hm & Htr' & _ & Hf).
  rewrite Htr in Htr'. apply app_inv_head in Htr' as <-.
  rewrite Hm. apply (disconnect_list_entry_gone failed (mgr w) user_id conns); try done.
  intros c Hc. apply Hf. destruct (Hsent c) as [ts Hts]; [by apply elem_of_elements|].
  by eexists.
Qed.

Lemma send_role_loop_raises env message t d role' keys m0 u conns ws0 user0 :
  message_parts message = Some (t, d) →
  registry_wf m0 →
  active_connections m0 !! u = Some conns →
  first_connection conns = Some ws0 →
  connection_users m0 !! ws0 = Some user0 →
  role_value (role user0) = role' →
  (∀ c tr, c ∈ conns → send_raises env tr c = true) →
  ∀ failed w,
    NoDup keys → u ∈ keys →
    mgr w = disconnect_list failed m0 →
    (∀ c u' conns', c ∈ failed → u' ∈ keys →
       active_connections m0 !! u' = Some conns' → c ∉ conns') →
    (send_role_loop env message role' (size (active_connections m0)) keys w).1
    = Raised (RuntimeError "dictionary changed size during iteration").
Proof.
  intros Hp Hwf Hl Hfirst Hu0 Hrole Hraise.
  induction keys as [|u1 keys IH]; intros failed w Hnd Hin Hm Hdisj.
  { by apply not_elem_of_nil in Hin. }
  destruct (decide (size (active_connections (mgr w)) = size (active_connections m0)))
    as [Hsize|Hsize]; [|by apply send_role_loop_changed].
  apply NoDup_cons in Hnd as [Hu1 Hnd].
  assert (registry_wf (mgr w)) as Hwfw.
  { rewrite Hm. by apply registry_wf_disconnect_list. }
  assert (active_connections (mgr w) !! u1 = active_connections m0 !! u1) as Hentry.
  { rewrite Hm. apply disconnect_list_other_entry; [done|].
    intros c Hc conns' Hl'. apply (Hdisj c u1 conns'); [done|left|done]. }
  simpl. unfold mbind at 1, M_bind at 1. rewrite dict_iter_check_eq.
  rewrite decide_True by done. unfold mbind at 1, M_bind at 1.
  destruct (decide (u1 = u)) as [->|Hne].
  - (* the step of the user whose sends all raise *)
    rewrite Hl in Hentry.
    assert (send_role_step env message role' u w = send_user_message env message u w)
      as ->.
    { unfold send_role_step. unfold mbind at 1, M_bind at 1, get_mgr. simpl.
      rewrite Hentry, Hfirst.
      assert (connection_users (mgr w) !! ws0 = Some user0) as ->.
      { rewrite Hm.
        destruct (disconnect_list_untouched failed m0 ws0) as (-> & _); [|done].
        intros Hf. apply (Hdisj ws0 u conns); [done|left|done|].
        by apply first_connection_elem. }
      rewrite Hrole. by rewrite String.eqb_refl. }
    destruct (send_user_message_raising env message t d u conns w Hp Hwfw Hentry Hraise)
      as (w1 & -> & Hstep & Hgone).
    apply send_role_loop_changed.
    pose proof (delivery_step_dom _ _ _ Hstep) as Hsub.
    assert (dom (active_connections (mgr w1)) ⊂ dom (active_connections (mgr w)))
      as Hstrict.
    { split; [done|]. intros Hrev.
      assert (u ∈ dom (active_connections (mgr w))) as Hdom by (apply elem_of_dom; eauto).
      apply Hrev, elem_of_dom in Hdom as [? ?]. congruence. }
    apply subset_size in Hstrict. rewrite !size_dom in Hstrict. lia.
  - destruct (send_role_step_events env message role' u1 w)
      as (w1 & evs1 & -> & Hstep & Htr1 & Hev1).
    destruct (delivery_step_failed _ _ _ _ _ Hp Hstep)
      as (failed1 & evs1' & Hm1 & Htr1' & _ & Hf1).
    rewrite Htr1 in Htr1'. apply app_inv_head in Htr1' as <-.
    apply (IH (failed ++ failed1)); try done.
    + apply elem_of_cons in Hin as [?|?]; [congruence|done].
    + by rewrite Hm1, Hm, disconnect_list_app.
    + intros c u' conns' [Hc|Hc]%elem_of_app Hu' Hl'.
      * apply (Hdisj c u' conns'); [done|by right|done].
      * apply Hf1 in Hc as (m & Hev).
        destruct (Hev1 _ Hev) as (c' & m' & ok & conns1 & [= <- _ _] & Hl1 & Hc').
        rewrite Hentry in Hl1. intros Hin'.
        destruct Hwf as ([_ Hrev] & _).
        destruct (Hrev _ _ _ Hl1 Hc') as (o1 & Ho1 & Hid1).
        destruct (Hrev _ _ _ Hl' Hin') as (o2 & Ho2 & Hid2).
        rewrite Ho1 in Ho2. injection Ho2 as <-. subst. done.
Qed.

(** In a well-formed registry, when a user whose role is the target
    role (as read from the first connection of the user's set) has the
    transport of every connection raising, [send_role_message] with a
    well-formed message raises the [RuntimeError] of the dictionary
    iterator: the failed sends empty the user's entry while the
    dictionary is being iterated. *)
Theorem send_role_message_raises env message t d role' w u conns ws0 user0 :
  message_parts message = Some (t, d) →
  registry_wf (mgr w) →
  active_connections (mgr w) !! u = Some conns →
  first_connection conns = Some ws0 →
  connection_users (mgr w) !! ws0 = Some user0 →
  role_value (role user0) = role' →
  (∀ c tr, c ∈ conns → send_raises env tr c = true) →
  (send_role_message env message role' w).1
  = Raised (RuntimeError "dictionary changed size during iteration").
Proof.
  intros Hp Hwf Hl Hfirst Hu0 Hrole Hraise. unfold send_role_message.
  unfold mbind at 1, M_bind at 1, get_mgr. simpl.
  apply (send_role_loop_raises env message t d role' _ (mgr w) u conns ws0 user0
           Hp Hwf Hl Hfirst Hu0 Hrole Hraise []); try done.
  - apply NoDup_fst_map_to_list.
  - apply list_elem_of_fmap. exists (u, conns). split; [done|].
    by apply elem_of_map_to_list.
  - by intros c u' conns' ?%not_elem_of_nil.
Qed.

Lemma registry_wf_world_two : registry_wf (mgr world_two).
Proof.
  split; [apply registry_invariant_world_two_aux|]. split.
  - do 2 apply forward_consistent_exec. apply registry_wf_init.
  - do 2 apply metadata_consistent_exec. apply registry_wf_init.
Qed.

Lemma send_role_message_raises_witness :
  (send_role_message env_broken_10 ping_message "reviewer" world_two).1
  = Raised (RuntimeError "dictionary changed size during iteration").
Proof.
  apply (send_role_message_raises env_broken_10 ping_message
           "notification" [("message", VStr "ping")] "reviewer" world_two
           1%positive {[10%N]} 10%N alice).
  - reflexivity.
  - apply registry_wf_world_two.
  - reflexivity.
  - reflexivity.
  - reflexivity.
  - reflexivity.
  - intros c tr ->%elem_of_singleton. reflexivity.
Defined.

(** ** Registering and unregistering is a round trip *)

Lemma disconnect_add_connection websocket user t1 t2 m :
  registry_wf m → unregistered websocket m →
  disconnect websocket (add_connection websocket user t1 t2 m) = m.
Proof.
  intros ([Hne Hrev] & _) [Hu Hm]. apply manager_eq.
  - apply map_eq. intros u. rewrite disconnect_active.
    assert (connection_users (add_connection websocket user t1 t2 m) !! websocket
            = Some user) as -> by (unfold add_connection; simpl; apply lookup_insert_eq).
    rewrite add_connection_active.
    destruct (decide (u = id user)) as [->|Hne']; [|done].
    simpl.
    destruct (active_connections m !! id user) as [conns|] eqn:E; simpl.
    + assert (websocket ∉ conns) as Hnin.
      { intros Hin. destruct (Hrev _ _ _ E Hin) as (o & Ho & _). congruence. }
      assert (({[websocket]} ∪ conns) ∖ {[websocket]} = conns) as -> by set_solver.
      rewrite decide_False; [done|]. by apply (Hne (id user)).
    + rewrite decide_True; [done|set_solver].
  - unfold disconnect, add_connection. simpl.
    rewrite delete_insert_eq. by apply delete_id.
  - unfold disconnect, add_connection. simpl.
    rewrite delete_insert_eq. by apply delete_id.
Qed.

Lemma unregistered_world_init websocket : unregistered websocket (mgr world_init).
Proof. split; apply lookup_empty. Qed.

(** In a well-formed registry, [connect] on a connection that is not
    registered followed by [disconnect] gives the registry back, whether
    the handshake is refused, the welcome cannot be sent, or both
    succeed: the user's set (or the absence of the user's entry), the
    reverse lookup and the metadata are as they were. *)
Theorem connect_disconnect_round_trip env websocket user w :
  registry_wf (mgr w) → unregistered websocket (mgr w) →
  disconnect websocket (mgr (connect env websocket user w).2) = mgr w.
Proof.
  intros Hwf Hun.
  destruct (connect_mgr env websocket user w) as [->|(t1 & t2 & [-> | ->])].
  - by apply disconnect_unregistered.
  - by apply disconnect_add_connection.
  - rewrite disconnect_disconnect. by apply disconnect_add_connection.
Qed.

Lemma connect_disconnect_round_trip_witness :
  disconnect 10 (mgr (connect env_broken_10 10 alice world_init).2) = mgr world_init.
Proof.
  apply connect_disconnect_round_trip.
  - apply registry_wf_init.
  - apply (unregistered_world_init 10).
Defined.

(** ** Heartbeats *)

Lemma handle_heartbeat_eq env websocket w :
  handle_heartbeat env websocket w =
  match connection_metadata (mgr w) !! websocket with
  | None => (Returned tt, w)
  | Some _ =>
      let tk := ticks w in
      let m1 := touch_heartbeat websocket (clock env tk) (mgr w) in
      let msg := heartbeat_ack (clock env (S tk)) (clock env (S (S tk))) in
      if send_raises env (trace w) websocket
      then (Returned tt,
            mkWorld (disconnect websocket m1) (trace w ++ [EvSendText websocket msg false])
                    (S (S (S tk))))
      else (Returned tt,
            mkWorld m1 (trace w ++ [EvSendText websocket msg true]) (S (S (S tk))))
  end.
Proof.
  unfold handle_heartbeat. unfold mbind at 1, M_bind at 1, get_mgr. simpl.
  destruct (connection_metadata (mgr w) !! websocket) as [md|]; [|done].
  unfold_m. simpl.
  erewrite send_personal_message_well_formed by reflexivity. simpl.
  by destruct (send_raises env (trace w) websocket).
Qed.

Lemma registry_wf_touch websocket t m :
  registry_wf m → registry_wf (touch_heartbeat websocket t m).
Proof.
  intros (Hinv & Hfwd & Hmd). split; [done|]. split; [done|].
  intros ws. unfold touch_heartbeat. simpl.
  etrans; [|apply Hmd]. rewrite lookup_alter.
  case_decide; [subst; apply fmap_is_Some|done].
Qed.

(** [handle_heartbeat] returns; for a connection without metadata it
    does nothing at all (no acknowledgement is sent); it changes the
    reverse-lookup entry and the metadata of no other connection; if the
    connection still has metadata afterwards, its [connected_at] is the
    old one and its [last_heartbeat] is the clock read of the call; and a
    well-formed registry stays well-formed. *)
Theorem handle_heartbeat_spec env websocket w :
  let r := handle_heartbeat env websocket w in
  r.1 = Returned tt ∧
  (connection_metadata (mgr w) !! websocket = None → r.2 = w) ∧
  (∀ ws, ws ≠ websocket →
     connection_users (mgr r.2) !! ws = connection_users (mgr w) !! ws ∧
     connection_metadata (mgr r.2) !! ws = connection_metadata (mgr w) !! ws) ∧
  (∀ md', connection_metadata (mgr r.2) !! websocket = Some md' →
     ∃ md, connection_metadata (mgr w) !! websocket = Some md ∧
           connected_at md' = connected_at md ∧
           last_heartbeat md' = clock env (ticks w)) ∧
  (registry_wf (mgr w) → registry_wf (mgr r.2)).
Proof.
  cbn zeta. rewrite handle_heartbeat_eq.
  destruct (connection_metadata (mgr w) !! websocket) as [md|] eqn:E.
  - cbn zeta.
    assert (∀ ws, connection_metadata (touch_heartbeat websocket (clock env (ticks w)) (mgr w)) !! ws
                  = if decide (ws = websocket)
                    then Some (mkMetadata (connected_at md) (clock env (ticks w)))
                    else connection_metadata (mgr w) !! ws) as Htouch.
    { intros ws. unfold touch_heartbeat. simpl. rewrite lookup_alter.
      destruct (decide (websocket = ws)) as [<-|Hne].
      - by rewrite decide_True, E.
      - by rewrite decide_False. }
    destruct (send_raises env (trace w) websocket); cbn [fst snd mgr].
    + split; [done|]. split; [done|]. split; [|split].
      * intros ws Hne. rewrite disconnect_users, disconnect_metadata, Htouch.
        by rewrite !decide_False.
      * intros md'. rewrite disconnect_metadata. by rewrite decide_True.
      * intros Hwf. by apply registry_wf_disconnect, registry_wf_touch.
    + split; [done|]. split; [done|]. split; [|split].
      * intros ws Hne. rewrite Htouch. by rewrite decide_False.
      * intros md'. rewrite Htouch, decide_True by done. intros [= <-].
        by exists md.
      * intros Hwf. by apply registry_wf_touch.
  - split; [done|]. split; [done|]. split; [done|]. split; [|done].
    intros md'. cbn [snd]. by rewrite E.
Qed.

(** ** A session leaves the registry as it found it *)

Lemma touch_add_connection websocket user t1 t2 t m :
  touch_heartbeat websocket t (add_connection websocket user t1 t2 m)
  = add_connection websocket user t1 t m.
Proof.
  unfold touch_heartbeat, add_connection. simpl. f_equal.
  by rewrite alter_insert_eq.
Qed.

(** The receive loop handles no frame: at the first text [json.loads]
    raises [NameError], which ends the loop as a disconnect does.  The
    world is left as it was. *)
Lemma receive_loop_eq env websocket frames w :
  receive_loop env websocket frames w = (Returned tt, w).
Proof. by destruct frames as [|[|data] frames]. Qed.

Section session.
Context (env : Env) (m : ConnectionManager) (websocket : WebSocket) (user : User).
Hypothesis Hwf : registry_wf m.
Hypothesis Hun : unregistered websocket m.

Lemma handle_heartbeat_in_session w :
  in_session m websocket user w →
  ∃ w', handle_heartbeat env websocket w = (Returned tt, w') ∧
        in_session m websocket user w'.
Proof.
  intros [Hm|(t1 & t2 & Hm)]; rewrite handle_heartbeat_eq, Hm.
  - destruct Hun as [_ ->]. exists w. split; [done|by left].
  - assert (connection_metadata (add_connection websocket user t1 t2 m) !! websocket
            = Some (mkMetadata t1 t2)) as ->
      by (unfold add_connection; simpl; apply lookup_insert_eq).
    cbn zeta. rewrite touch_add_connection.
    destruct (send_raises env (trace w) websocket); eexists; (split; [done|]).
    + left. simpl. by apply disconnect_add_connection.
    + right. simpl. by eauto.
Qed.

Lemma receive_loop_in_session frames w :
  in_session m websocket user w →
  ∃ w', receive_loop env websocket frames w = (Returned tt, w') ∧
        in_session m websocket user w'.
Proof. intros Hs. exists w. by rewrite receive_loop_eq. Qed.

Lemma disconnect_in_session w :
  in_session m websocket user w → disconnect websocket (mgr w) = m.
Proof.
  intros [->|(t1 & t2 & ->)].
  - by apply disconnect_unregistered.
  - by apply disconnect_add_connection.
Qed.

Lemma connect_in_session w :
  mgr w = m →
  ∃ r w', connect env websocket user w = (r, w') ∧
    ((r = Returned tt ∧ in_session m websocket user w') ∨
     (r = Raised (RuntimeError "accept") ∧ mgr w' = m)).
Proof.
  intros Hm. rewrite connect_eq.
  destruct (accept_raises env (trace w) websocket).
  { do 2 eexists. split; [done|]. by right. }
  cbn zeta. rewrite Hm.
  destruct (send_raises env _ websocket); do 2 eexists; (split; [done|]); left;
    (split; [done|]).
  - left. simpl. by apply disconnect_add_connection.
  - right. simpl. by eauto.
Qed.
End session.

Lemma get_current_user_cases env tok w :
  (∃ user, get_current_user env tok w = (Returned user, w) ∧
           tok ≠ "" ∧ verify_token env tok = Some user ∧ is_active user = true) ∨
  (∃ e, get_current_user env tok w = (Raised e, w) ∧ credential_rejected_or_empty env tok).
Proof.
  unfold get_current_user, credential_rejected_or_empty.
  destruct (String.eqb_spec tok "") as [->|Hne].
  { right. eexists. split; [done|]. by left. }
  destruct (verify_token env tok) as [user|] eqn:E.
  - destruct (is_active user) eqn:Ea.
    + left. by exists user.
    + right. eexists. split; [done|]. right. intros user' Hv.
      rewrite E in Hv. by injection Hv as <-.
  - right. eexists. split; [done|]. right. intros user' Hv. by rewrite E in Hv.
Qed.

(** Whatever the token, the frames and the transport: when the endpoint
    is entered in a well-formed registry with a connection that is not
    registered, the registry it leaves behind is the registry it found,
    whether it returns or raises. *)
Theorem session_leaves_registry env websocket token frames w :
  registry_wf (mgr w) → unregistered websocket (mgr w) →
  mgr (websocket_endpoint env websocket token frames w).2 = mgr w.
Proof.
  intros Hwf Hun.
  destruct (token_missing token) eqn:Hmiss.
  { by rewrite endpoint_missing_token. }
  unfold websocket_endpoint. rewrite Hmiss.
  unfold mbind at 1, M_bind at 1, try_except. unfold mbind at 1, M_bind at 1.
  destruct (get_current_user_cases env (default "" token) w)
    as [(user & -> & _)|(e & -> & _)].
  - simpl.
    destruct (connect_in_session env (mgr w) websocket user Hwf Hun w eq_refl)
      as (r & w1 & Hc & [[-> Hs]|[-> Hm]]);
      unfold mbind at 1, M_bind at 1; rewrite Hc; [|done].
    unfold try_finally.
    destruct (receive_loop_in_session env (mgr w) websocket user frames w1 Hs)
      as (w2 & -> & Hs2).
    simpl. by apply (disconnect_in_session (mgr w) websocket user).
  - unfold mbind at 1, M_bind at 1. rewrite close_eq. cbn zeta.
    by destruct (negb (close_raises env (trace w) websocket)).
Qed.

Lemma session_leaves_registry_witness :
  mgr (websocket_endpoint env_quiet 10 (Some "alice-token")
         [FrameText "heartbeat"] world_init).2
  = mgr world_init.
Proof.
  apply session_leaves_registry.
  - apply registry_wf_init.
  - apply (unregistered_world_init 10).
Defined.

(** The endpoint accepts a handshake only for a token that is not empty
    and for which the authentication service names an active user. *)
Theorem accept_requires_credential env websocket token frames w evs ws ok :
  trace (websocket_endpoint env websocket token frames w).2 = trace w ++ evs →
  EvAccept ws ok ∈ evs →
  ∃ tok user, token = Some tok ∧ tok ≠ "" ∧
              verify_token env tok = Some user ∧ is_active user = true.
Proof.
  intros Htr Hin.
  destruct (token_missing token) eqn:Hmiss.
  { rewrite endpoint_missing_token in Htr by done. cbn [snd trace] in Htr.
    apply app_inv_head in Htr as <-. by apply list_elem_of_singleton in Hin. }
  destruct token as [tok|]; [|done]. simpl in Hmiss.
  apply String.eqb_neq in Hmiss.
  destruct (get_current_user_cases env tok w)
    as [(user & _ & _ & Hv & Ha)|(e & _ & [->|Hrej])]; [by exists tok, user|done|].
  rewrite endpoint_rejected_token in Htr by done. cbn [snd trace] in Htr.
  apply app_inv_head in Htr as <-. by apply list_elem_of_singleton in Hin.
Qed.

Lemma accept_requires_credential_witness :
  ∃ tok user, Some "alice-token" = Some tok ∧ tok ≠ "" ∧
              verify_token env_quiet tok = Some user ∧ is_active user = true.
Proof.
  apply (accept_requires_credential env_quiet 10 (Some "alice-token") [] world_init
           [EvAccept 10 true;
            EvSendText 10 (welcome_message alice 2 3) true] 10 true).
  - reflexivity.
  - left.
Defined.

(** ** After a sweep *)

Lemma disconnect_list_metadata l m ws md :
  connection_metadata (disconnect_list l m) !! ws = Some md →
  connection_metadata m !! ws = Some md ∧ ws ∉ l.
Proof.
  revert m. induction l as [|c l IH]; intros m H; simpl in *.
  { split; [done|]. by intros ?%not_elem_of_nil. }
  apply IH in H as [H Hnin]. rewrite disconnect_metadata in H.
  case_decide as Hc; [done|]. split; [done|].
  by intros [?|?]%elem_of_cons.
Qed.

(** After a sweep every connection that still has metadata has the
    metadata it had before, with a heartbeat no older than the cut-off;
    a well-formed registry stays well-formed; and a sweep that finds no
    heartbeat older than the cut-off changes nothing in the registry and
    closes nothing. *)
Theorem sweep_leaves_no_stale env settings w :
  let r := cleanup_stale_connections env settings w in
  (∀ ws md, connection_metadata (mgr r.2) !! ws = Some md →
     connection_metadata (mgr w) !! ws = Some md ∧
     sweep_cutoff env settings w ≤ last_heartbeat md) ∧
  (registry_wf (mgr w) → registry_wf (mgr r.2)) ∧
  ((∀ ws md, connection_metadata (mgr w) !! ws = Some md →
      sweep_cutoff env settings w ≤ last_heartbeat md) →
   mgr r.2 = mgr w ∧ trace r.2 = trace w).
Proof.
  cbn zeta.
  destruct (cleanup_stale_connections_eq env settings w)
    as (stale & w' & -> & Hm & Hst & evs & Htr & Hev & Hcl).
  cbn [snd]. rewrite Hm. split; [|split].
  - intros ws md [Hmd Hnin]%disconnect_list_metadata. split; [done|].
    destruct (Z.le_gt_cases (sweep_cutoff env settings w) (last_heartbeat md))
      as [?|Hlt]; [done|].
    destruct Hnin. apply Hst. by exists md.
  - apply registry_wf_disconnect_list.
  - intros Hfresh.
    assert (stale = []) as ->.
    { destruct stale as [|ws stale]; [done|].
      destruct (proj1 (Hst ws)) as (md & Hmd & Hlt); [left|].
      specialize (Hfresh ws md Hmd). lia. }
    split; [done|]. rewrite Htr.
    destruct evs as [|e evs]; [by rewrite app_nil_r|].
    destruct (Hev e) as (ws & ok & _ & Hin); [left|]. by apply not_elem_of_nil in Hin.
Qed.

Lemma sweep_leaves_no_stale_witness :
  mgr (cleanup_stale_connections env_quiet default_settings world_boundary).2
    = mgr world_boundary ∧
  trace (cleanup_stale_connections env_quiet default_settings world_boundary).2
    = trace world_boundary.
Proof.
  apply (sweep_leaves_no_stale env_quiet default_settings world_boundary).
  intros ws md H. simpl in H.
  apply lookup_singleton_Some in H as [<- <-]. vm_compute. discriminate.
Defined.

(** ** The notifications under failing transports *)

Lemma send_role_message_raising env message t d role' w u conns ws0 user0 :
  message_parts message = Some (t, d) →
  registry_wf (mgr w) →
  active_connections (mgr w) !! u = Some conns →
  first_connection conns = Some ws0 →
  connection_users (mgr w) !! ws0 = Some user0 →
  role_value (role user0) = role' →
  (∀ c tr, c ∈ conns → send_raises env tr c = true) →
  ∃ w', send_role_message env message role' w
        = (Raised (RuntimeError "dictionary changed size during iteration"), w').
Proof.
  intros Hp Hwf Hl Hfirst Hu0 Hrole Hraise.
  assert ((send_role_message env message role' w).1
          = Raised (RuntimeError "dictionary changed size during iteration")) as H.
  { unfold send_role_message. unfold mbind at 1, M_bind at 1, get_mgr. simpl.
    apply (send_role_loop_raises env message t d role' _ (mgr w) u conns ws0 user0
             Hp Hwf Hl Hfirst Hu0 Hrole Hraise []); try done.
    - apply NoDup_fst_map_to_list.
    - apply list_elem_of_fmap. exists (u, conns). split; [done|].
      by apply elem_of_map_to_list.
    - by intros c u' conns' ?%not_elem_of_nil. }
  destruct (send_role_message env message role' w) as [r w1].
  simpl in H. subst r. by exists w1.
Qed.

Lemma send_role_message_cases env message role' w :
  ∃ r w', send_role_message env message role' w = (r, w') ∧
    (r = Returned tt ∨
     r = Raised (RuntimeError "dictionary changed size during iteration")).
Proof.
  unfold send_role_message. unfold mbind at 1, M_bind at 1, get_mgr. simpl.
  destruct (send_role_loop_outcome env message role'
              (size (active_connections (mgr w)))
              ((map_to_list (active_connections (mgr w))).*1) w)
    as (r & w' & -> & _ & [[-> _]|[-> _]]); eauto.
Qed.

Lemma notify_new_detection_cases env detection_id is_anomaly confidence w :
  ∃ r w', notify_new_detection env detection_id is_anomaly confidence w = (r, w') ∧
    (r = Returned tt ∨
     r = Raised (RuntimeError "dictionary changed size during iteration")).
Proof.
  unfold notify_new_detection. unfold mbind at 1, M_bind at 1, now.
  set (w0 := mkWorld (mgr w) (trace w) (S (ticks w))).
  set (message := [("type", VStr "new_detection"); _]).
  unfold mbind at 1, M_bind at 1.
  destruct (send_role_message_cases env message "reviewer" w0)
    as (r & w1 & -> & [-> | ->]).
  - apply send_role_message_cases.
  - eauto.
Qed.

Lemma notify_new_detection_raising env w u conns ws0 user0
    detection_id is_anomaly confidence :
  registry_wf (mgr w) →
  active_connections (mgr w) !! u = Some conns →
  first_connection conns = Some ws0 →
  connection_users (mgr w) !! ws0 = Some user0 →
  role user0 = REVIEWER →
  (∀ c tr, c ∈ conns → send_raises env tr c = true) →
  ∃ w', notify_new_detection env detection_id is_anomaly confidence w
        = (Raised (RuntimeError "dictionary changed size during iteration"), w').
Proof.
  intros Hwf Hl Hfirst Hu0 Hrole Hr. unfold notify_new_detection.
  unfold mbind at 1, M_bind at 1, now.
  set (w0 := mkWorld (mgr w) (trace w) (S (ticks w))).
  set (message := [("type", VStr "new_detection"); _]).
  unfold mbind at 1, M_bind at 1.
  destruct (send_role_message_raising env message "new_detection" _ "reviewer" w0
              u conns ws0 user0 eq_refl Hwf Hl Hfirst Hu0) as (w1 & ->); [|done|].
  - by rewrite Hrole.
  - by exists w1.
Qed.

Lemma notify_review_completed_returns env review_id detection_id verdict w :
  ∃ w', notify_review_completed env review_id detection_id verdict w = (Returned tt, w').
Proof.
  unfold notify_review_completed. unfold mbind at 1, M_bind at 1, now.
  set (w0 := mkWorld (mgr w) (trace w) (S (ticks w))).
  set (message := [("type", VStr "review_completed"); _]).
  unfold broadcast_message. unfold mbind at 1, M_bind at 1, get_mgr. simpl.
  destruct (broadcast_loop_delivery env message
              ((map_to_list (active_connections (mgr w))).*1) w0) as [Hr _].
  destruct (broadcast_loop env message _ w0) as [r w1]. simpl in Hr. subst r.
  by exists w1.
Qed.

(** In a well-formed registry [notify_review_completed] returns,
    whatever the transport does, leaves a well-formed registry, and puts
    a [review_completed] envelope on every connection registered when it
    is called; the send succeeds unless the transport of that very
    connection raises. *)
Theorem notify_review_completed_reaches_everyone env review_id detection_id verdict w :
  registry_wf (mgr w) →
  ∃ w' evs,
    notify_review_completed env review_id detection_id verdict w = (Returned tt, w') ∧
    trace w' = trace w ++ evs ∧
    registry_wf (mgr w') ∧
    ∀ ws user, connection_users (mgr w) !! ws = Some user →
      ∃ m ok, EvSendText ws m ok ∈ evs ∧ ws_type m = "review_completed" ∧
              (ok = false → ∃ tr, send_raises env tr ws = true).
Proof.
  intros Hwf. unfold notify_review_completed.
  unfold mbind at 1, M_bind at 1, now.
  set (w0 := mkWorld (mgr w) (trace w) (S (ticks w))).
  set (message := [("type", VStr "review_completed"); _]).
  destruct (broadcast_message_reaches env message "review_completed" _ w0 eq_refl Hwf)
    as (w' & evs & Heq & Htr & Hwf' & Hsent).
  exists w', evs. split; [done|]. split; [done|]. split; [done|].
  intros ws user Hu. destruct (Hsent ws user Hu) as (ts & ok & Hin & Hok).
  by eauto.
Qed.

Lemma notify_review_completed_reaches_everyone_witness :
  ∃ w' evs,
    notify_review_completed env_broken_10 5 7 "true_positive" world_two
      = (Returned tt, w') ∧
    trace w' = trace world_two ++ evs ∧
    registry_wf (mgr w') ∧
    ∀ ws user, connection_users (mgr world_two) !! ws = Some user →
      ∃ m ok, EvSendText ws m ok ∈ evs ∧ ws_type m = "review_completed" ∧
              (ok = false → ∃ tr, send_raises env_broken_10 tr ws = true).
Proof.
  apply notify_review_completed_reaches_everyone. apply registry_wf_world_two.
Defined.

Lemma disconnect_list_users_Some l m c user :
  connection_users (disconnect_list l m) !! c = Some user →
  connection_users m !! c = Some user.
Proof.
  revert m. induction l as [|ws l IH]; intros m H; simpl in *; [done|].
  apply IH in H. rewrite disconnect_users in H. by case_decide.
Qed.

Lemma role_coherent_disconnect_list l m :
  role_coherent m → role_coherent (disconnect_list l m).
Proof.
  intros Hco u conns c1 c2 u1 u2 Hl H1 H2 Hu1 Hu2.
  destruct (disconnect_list_no_new_member _ _ _ _ _ Hl H1) as (cs & Hcs & Hc1).
  destruct (disconnect_list_no_new_member _ _ _ _ _ Hl H2) as (cs' & Hcs' & Hc2).
  rewrite Hcs in Hcs'. injection Hcs' as <-.
  apply (Hco u cs c1 c2 u1 u2); eauto using disconnect_list_users_Some.
Qed.

(** With one role per user, a pass of [send_role_message] puts sends on
    connections of users with the target role only, whatever the
    transport does. *)
Lemma send_role_step_targets env message role' user_id w :
  registry_wf (mgr w) → role_coherent (mgr w) →
  ∃ w' evs, send_role_step env message role' user_id w = (Returned tt, w') ∧
    delivery_step message w w' ∧
    trace w' = trace w ++ evs ∧
    ∀ e, e ∈ evs → ∃ c msg ok user, e = EvSendText c msg ok ∧
      connection_users (mgr w) !! c = Some user ∧ role_value (role user) = role'.
Proof.
  intros ([_ Hrev] & _) Hco.
  unfold send_role_step. unfold mbind at 1, M_bind at 1, get_mgr. simpl.
  assert (∃ w' evs, (mret tt : M unit) w = (Returned tt, w') ∧
            delivery_step message w w' ∧ trace w' = trace w ++ evs ∧
            ∀ e, e ∈ evs → ∃ c msg ok user, e = EvSendText c msg ok ∧
              connection_users (mgr w) !! c = Some user ∧
              role_value (role user) = role') as Hret.
  { exists w, []. rewrite app_nil_r. split; [done|].
    split; [by apply delivery_step_same|]. split; [done|].
    by intros e ?%not_elem_of_nil. }
  destruct (active_connections (mgr w) !! user_id) as [connections|] eqn:El; [|done].
  destruct (first_connection connections) as [websocket|] eqn:Ef; [|done].
  destruct (connection_users (mgr w) !! websocket) as [user|] eqn:Eu; [|done].
  destruct (String.eqb_spec (role_value (role user)) role') as [Hrole|_]; [|done].
  pose proof (send_user_message_delivery env message user_id w) as Hstep.
  destruct (send_user_message_spec env message user_id w)
    as (w1 & Heq & evs & Htr & Hev & _).
  rewrite Heq in *. exists w1, evs. repeat (split; [done|]).
  intros e He. destruct (Hev e He) as (c & msg & ok & conns & -> & Hl & Hc).
  rewrite El in Hl. injection Hl as <-.
  destruct (Hrev _ _ _ El Hc) as (user_c & Huc & _).
  exists c, msg, ok, user_c. split; [done|]. split; [done|].
  rewrite <- Hrole. f_equal.
  apply (Hco user_id connections c websocket user_c user); try done.
  by apply first_connection_elem.
Qed.

Lemma send_role_loop_targets env message role' used keys w :
  registry_wf (mgr w) → role_coherent (mgr w) →
  ∃ r w' evs, send_role_loop env message role' used keys w = (r, w') ∧
    trace w' = trace w ++ evs ∧
    ∀ e, e ∈ evs → ∃ c msg ok user, e = EvSendText c msg ok ∧
      connection_users (mgr w) !! c = Some user ∧ role_value (role user) = role'.
Proof.
  revert w. induction keys as [|user_id keys IH]; intros w Hwf Hco; simpl.
  { rewrite dict_iter_check_eq. do 2 eexists. exists []. rewrite app_nil_r.
    split; [done|]. split; [done|]. by intros e ?%not_elem_of_nil. }
  unfold mbind at 1, M_bind at 1. rewrite dict_iter_check_eq.
  destruct (decide (size (active_connections (mgr w)) = used)) as [_|_].
  2:{ do 2 eexists. exists []. rewrite app_nil_r.
      split; [done|]. split; [done|]. by intros e ?%not_elem_of_nil. }
  unfold mbind at 1, M_bind at 1.
  destruct (send_role_step_targets env message role' user_id w Hwf Hco)
    as (w1 & evs1 & -> & Hstep & Htr1 & Hev1).
  pose proof (delivery_step_wf message _ _ Hstep Hwf) as Hwf1.
  destruct Hstep as (failed & _ & Hm1 & _).
  assert (role_coherent (mgr w1)) as Hco1.
  { rewrite Hm1. by apply role_coherent_disconnect_list. }
  destruct (IH w1 Hwf1 Hco1) as (r & w' & evs2 & -> & Htr2 & Hev2).
  exists r, w', (evs1 ++ evs2). split; [done|].
  split; [by rewrite Htr2, Htr1, app_assoc|].
  intros e [He|He]%elem_of_app; [by apply Hev1|].
  destruct (Hev2 e He) as (c & msg & ok & user & -> & Hu & Hr).
  exists c, msg, ok, user. split; [done|]. split; [|done].
  rewrite Hm1 in Hu. by apply disconnect_list_users_Some in Hu.
Qed.

Lemma send_role_message_targets env message role' w :
  registry_wf (mgr w) → role_coherent (mgr w) →
  ∃ r w' evs, send_role_message env message role' w = (r, w') ∧
    trace w' = trace w ++ evs ∧
    ∀ e, e ∈ evs → ∃ c msg ok user, e = EvSendText c msg ok ∧
      connection_users (mgr w) !! c = Some user ∧ role_value (role user) = role'.
Proof.
  intros Hwf Hco. unfold send_role_message.
  unfold mbind at 1, M_bind at 1, get_mgr. simpl.
  by apply send_role_loop_targets.
Qed.

(** In a well-formed registry with one role per user, when some user
    has the transport of every connection raising: if the user is a
    reviewer, [notify_new_detection] raises the [RuntimeError] of the
    dictionary iterator, and all it has put on the transport by then are
    sends on connections of reviewers, none on a connection of an admin;
    if the user is an admin, [notify_system_alert] raises it, having put
    sends on connections of admins only. *)
Theorem role_notifications_raise env w u conns ws0 user0 :
  registry_wf (mgr w) →
  role_coherent (mgr w) →
  active_connections (mgr w) !! u = Some conns →
  first_connection conns = Some ws0 →
  connection_users (mgr w) !! ws0 = Some user0 →
  (∀ c tr, c ∈ conns → send_raises env tr c = true) →
  (role user0 = REVIEWER → ∀ detection_id is_anomaly confidence,
     ∃ w' evs,
       notify_new_detection env detection_id is_anomaly confidence w
       = (Raised (RuntimeError "dictionary changed size during iteration"), w') ∧
       trace w' = trace w ++ evs ∧
       ∀ e, e ∈ evs → ∃ c msg ok user, e = EvSendText c msg ok ∧
         connection_users (mgr w) !! c = Some user ∧ role user = REVIEWER) ∧
  (role user0 = ADMIN → ∀ alert_type message data,
     ∃ w' evs,
       notify_system_alert env alert_type message data w
       = (Raised (RuntimeError "dictionary changed size during iteration"), w') ∧
       trace w' = trace w ++ evs ∧
       ∀ e, e ∈ evs → ∃ c msg ok user, e = EvSendText c msg ok ∧
         connection_users (mgr w) !! c = Some user ∧ role user = ADMIN).
Proof.
  intros Hwf Hco Hl Hfirst Hu0 Hr. split.
  - intros Hrole detection_id is_anomaly confidence. unfold notify_new_detection.
    unfold mbind at 1, M_bind at 1, now.
    set (w0 := mkWorld (mgr w) (trace w) (S (ticks w))).
    set (message := [("type", VStr "new_detection"); _]).
    unfold mbind at 1, M_bind at 1.
    destruct (send_role_message_targets env message "reviewer" w0 Hwf Hco)
      as (r & w1 & evs & Heq & Htr & Hev).
    destruct (send_role_message_raising env message "new_detection" _ "reviewer" w0
                u conns ws0 user0 eq_refl Hwf Hl Hfirst Hu0) as (w1' & Hraise);
      [by rewrite Hrole|done|].
    rewrite Heq in Hraise. injection Hraise as -> <-. rewrite Heq.
    exists w1, evs. split; [done|]. split; [done|].
    intros e He. destruct (Hev e He) as (c & msg & ok & user & -> & Hu & Hrv).
    exists c, msg, ok, user. split; [done|]. split; [done|].
    by apply role_value_inj.
  - intros Hrole alert_type message data. unfold notify_system_alert.
    unfold mbind at 1, M_bind at 1, now.
    set (w0 := mkWorld (mgr w) (trace w) (S (ticks w))).
    set (msg := [("type", VStr "system_alert"); _]).
    destruct (send_role_message_targets env msg "admin" w0 Hwf Hco)
      as (r & w1 & evs & Heq & Htr & Hev).
    destruct (send_role_message_raising env msg "system_alert" _ "admin" w0
                u conns ws0 user0 eq_refl Hwf Hl Hfirst Hu0) as (w1' & Hraise);
      [by rewrite Hrole|done|].
    rewrite Heq in Hraise. injection Hraise as -> <-. rewrite Heq.
    exists w1, evs. split; [done|]. split; [done|].
    intros e He. destruct (Hev e He) as (c & m' & ok & user & -> & Hu & Hrv).
    exists c, m', ok, user. split; [done|]. split; [done|].
    by apply role_value_inj.
Qed.

Lemma role_coherent_world_two : role_coherent (mgr world_two).
Proof.
  assert (connection_users (mgr world_two) = {[10%N := alice; 20%N := bob]}) as Hus
    by (vm_compute; reflexivity).
  destruct registry_wf_world_two as ([_ Hrev] & _).
  intros u conns c1 c2 u1 u2 Hl H1 H2 Hu1 Hu2.
  destruct (Hrev _ _ _ Hl H1) as (o1 & Ho1 & Hid1).
  destruct (Hrev _ _ _ Hl H2) as (o2 & Ho2 & Hid2).
  rewrite Hu1 in Ho1. injection Ho1 as <-. rewrite Hu2 in Ho2. injection Ho2 as <-.
  rewrite Hus in Hu1, Hu2.
  apply lookup_insert_Some in Hu1 as [[_ <-]|[_ [_ <-]%lookup_singleton_Some]];
    apply lookup_insert_Some in Hu2 as [[_ <-]|[_ [_ <-]%lookup_singleton_Some]];
    try done; subst u; done.
Qed.

Lemma role_notifications_raise_witness :
  ∃ w' evs,
    notify_new_detection env_broken_10 7 true (9 # 10) world_two
    = (Raised (RuntimeError "dictionary changed size during iteration"), w') ∧
    trace w' = trace world_two ++ evs ∧
    ∀ e, e ∈ evs → ∃ c msg ok user, e = EvSendText c msg ok ∧
      connection_users (mgr world_two) !! c = Some user ∧ role user = REVIEWER.
Proof.
  refine (proj1 (role_notifications_raise env_broken_10 world_two
                   1%positive {[10%N]} 10%N alice _ _ _ _ _ _) _ 7%positive true (9 # 10)).
  - apply registry_wf_world_two.
  - apply role_coherent_world_two.
  - reflexivity.
  - reflexivity.
  - reflexivity.
  - intros c tr ->%elem_of_singleton. reflexivity.
  - reflexivity.
Defined.

(** * Properties of the permission check *)

(** [check_permission] grants an action exactly when the role alone
    grants it (everything for an admin; read, review and update_review
    for a reviewer; read and upload for an operator) or the
    authentication service answers 200 with a true "allowed".  The
    service is not consulted for what the role grants, and its failure,
    another status or a body without "allowed" grant nothing: the
    fall-back [user.role == "admin"] is only reached by users who are
    not admins. *)
Theorem check_permission_iff service user action resource :
  check_permission service user action resource =
  granted_by_role (role user) action
  || service_allows (service user action resource).
Proof.
  unfold check_permission, granted_by_role, service_allows.
  set (r1 := action_in action ["read"; "review"; "update_review"]).
  set (r2 := action_in action ["read"; "upload"]).
  destruct (role user); simpl; [done| |].
  - destruct r1; [done|]. simpl.
    destruct (service user action resource) as [code [[[]|]|]|]; try done;
      by destruct (code =? 200).
  - destruct r2; [done|]. simpl.
    destruct (service user action resource) as [code [[[]|]|]|]; try done;
      by destruct (code =? 200).
Qed.

(** [require_permission] raises 403 exactly when neither the role nor
    the service grants the action; in particular no reviewer or operator
    may delete unless the service says so, and an admin is never
    refused. *)
Theorem require_permission_spec service user action resource :
  (require_permission service user action resource = Returned tt ∨
   require_permission service user action resource = Raised (HTTPException 403)) ∧
  (require_permission service user action resource = Returned tt ↔
   granted_by_role (role user) action = true ∨
   service_allows (service user action resource) = true) ∧
  (role user = ADMIN → require_permission service user action resource = Returned tt) ∧
  (role user ≠ ADMIN → service_allows (service user "delete" resource) = false →
   require_permission service user "delete" resource = Raised (HTTPException 403)).
Proof.
  unfold require_permission. rewrite !check_permission_iff.
  split; [|split; [|split]].
  - destruct (granted_by_role _ _ || service_allows _); [by left|by right].
  - rewrite <- orb_true_iff.
    set (b := granted_by_role (role user) action
              || service_allows (service user action resource)).
    destruct b; split; intros H; done.
  - by intros ->.
  - intros Hr Hs. rewrite Hs. by destruct (role user).
Qed.

Lemma require_permission_spec_witness :
  require_permission (λ _ _ _, RequestFailed) alice "delete" None
  = Raised (HTTPException 403).
Proof.
  apply (require_permission_spec (λ _ _ _, RequestFailed) alice "delete" None).
  - discriminate.
  - reflexivity.
Defined.

(** * Properties of the HTTP side *)

(** ** The bearer token *)

Lemma prefix_append s1 s2 :
  String.prefix s1 s2 = true → ∃ rest, s2 = (s1 ++ rest)%string.
Proof.
  revert s2. induction s1 as [|a s1 IH]; intros s2.
  - by exists s2.
  - destruct s2 as [|b s2]; [done|]. cbn [String.prefix].
    destruct (Ascii.ascii_dec a b) as [->|]; [|done].
    intros (rest & ->)%IH. by exists rest.
Qed.

Lemma append_prefix s1 rest : String.prefix s1 (s1 ++ rest)%string = true.
Proof.
  induction s1 as [|a s1 IH]; [by destruct rest|].
  change (String a s1 +:+ rest) with (String a (s1 +:+ rest)).
  cbn [String.prefix]. by destruct (Ascii.ascii_dec a a).
Qed.

Lemma split_space_head s : ∃ pieces, split_space s = before_space s :: pieces.
Proof.
  induction s as [|c s (pieces & IH)]; simpl; [by exists []|].
  rewrite IH. destruct (Ascii.eqb c Ascii.Space); by eexists.
Qed.

Lemma split_space_bearer rest :
  split_space ("Bearer " ++ rest)%string !! 1%nat = Some (before_space rest).
Proof.
  destruct (split_space_head rest) as (pieces & H).
  cbv [String.append]. simpl. by rewrite H.
Qed.

(** [get_current_authenticated_user] answers 401 for a header that is
    absent or does not start with "Bearer ".  For the header
    "Bearer " followed by [rest], the token it verifies is [rest] up to
    its first space (what follows is ignored), and its answer is that of
    [get_current_user] for that token.  The index [1] of the split header
    always exists. *)
Theorem bearer_token env authorization w :
  (∀ rest, authorization = Some ("Bearer " ++ rest)%string →
     get_current_authenticated_user env authorization w
     = http_result (get_current_user env (before_space rest) w).1) ∧
  ((∀ rest, authorization ≠ Some ("Bearer " ++ rest)%string) →
     get_current_authenticated_user env authorization w = Http 401) ∧
  get_current_authenticated_user env authorization w ≠ Unhandled IndexError.
Proof.
  assert (∀ rest, get_current_authenticated_user env (Some ("Bearer " ++ rest)%string) w
                  = http_result (get_current_user env (before_space rest) w).1) as Hb.
  { intros rest. unfold get_current_authenticated_user.
    rewrite append_prefix, split_space_bearer. done. }
  assert ((∀ rest, authorization ≠ Some ("Bearer " ++ rest)%string) →
          get_current_authenticated_user env authorization w = Http 401) as Hn.
  { intros Hno. unfold get_current_authenticated_user.
    destruct authorization as [header|]; [|done].
    destruct (String.prefix "Bearer " header) eqn:Hp.
    - apply prefix_append in Hp as (rest & ->). by destruct (Hno rest).
    - by rewrite orb_true_r. }
  split; [by intros rest ->|]. split; [done|].
  destruct authorization as [header|]; [|done].
  destruct (String.prefix "Bearer " header) eqn:Hp.
  - apply prefix_append in Hp as (rest & ->). rewrite Hb.
    destruct (get_current_user_cases env (before_space rest) w)
      as [(user & -> & _)|(e & He & _)]; [done|].
    unfold get_current_user in *.
    destruct (String.eqb (before_space rest) ""); [by injection He as <-|].
    destruct (verify_token env (before_space rest)) as [user|];
      [|by injection He as <-].
    destruct (is_active user); [done|by injection He as <-].
  - rewrite Hn; [done|]. intros rest [= ->]. by rewrite append_prefix in Hp.
Qed.

Lemma bearer_token_witness :
  get_current_authenticated_user env_quiet (Some "Bearer alice-token extra") world_init
  = Ok alice.
Proof.
  apply (proj1 (bearer_token env_quiet (Some "Bearer alice-token extra") world_init)
           "alice-token extra").
  reflexivity.
Defined.

(** ** Pages *)

(** Every role is granted "read": the permission check of [get_reviews]
    and [get_detections_for_review] never refuses and never depends on
    the authentication service, so both endpoints answer what the page
    arithmetic answers. *)
Theorem read_is_always_permitted {A} service max_page_size
    (query : Z → Z → list A * Z) current_user page size :
  get_reviews service max_page_size query current_user page size
    = paginate max_page_size query page size ∧
  get_detections_for_review service max_page_size query current_user page size
    = paginate max_page_size query page size.
Proof.
  unfold get_reviews, get_detections_for_review, require_permission.
  rewrite check_permission_iff.
  assert (granted_by_role (role current_user) "read" = true) as ->
    by (by destruct (role current_user)).
  done.
Qed.

(** For a positive page number, page size and cap, the page answered has
    the requested size capped at [max_page_size], its items and total
    are what the query answers for [skip = (page - 1) * size] and that
    size, and [pages] is the least number of pages of that size that
    hold [total] items. *)
Theorem paginate_pages {A} max_page_size (query : Z → Z → list A * Z) page size :
  0 < page → 0 < size → 0 < max_page_size →
  ∃ r, paginate max_page_size query page size = Ok r ∧
    p_size r = Z.min size max_page_size ∧
    p_page r = page ∧
    (p_items r, p_total r) = query ((page - 1) * p_size r) (p_size r) ∧
    p_total r ≤ p_pages r * p_size r < p_total r + p_size r.
Proof.
  intros _ Hs Hmax. unfold paginate.
  assert ((if size >? max_page_size then max_page_size else size)
          = Z.min size max_page_size) as ->.
  { destruct (Z.gtb_spec size max_page_size); lia. }
  set (sz := Z.min size max_page_size).
  assert (0 < sz) as Hsz by (unfold sz; lia).
  destruct (query ((page - 1) * sz) sz) as [items total] eqn:Hq.
  destruct (Z.eqb_spec sz 0) as [?|_]; [lia|].
  eexists. split; [done|]. simpl. rewrite Hq. repeat (split; [done|]).
  pose proof (Z.div_mod (total + sz - 1) sz ltac:(lia)) as Hdm.
  pose proof (Z.mod_pos_bound (total + sz - 1) sz Hsz) as Hmod.
  nia.
Qed.

Lemma paginate_pages_witness :
  ∃ r, paginate 100 (λ skip limit, ([skip; limit], 41)) 2 20 = Ok r ∧
    p_size r = Z.min 20 100 ∧
    p_page r = 2 ∧
    (p_items r, p_total r)
      = (λ skip limit, ([skip; limit], 41)) ((2 - 1) * p_size r) (p_size r) ∧
    p_total r ≤ p_pages r * p_size r < p_total r + p_size r.
Proof. apply paginate_pages; lia. Defined.

(** Nothing rejects a page size of zero.  When [max_page_size] is not
    negative and the query returns, [get_reviews] and
    [get_detections_for_review] then fail with the [ZeroDivisionError]
    of the page count, for every user, permission service and page. *)
Theorem paginate_size_zero {A} service max_page_size
    (query : Z → Z → list A * Z) current_user page :
  0 ≤ max_page_size →
  get_reviews service max_page_size query current_user page 0
    = Unhandled ZeroDivisionError ∧
  get_detections_for_review service max_page_size query current_user page 0
    = Unhandled ZeroDivisionError.
Proof.
  intros Hmax.
  assert (paginate max_page_size query page 0 = Unhandled ZeroDivisionError) as Hpage.
  { unfold paginate. destruct (Z.gtb_spec 0 max_page_size); [lia|].
    by destruct (query ((page - 1) * 0) 0). }
  unfold get_reviews, get_detections_for_review, require_permission.
  rewrite check_permission_iff.
  assert (granted_by_role (role current_user) "read" = true) as ->
    by (by destruct (role current_user)).
  simpl. by rewrite Hpage.
Qed.

Lemma paginate_size_zero_witness :
  get_reviews service_down 100 (λ skip limit, ([skip; limit], 41)) carol 1 0
    = Unhandled ZeroDivisionError ∧
  get_detections_for_review service_down 100 (λ skip limit, ([skip; limit], 41)) carol 1 0
    = Unhandled ZeroDivisionError.
Proof. apply paginate_size_zero. lia. Defined.

(** * Properties of the review endpoints *)

Lemma require_permission_cases service user action resource :
  require_permission service user action resource = Returned tt ∨
  require_permission service user action resource = Raised (HTTPException 403).
Proof.
  unfold require_permission.
  destruct (check_permission service user action resource); [by left|by right].
Qed.

Section endpoints.
Context `{Crud DB}.
Variable env : Env.
Variable service : PermissionService.

(** [create_review] answers 403 when the permission "review" is refused
    and 404 when the detection does not exist, and then neither the
    database nor the registry has changed.  Otherwise the review is
    stored and [notify_new_detection] is called for the detection:
    the world left behind is the one that call leaves, and the answer is
    the stored review when it returns, and the [RuntimeError] of the
    dictionary iterator when it raises, which is the one way it fails;
    the review is stored in both cases. *)
Theorem create_review_outcome (review : ReviewCreate) (current_user : User)
    (w : World) (db : DB) :
  ∃ r w' db', create_review env service review current_user w db = (r, w', db') ∧
    ((r = Http 403 ∧ w' = w ∧ db' = db ∧
      require_permission service current_user "review" None
      = Raised (HTTPException 403)) ∨
     (r = Http 404 ∧ w' = w ∧ db' = db ∧
      require_permission service current_user "review" None = Returned tt ∧
      crud_get_detection db (rc_detection_id review) = None) ∨
     (∃ detection,
        require_permission service current_user "review" None = Returned tt ∧
        crud_get_detection db (rc_detection_id review) = Some detection ∧
        db' = (crud_create_review db review (id current_user)).2 ∧
        let notified :=
          notify_new_detection env (d_id detection) (d_is_anomaly detection)
            (d_confidence_score detection) w in
        w' = notified.2 ∧
        ((notified.1 = Returned tt ∧
          r = Ok (crud_create_review db review (id current_user)).1) ∨
         (notified.1
          = Raised (RuntimeError "dictionary changed size during iteration") ∧
          r = Unhandled
                (Uncaught (RuntimeError "dictionary changed size during iteration")))))).
Proof.
  unfold create_review.
  destruct (require_permission_cases service current_user "review" None) as [Hp|Hp];
    rewrite Hp; simpl.
  2:{ do 3 eexists. split; [done|]. by left. }
  destruct (crud_get_detection db (rc_detection_id review)) as [detection|] eqn:Hd.
  2:{ do 3 eexists. split; [done|]. right. by left. }
  destruct (crud_create_review db review (id current_user)) as [db_review db'] eqn:Hc.
  destruct (notify_new_detection_cases env (d_id detection) (d_is_anomaly detection)
              (d_confidence_score detection) w) as (r & w' & Hn & [-> | ->]);
    rewrite Hn; do 3 eexists; (split; [done|]); right; right;
    exists detection; cbn zeta; rewrite Hn; simpl; eauto 10.
Qed.

(** The request of a permitted user for an existing detection fails
    after the review is stored, when the registry is well-formed and
    some reviewer has the transport of every connection raising. *)
Theorem create_review_fails_after_storing (review : ReviewCreate) (current_user : User)
    (w : World) (db : DB) u conns ws0 user0 :
  require_permission service current_user "review" None = Returned tt →
  is_Some (crud_get_detection db (rc_detection_id review)) →
  registry_wf (mgr w) →
  active_connections (mgr w) !! u = Some conns →
  first_connection conns = Some ws0 →
  connection_users (mgr w) !! ws0 = Some user0 →
  role user0 = REVIEWER →
  (∀ c tr, c ∈ conns → send_raises env tr c = true) →
  ∃ w', create_review env service review current_user w db
        = (Unhandled
             (Uncaught (RuntimeError "dictionary changed size during iteration")),
           w', (crud_create_review db review (id current_user)).2).
Proof.
  intros Hp [detection Hd] Hwf Hl Hfirst Hu0 Hrole Hr. unfold create_review.
  rewrite Hp, Hd. simpl.
  destruct (crud_create_review db review (id current_user)) as [db_review db'].
  destruct (notify_new_detection_raising env w u conns ws0 user0
              (d_id detection) (d_is_anomaly detection) (d_confidence_score detection)
              Hwf Hl Hfirst Hu0 Hrole Hr) as (w' & ->).
  by exists w'.
Qed.

(** Whatever the permission service says, a user who is not an admin
    and asks to update an existing review of another reviewer gets 403,
    and neither the database nor the registry changes. *)
Theorem update_review_ownership (review_id : UUID) (review_update : ReviewUpdate)
    (current_user : User) (w : World) (db : DB) existing_review :
  role current_user ≠ ADMIN →
  crud_get_review db review_id = Some existing_review →
  r_reviewer_id existing_review ≠ id current_user →
  update_review env service review_id review_update current_user w db
  = (Http 403, w, db).
Proof.
  intros Hrole Hget Hown. unfold update_review.
  destruct (require_permission_cases service current_user "update_review" None)
    as [Hp|Hp]; rewrite Hp; simpl; [|done].
  rewrite Hget.
  assert (String.eqb (role_value (role current_user)) "admin" = false) as ->.
  { by destruct (role current_user). }
  assert (Pos.eqb (r_reviewer_id existing_review) (id current_user) = false) as ->.
  { by apply Pos.eqb_neq. }
  done.
Qed.

(** Once the permission "update_review" is granted and the review
    exists, an admin, or the reviewer of that review, gets the updated
    review back whatever the transport does: [notify_review_completed]
    is called when the new status is approved or rejected, with the
    verdict or "unknown", and never fails the request; for another
    status nothing is sent. *)
Theorem update_review_answers (review_id : UUID) (review_update : ReviewUpdate)
    (current_user : User) (w : World) (db : DB) existing_review updated_review db' :
  require_permission service current_user "update_review" None = Returned tt →
  crud_get_review db review_id = Some existing_review →
  role current_user = ADMIN ∨ r_reviewer_id existing_review = id current_user →
  crud_update_review db review_id review_update = (Some updated_review, db') →
  ∃ w', update_review env service review_id review_update current_user w db
        = (Ok updated_review, w', db') ∧
    w' = if is_completed (r_review_status updated_review)
         then (notify_review_completed env (r_id updated_review)
                 (r_detection_id updated_review)
                 (or_unknown (r_human_verdict updated_review)) w).2
         else w.
Proof.
  intros Hp Hget Hown Hupd. unfold update_review. rewrite Hp, Hget. simpl.
  assert (negb (String.eqb (role_value (role current_user)) "admin")
          && negb (Pos.eqb (r_reviewer_id existing_review) (id current_user)) = false)
    as ->.
  { destruct Hown as [-> | ->]; [done|]. rewrite Pos.eqb_refl. by rewrite andb_false_r. }
  rewrite Hupd.
  destruct (is_completed (r_review_status updated_review)); [|by exists w].
  destruct (notify_review_completed_returns env (r_id updated_review)
              (r_detection_id updated_review)
              (or_unknown (r_human_verdict updated_review)) w) as (w' & ->).
  by exists w'.
Qed.

(** A user who is not an admin deletes nothing unless the permission
    service allows it: the answer is 403 and the database is as it
    was. *)
Theorem delete_review_requires_grant (review_id : UUID) (current_user : User) (db : DB) :
  role current_user ≠ ADMIN →
  service_allows (service current_user "delete" None) = false →
  delete_review service review_id current_user db = (Http 403, db).
Proof.
  intros Hrole Hs. unfold delete_review, require_permission.
  rewrite check_permission_iff, Hs.
  by destruct (role current_user).
Qed.

End endpoints.

Lemma create_review_fails_after_storing_witness :
  ∃ w', create_review env_broken_10 service_down review_create_example alice
          world_two store_example
        = (Unhandled
             (Uncaught (RuntimeError "dictionary changed size during iteration")),
           w', (crud_create_review store_example review_create_example (id alice)).2).
Proof.
  apply (create_review_fails_after_storing env_broken_10 service_down
           review_create_example alice world_two store_example
           1%positive {[10%N]} 10%N alice).
  - reflexivity.
  - by eexists.
  - apply registry_wf_world_two.
  - reflexivity.
  - reflexivity.
  - reflexivity.
  - reflexivity.
  - intros c tr ->%elem_of_singleton. reflexivity.
Defined.

Lemma update_review_ownership_witness :
  update_review env_quiet service_down 5 approve alice world_two store_example
  = (Http 403, world_two, store_example).
Proof.
  apply (update_review_ownership env_quiet service_down 5 approve alice
           world_two store_example review_of_bob).
  - discriminate.
  - reflexivity.
  - discriminate.
Defined.

Lemma update_review_answers_witness :
  ∃ w', update_review env_broken_10 service_down 5 approve bob world_two store_example
        = (Ok (apply_update approve review_of_bob), w',
           mkStore (detections store_example)
             (<[5%positive := apply_update approve review_of_bob]>
                (reviews store_example))) ∧
    w' = (notify_review_completed env_broken_10 5 7 "true_positive" world_two).2.
Proof.
  apply (update_review_answers env_broken_10 service_down 5 approve bob
           world_two store_example review_of_bob).
  - reflexivity.
  - reflexivity.
  - by left.
  - reflexivity.
Defined.

Lemma delete_review_requires_grant_witness :
  delete_review service_down 5 alice store_example = (Http 403, store_example).
Proof.
  apply (delete_review_requires_grant service_down 5 alice store_example).
  - discriminate.
  - reflexivity.
Defined.

(** * What every sequence of calls keeps *)

(** Along every finite sequence of [connect] and [disconnect] calls,
    also one that registers a connection again for another user, three
    parts of well-formedness hold after each call once they hold at the
    start: no user entry has an empty connection set, every connection
    with a reverse-lookup entry is in the set of the user the entry
    names, and the connections with metadata are those with a
    reverse-lookup entry. *)
Theorem registry_run_keeps env ops w :
  no_empty_entry (mgr w) ∧ forward_consistent (mgr w) ∧ metadata_consistent (mgr w) →
  Forall (λ w', no_empty_entry (mgr w') ∧ forward_consistent (mgr w') ∧
                metadata_consistent (mgr w'))
         (run env ops w).
Proof.
  revert w. induction ops as [|op ops IH]; intros w (Hne & Hfwd & Hmd); simpl.
  { constructor. }
  assert (no_empty_entry (mgr (exec env op w)) ∧
          forward_consistent (mgr (exec env op w)) ∧
          metadata_consistent (mgr (exec env op w))) as Hnext.
  { split; [by apply no_empty_entry_exec|].
    split; [by apply forward_consistent_exec|by apply metadata_consistent_exec]. }
  constructor; [done|]. by apply IH.
Qed.

Lemma registry_run_keeps_witness :
  Forall (λ w', no_empty_entry (mgr w') ∧ forward_consistent (mgr w') ∧
                metadata_consistent (mgr w'))
         (run env_quiet [Register 10 alice; Register 10 bob; Unregister 10] world_init).
Proof.
  apply registry_run_keeps.
  split; [apply no_empty_entry_init|]. apply registry_wf_init.
Defined.

(** * Notifications to one user or to all *)

(** [send_notification] returns whatever the transport does.  Addressed
    to a user, it puts sends on connections of that user's set only, and
    a "notification" envelope with the message, the severity and the
    data on every one of them; a user without an entry gets nothing.
    Not addressed, in a well-formed registry, it puts that envelope on
    every registered connection.  A send fails only where the transport
    of that connection raises. *)
Theorem send_notification_spec env notification w :
  let d := [("message", VStr (n_message notification));
            ("severity", VStr (n_severity notification));
            ("data", VDict (n_data notification))] in
  ∃ w' evs,
    send_notification env notification w = (Returned tt, w') ∧
    trace w' = trace w ++ evs ∧
    (∀ user_id, n_user_id notification = Some user_id →
       (∀ e, e ∈ evs → ∃ c m ok conns, e = EvSendText c m ok ∧
           active_connections (mgr w) !! user_id = Some conns ∧ c ∈ conns) ∧
       (∀ conns c, active_connections (mgr w) !! user_id = Some conns → c ∈ conns →
          ∃ ts ok, EvSendText c (mkWsMessage "notification" d ts) ok ∈ evs ∧
                   (ok = false → ∃ tr, send_raises env tr c = true))) ∧
    (n_user_id notification = None → registry_wf (mgr w) →
       ∀ ws user, connection_users (mgr w) !! ws = Some user →
         ∃ ts ok, EvSendText ws (mkWsMessage "notification" d ts) ok ∈ evs ∧
                  (ok = false → ∃ tr, send_raises env tr ws = true)).
Proof.
  cbn zeta. unfold send_notification.
  set (d := [("message", VStr (n_message notification)); _; _]).
  set (message := [("type", VStr "notification"); _]).
  assert (message_parts message = Some ("notification", d)) as Hp by done.
  destruct (n_user_id notification) as [user_id|].
  - destruct (send_user_message_spec env message user_id w)
      as (w' & Heq & evs & Htr & Hev & Hsent).
    exists w', evs. split; [done|]. split; [done|]. split; [|done].
    intros u [= <-]. split; [done|]. exact (Hsent _ _ Hp).
  - assert (∃ w' evs, broadcast_message env message w = (Returned tt, w') ∧
              trace w' = trace w ++ evs ∧
              (registry_wf (mgr w) →
               ∀ ws user, connection_users (mgr w) !! ws = Some user →
                 ∃ ts ok, EvSendText ws (mkWsMessage "notification" d ts) ok ∈ evs ∧
                          (ok = false → ∃ tr, send_raises env tr ws = true)))
      as (w' & evs & Heq & Htr & Hall).
    { unfold broadcast_message. unfold mbind at 1, M_bind at 1, get_mgr. simpl.
      set (keys := (map_to_list (active_connections (mgr w))).*1).
      destruct (broadcast_loop_delivery env message keys w)
        as [Hr (failed & evs & _ & Htr & _)].
      destruct (broadcast_loop env message keys w) as [r w'] eqn:Heq.
      simpl in Hr, Htr. subst r. exists w', evs. split; [done|]. split; [done|].
      intros Hwf.
      destruct (broadcast_message_reaches env message "notification" d w Hp Hwf)
        as (w2 & evs2 & Heq2 & Htr2 & _ & Hsent2).
      unfold broadcast_message in Heq2.
      unfold mbind at 1, M_bind at 1, get_mgr in Heq2. simpl in Heq2.
      fold keys in Heq2. rewrite Heq in Heq2. injection Heq2 as <-.
      rewrite Htr in Htr2. by apply app_inv_head in Htr2 as <-. }
    exists w', evs. split; [done|]. split; [done|]. split; [done|].
    intros _. exact Hall.
Qed.

(** * What a session does with the frames of the peer *)

(** Whatever the peer sends, [websocket_endpoint] does what it does when
    the peer sends nothing: the first text frame ends the loop with the
    [NameError] of [json.loads], so no heartbeat is ever handled.  The
    only message a session puts on the transport is the welcome of
    [connect]. *)
Theorem endpoint_ignores_frames env websocket token frames w :
  websocket_endpoint env websocket token frames w
  = websocket_endpoint env websocket token [] w ∧
  ∃ evs, trace (websocket_endpoint env websocket token frames w).2 = trace w ++ evs ∧
    ∀ c m ok, EvSendText c m ok ∈ evs →
      c = websocket ∧ ws_type m = "connection_established".
Proof.
  split.
  - unfold websocket_endpoint. destruct (token_missing token); [done|].
    unfold mbind, M_bind.
    destruct (try_except _ _ w) as [[[user|]|e] w0]; try done.
    destruct (connect env websocket user w0) as [[[]|e] w1]; [|done].
    unfold try_finally. by rewrite !receive_loop_eq.
  - destruct (token_missing token) eqn:Hmiss.
    { rewrite endpoint_missing_token by done. cbn [snd trace].
      eexists. split; [done|]. by intros c m ok [=]%list_elem_of_singleton. }
    unfold websocket_endpoint. rewrite Hmiss.
    unfold mbind at 1, M_bind at 1, try_except. unfold mbind at 1, M_bind at 1.
    destruct (get_current_user_cases env (default "" token) w)
      as [(user & -> & _)|(e & -> & _)].
    + simpl. unfold mbind at 1, M_bind at 1. rewrite connect_eq.
      destruct (accept_raises env (trace w) websocket).
      { cbn [snd trace]. eexists. split; [done|].
        by intros c m ok [=]%list_elem_of_singleton. }
      cbn zeta. unfold try_finally.
      destruct (send_raises env _ websocket); rewrite receive_loop_eq;
        cbn [snd trace modify_mgr]; rewrite <- app_assoc;
        (eexists; split; [done|]);
        intros c m ok [[=]|Hin%list_elem_of_singleton]%elem_of_cons;
        by injection Hin as -> -> _.
    + unfold mbind at 1, M_bind at 1. rewrite close_eq. cbn zeta.
      destruct (negb (close_raises env (trace w) websocket)); cbn [snd trace];
        (eexists; split; [done|]); by intros c m ok [=]%list_elem_of_singleton.
Qed.
